(** * The reminder record model of advanced_reminder_app_final.py

    A shallow embedding of the [Reminder] class and of the list-handling
    methods of [ReminderApp]: the record constructor with its due-date
    fallback, [to_dict] / [from_dict], [_sort_reminders], and the handlers
    that add, update, delete, toggle, save and load reminders.

    Python values that come out of [json.load] are modelled by [pyval];
    [datetime] objects by a record of integers; exceptions and the mutable
    application object by a state-and-exception monad. *)

From Stdlib Require Import ZArith List String Ascii Bool Lia.
From Stdlib Require Import Permutation Sorted.
Import ListNotations.

Local Open Scope string_scope.
Local Open Scope list_scope.
Local Open Scope Z_scope.

(** ** Configuration *)

Definition DEFAULT_FILENAME : string := "reminders_data.json".
Definition PRIORITY_LEVELS : list string := ["High"; "Medium"; "Low"].

(** ** Python values

    The values [json.load] builds: [None], [bool], [int], [str], [list] and
    [dict] with string keys.  A dict is kept as the list of its items in
    insertion order, every key once.  JSON numbers with a fraction or an
    exponent (Python floats) are not part of the model. *)

#[warnings="-register-all"]
Inductive pyval : Type :=
| PNone
| PBool (b : bool)
| PInt (n : Z)
| PStr (s : string)
| PList (l : list pyval)
| PDict (items : list (string * pyval)).

(** [dict.get(key)] on the item list. *)
Fixpoint lookup (key : string) (items : list (string * pyval)) : option pyval :=
  match items with
  | [] => None
  | (k, v) :: rest => if String.eqb key k then Some v else lookup key rest
  end.

(** Truth value of an object, as [if x] and [not x] test it. *)
Definition truthy (v : pyval) : bool :=
  match v with
  | PNone => false
  | PBool b => b
  | PInt n => negb (n =? 0)
  | PStr s => negb (String.eqb s "")
  | PList l => match l with [] => false | _ => true end
  | PDict items => match items with [] => false | _ => true end
  end.

(** The integer a [bool] or [int] stands for in comparisons. *)
Definition as_int (v : pyval) : option Z :=
  match v with
  | PBool b => Some (if b then 1 else 0)
  | PInt n => Some n
  | _ => None
  end.

(** [x == y].  Never raises on these values; [True == 1]; dicts compare
    without regard to the order of their items. *)
Fixpoint py_eq (x y : pyval) {struct x} : bool :=
  match as_int x, as_int y with
  | Some a, Some b => a =? b
  | _, _ =>
    match x, y with
    | PNone, PNone => true
    | PStr s, PStr t => String.eqb s t
    | PList l, PList m =>
        (fix all2 (l m : list pyval) {struct l} : bool :=
           match l, m with
           | [], [] => true
           | a :: l', b :: m' => py_eq a b && all2 l' m'
           | _, _ => false
           end) l m
    | PDict kv, PDict kw =>
        (List.length kv =? List.length kw)%nat &&
        (fix sub (kv : list (string * pyval)) {struct kv} : bool :=
           match kv with
           | [] => true
           | (k, a) :: kv' =>
               match lookup k kw with
               | Some b => py_eq a b && sub kv'
               | None => false
               end
           end) kv
    | _, _ => false
    end
  end.

(** Code-point order of two strings, which on UTF-8 is the order of the
    bytes. *)
Fixpoint str_lt (s t : string) : bool :=
  match s, t with
  | EmptyString, EmptyString => false
  | EmptyString, String _ _ => true
  | String _ _, EmptyString => false
  | String a s', String b t' =>
      if Ascii.eqb a b then str_lt s' t'
      else (N_of_ascii a <? N_of_ascii b)%N
  end.

(** [x < y]; [None] stands for the [TypeError] Python raises when the two
    operands are not ordered ([None], dicts, operands of different kinds). *)
Fixpoint py_lt (x y : pyval) {struct x} : option bool :=
  match as_int x, as_int y with
  | Some a, Some b => Some (a <? b)
  | _, _ =>
    match x, y with
    | PStr s, PStr t => Some (str_lt s t)
    | PList l, PList m =>
        (fix lex (l m : list pyval) {struct l} : option bool :=
           match l, m with
           | [], [] => Some false
           | [], _ :: _ => Some true
           | _ :: _, [] => Some false
           | a :: l', b :: m' => if py_eq a b then lex l' m' else py_lt a b
           end) l m
    | _, _ => None
    end
  end.

(** ** datetime *)

Record datetime : Type := mkDatetime {
  year : Z; month : Z; day : Z;
  hour : Z; minute : Z; second : Z; microsecond : Z
}.

Definition is_leap (y : Z) : bool :=
  (y mod 4 =? 0) && (negb (y mod 100 =? 0) || (y mod 400 =? 0)).

Definition days_in_month (y m : Z) : Z :=
  if m =? 2 then (if is_leap y then 29 else 28)
  else if (m =? 4) || (m =? 6) || (m =? 9) || (m =? 11) then 30
  else 31.

(** The range checks of the [datetime] constructor (MINYEAR = 1,
    MAXYEAR = 9999); every [datetime] object satisfies them. *)
Definition valid_datetime (d : datetime) : bool :=
  (1 <=? year d) && (year d <=? 9999) &&
  (1 <=? month d) && (month d <=? 12) &&
  (1 <=? day d) && (day d <=? days_in_month (year d) (month d)) &&
  (0 <=? hour d) && (hour d <=? 23) &&
  (0 <=? minute d) && (minute d <=? 59) &&
  (0 <=? second d) && (second d <=? 59) &&
  (0 <=? microsecond d) && (microsecond d <=? 999999).

Definition datetime_eqb (a b : datetime) : bool :=
  (year a =? year b) && (month a =? month b) && (day a =? day b) &&
  (hour a =? hour b) && (minute a =? minute b) && (second a =? second b) &&
  (microsecond a =? microsecond b).

(** [a < b] on naive datetimes: lexicographic on the seven fields. *)
Definition datetime_ltb (a b : datetime) : bool :=
  if negb (year a =? year b) then year a <? year b
  else if negb (month a =? month b) then month a <? month b
  else if negb (day a =? day b) then day a <? day b
  else if negb (hour a =? hour b) then hour a <? hour b
  else if negb (minute a =? minute b) then minute a <? minute b
  else if negb (second a =? second b) then second a <? second b
  else microsecond a <? microsecond b.

(** ** DATE_FORMAT = "%Y-%m-%d %H:%M"

    [strftime] and [strptime] are library functions; they are modelled for
    this one format from CPython's [_strptime] module: the format is turned
    into the regular expression

      (?P<Y>\d\d\d\d)-(?P<m>1[0-2]|0[1-9]|[1-9])-
      (?P<d>3[0-1]|[1-2]\d|0[1-9]|[1-9]| [1-9])\s+
      (?P<H>2[0-3]|[0-1]\d|\d):(?P<M>[0-5]\d|\d)

    which must match the whole string, and the groups are then given to the
    [datetime] constructor.

    Text: a [string] is the UTF-8 encoding of a Python [str], which is also
    how a string literal of this file is read.  UTF-8 keeps the order of
    code points and no encoding of a character is the beginning or the end
    of that of another, so the characters at the two ends of a text can be
    told from its first and last bytes.  The character classes are those of
    CPython 3.11 (Unicode 14): [\s], [str.isspace] and [str.strip] share one
    set of 29 white-space characters, and [\d] and [int] one set of 660
    decimal digits. *)

Definition code (c : ascii) : Z := Z.of_N (N_of_ascii c).

Definition in_range (lo hi : ascii) (c : ascii) : bool :=
  (code lo <=? code c) && (code c <=? code hi).

Definition is_digit : ascii -> bool := in_range "0" "9".

(** White space of one byte: the characters 9 to 13 and 28 to 32. *)
Definition is_space (c : ascii) : bool :=
  ((9 <=? code c) && (code c <=? 13)) ||
  ((28 <=? code c) && (code c <=? 32)).

(** Of two bytes: U+0085 and U+00A0. *)
Definition is_space2 (a b : ascii) : bool :=
  (code a =? 194) && ((code b =? 133) || (code b =? 160)).

(** Of three bytes: U+1680, U+2000 to U+200A, U+2028, U+2029, U+202F, U+205F
    and U+3000. *)
Definition is_space3 (a b c : ascii) : bool :=
  ((code a =? 225) && (code b =? 154) && (code c =? 128)) ||
  ((code a =? 226) && (code b =? 128) &&
   (((128 <=? code c) && (code c <=? 138)) ||
    (code c =? 168) || (code c =? 169) || (code c =? 175))) ||
  ((code a =? 226) && (code b =? 129) && (code c =? 159)) ||
  ((code a =? 227) && (code b =? 128) && (code c =? 128)).

(** Decimal digits other than [0] to [9]: the ten digits of a script are ten
    consecutive characters whose encodings differ in the last byte only;
    [decimal_zeros] has the encoding of the zero of each script. *)
Definition decimal_zeros : list (list Z) :=
  [[217; 160]; [219; 176]; [223; 128]; [224; 165; 166]; [224; 167; 166];
   [224; 169; 166]; [224; 171; 166]; [224; 173; 166]; [224; 175; 166];
   [224; 177; 166]; [224; 179; 166]; [224; 181; 166]; [224; 183; 166];
   [224; 185; 144]; [224; 187; 144]; [224; 188; 160]; [225; 129; 128];
   [225; 130; 144]; [225; 159; 160]; [225; 160; 144]; [225; 165; 134];
   [225; 167; 144]; [225; 170; 128]; [225; 170; 144]; [225; 173; 144];
   [225; 174; 176]; [225; 177; 128]; [225; 177; 144]; [234; 152; 160];
   [234; 163; 144]; [234; 164; 128]; [234; 167; 144]; [234; 167; 176];
   [234; 169; 144]; [234; 175; 176]; [239; 188; 144]; [240; 144; 146; 160];
   [240; 144; 180; 176]; [240; 145; 129; 166]; [240; 145; 131; 176];
   [240; 145; 132; 182]; [240; 145; 135; 144]; [240; 145; 139; 176];
   [240; 145; 145; 144]; [240; 145; 147; 144]; [240; 145; 153; 144];
   [240; 145; 155; 128]; [240; 145; 156; 176]; [240; 145; 163; 160];
   [240; 145; 165; 144]; [240; 145; 177; 144]; [240; 145; 181; 144];
   [240; 145; 182; 160]; [240; 150; 169; 160]; [240; 150; 171; 128];
   [240; 150; 173; 144]; [240; 157; 159; 142]; [240; 157; 159; 152];
   [240; 157; 159; 162]; [240; 157; 159; 172]; [240; 157; 159; 182];
   [240; 158; 133; 128]; [240; 158; 139; 176]; [240; 158; 165; 144];
   [240; 159; 175; 176]].

(** [s] begins with one of the ten digits whose zero is encoded as [z]: the
    value of the digit, its bytes and what follows. *)
Fixpoint digit_at (z : list Z) (s : list ascii)
  : option (Z * list ascii * list ascii) :=
  match z with
  | [] => None
  | b :: z' =>
      match s with
      | [] => None
      | c :: r =>
          match z' with
          | [] =>
              if (b <=? code c) && (code c <=? b + 9) then Some (code c - b, [c], r)
              else None
          | _ :: _ =>
              if code c =? b
              then match digit_at z' r with
                   | Some (v, m, r') => Some (v, c :: m, r')
                   | None => None
                   end
              else None
          end
      end
  end.

(** The decimal digit at the head of [s], if there is one. *)
Definition digit_tok (s : list ascii) : option (Z * list ascii * list ascii) :=
  match s with
  | a :: r =>
      if is_digit a then Some (code a - 48, [a], r)
      else if code a <? 128 then None
      else fold_right (fun z found => match digit_at z s with
                                      | Some x => Some x
                                      | None => found
                                      end) None decimal_zeros
  | [] => None
  end.

(** A backtracking matcher: all the ways a pattern matches a prefix of the
    input, in the order the [re] engine tries them, each with the matched
    text and the rest of the input. *)
Definition regex : Type := list ascii -> list (list ascii * list ascii).

Definition cls (p : ascii -> bool) : regex :=
  fun s => match s with
           | c :: r => if p c then [([c], r)] else []
           | [] => []
           end.

Definition lit (c : ascii) : regex := cls (Ascii.eqb c).

Definition cat (a b : regex) : regex :=
  fun s => flat_map (fun m1 => map (fun m2 => (fst m1 ++ fst m2, snd m2))
                                   (b (snd m1))) (a s).

Definition alt (a b : regex) : regex := fun s => a s ++ b s.

(** [\d] *)
Definition digit : regex :=
  fun s => match digit_tok s with
           | Some (_, m, r) => [(m, r)]
           | None => []
           end.

(** [\s+], greedy: the longest run of white space first.  A byte below 194
    begins no white space of two bytes, one below 225 none of three. *)
Fixpoint plus_space (s : list ascii) : list (list ascii * list ascii) :=
  match s with
  | a :: r1 =>
      if is_space a
      then map (fun m => (a :: fst m, snd m)) (plus_space r1) ++ [([a], r1)]
      else if code a <? 194 then []
      else
        match r1 with
        | b :: r2 =>
            if is_space2 a b
            then map (fun m => (a :: b :: fst m, snd m)) (plus_space r2)
                 ++ [([a; b], r2)]
            else if code a <? 225 then []
            else
              match r2 with
              | c :: r3 =>
                  if is_space3 a b c
                  then map (fun m => (a :: b :: c :: fst m, snd m)) (plus_space r3)
                       ++ [([a; b; c], r3)]
                  else []
              | [] => []
              end
        | [] => []
        end
  | [] => []
  end.

Declare Scope regex_scope.
Delimit Scope regex_scope with re.
Infix "·" := cat (at level 40, left associativity) : regex_scope.
Infix "|||" := alt (at level 50, left associativity) : regex_scope.

Definition re_Y : regex := (digit · digit · digit · digit)%re.
Definition re_m : regex :=
  (lit "1" · cls (in_range "0" "2") ||| lit "0" · cls (in_range "1" "9")
   ||| cls (in_range "1" "9"))%re.
Definition re_d : regex :=
  (lit "3" · cls (in_range "0" "1") ||| cls (in_range "1" "2") · digit
   ||| lit "0" · cls (in_range "1" "9") ||| cls (in_range "1" "9")
   ||| lit " " · cls (in_range "1" "9"))%re.
Definition re_H : regex :=
  (lit "2" · cls (in_range "0" "3") ||| cls (in_range "0" "1") · digit
   ||| digit)%re.
Definition re_M : regex :=
  (cls (in_range "0" "5") · digit ||| digit)%re.

(** [int(text)] on a group: decimal digits, surrounding blanks ignored.
    [n] bounds the number of steps; the length of the text is enough. *)
Fixpoint int_from (n : nat) (text : list ascii) (acc : Z) : Z :=
  match n with
  | O => acc
  | S n' =>
      match digit_tok text with
      | Some (v, _, r) => int_from n' r (10 * acc + v)
      | None =>
          match text with
          | _ :: r => int_from n' r acc
          | [] => acc
          end
      end
  end.

Definition int_of (text : list ascii) : Z := int_from (List.length text) text 0.

Record groups : Type := mkGroups {
  g_Y : list ascii; g_m : list ascii; g_d : list ascii;
  g_H : list ascii; g_M : list ascii
}.

(** The matches of the whole format, in order, with the unmatched rest. *)
Definition format_regex (s : list ascii) : list (groups * list ascii) :=
  flat_map (fun Y =>
  flat_map (fun dash1 =>
  flat_map (fun m =>
  flat_map (fun dash2 =>
  flat_map (fun d =>
  flat_map (fun blanks =>
  flat_map (fun H =>
  flat_map (fun colon =>
  map (fun M => (mkGroups (fst Y) (fst m) (fst d) (fst H) (fst M), snd M))
      (re_M (snd colon)))
      (lit ":" (snd H)))
      (re_H (snd blanks)))
      (plus_space (snd d)))
      (re_d (snd dash2)))
      (lit "-" (snd m)))
      (re_m (snd dash1)))
      (lit "-" (snd Y)))
      (re_Y s).

(** [datetime.strptime(text, DATE_FORMAT)]; [None] is [ValueError]. *)
Definition strptime (text : string) : option datetime :=
  match format_regex (list_ascii_of_string text) with
  | (g, rest) :: _ =>
      match rest with
      | _ :: _ => None                      (* unconverted data remains *)
      | [] =>
          let d := mkDatetime (int_of (g_Y g)) (int_of (g_m g)) (int_of (g_d g))
                              (int_of (g_H g)) (int_of (g_M g)) 0 0 in
          if valid_datetime d then Some d else None
      end
  | [] => None                              (* does not match format *)
  end.

Definition digit_char (d : Z) : ascii := ascii_of_N (Z.to_N (48 + d)).

Definition two_digits (n : Z) : list ascii :=
  [digit_char (n / 10); digit_char (n mod 10)].

Definition four_digits (n : Z) : list ascii :=
  [digit_char (n / 1000); digit_char (n / 100 mod 10);
   digit_char (n / 10 mod 10); digit_char (n mod 10)].

(** [%Y]: CPython 3.11 hands the format to the C library, and the C library
    of Linux prints the year as a plain number, so without leading zeros
    when it is below 1000: [datetime(999, 1, 2).strftime("%Y")] is ["999"]. *)
Definition year_digits (n : Z) : list ascii :=
  if n <? 10 then [digit_char n]
  else if n <? 100 then two_digits n
  else if n <? 1000
       then [digit_char (n / 100); digit_char (n / 10 mod 10); digit_char (n mod 10)]
  else four_digits n.

(** [d.strftime(DATE_FORMAT)]: the year as [%Y] prints it, the other fields
    on two digits. *)
Definition strftime (d : datetime) : string :=
  string_of_list_ascii
    (year_digits (year d) ++ ["-"%char] ++ two_digits (month d) ++ ["-"%char]
     ++ two_digits (day d) ++ [" "%char] ++ two_digits (hour d) ++ [":"%char]
     ++ two_digits (minute d)).

(** The white space at the head of [s] is taken off: characters of one, two
    or three bytes, as [one], [two] and [three] tell them. *)
Fixpoint drop_space (one : ascii -> bool) (two : ascii -> ascii -> bool)
    (three : ascii -> ascii -> ascii -> bool) (s : list ascii) : list ascii :=
  match s with
  | a :: r1 =>
      if one a then drop_space one two three r1
      else
        match r1 with
        | b :: r2 =>
            if two a b then drop_space one two three r2
            else
              match r2 with
              | c :: r3 => if three a b c then drop_space one two three r3 else s
              | [] => s
              end
        | [] => s
        end
  | [] => []
  end.

(** [s.lstrip()] *)
Definition lstrip : list ascii -> list ascii :=
  drop_space is_space is_space2 is_space3.

(** [s.rstrip()] on the text read backwards: the last byte comes first. *)
Definition lstrip_back : list ascii -> list ascii :=
  drop_space is_space (fun y x => is_space2 x y) (fun z y x => is_space3 x y z).

(** [s.strip()]: white space is taken off both ends. *)
Definition strip (s : string) : string :=
  string_of_list_ascii
    (rev (lstrip_back (rev (lstrip (list_ascii_of_string s))))).

(** [s.lower()] on the letters [A] to [Z]; the other characters stay, as do
    the capital letters of other alphabets, which Python would change too. *)
Definition lower_char (c : ascii) : ascii :=
  if in_range "A" "Z" c then ascii_of_N (N_of_ascii c + 32) else c.

Definition lower (s : string) : string :=
  string_of_list_ascii (map lower_char (list_ascii_of_string s)).

(** ** The Reminder object

    [oid] stands for the identity of the Python object: the constructor
    draws a fresh one, attribute assignment keeps it.  Attributes filled from
    a JSON document can hold any value, so they are [pyval]s; [due_date] is
    always a [datetime]. *)

Record Reminder : Type := mkReminder {
  oid : nat;
  task : pyval;
  priority : pyval;
  details : pyval;
  is_completed : pyval;
  creation_date : pyval;
  due_date : datetime
}.

Definition set_task (v : pyval) (r : Reminder) : Reminder :=
  mkReminder (oid r) v (priority r) (details r) (is_completed r)
             (creation_date r) (due_date r).
Definition set_priority (v : pyval) (r : Reminder) : Reminder :=
  mkReminder (oid r) (task r) v (details r) (is_completed r)
             (creation_date r) (due_date r).
Definition set_details (v : pyval) (r : Reminder) : Reminder :=
  mkReminder (oid r) (task r) (priority r) v (is_completed r)
             (creation_date r) (due_date r).
Definition set_is_completed (v : pyval) (r : Reminder) : Reminder :=
  mkReminder (oid r) (task r) (priority r) (details r) v
             (creation_date r) (due_date r).
Definition set_due_date (d : datetime) (r : Reminder) : Reminder :=
  mkReminder (oid r) (task r) (priority r) (details r) (is_completed r)
             (creation_date r) d.

(** ** The application object and its effects *)

Inductive exn : Type :=
| KeyError (key : pyval)
| TypeError
| AttributeError
| FileNotFoundError
| PermissionError
| JSONDecodeError.

Inductive res (A : Type) : Type :=
| Ret (a : A)
| Raise (e : exn).
Arguments Ret {A} a.
Arguments Raise {A} e.

(** A [messagebox] call, by kind and title. *)
Inductive dialog : Type :=
| showerror (title : string)
| showwarning (title : string)
| showinfo (title : string).

(** What [open] and [json.load] find under a file name. *)
Inductive file : Type :=
| Missing                 (* open raises FileNotFoundError *)
| Denied                  (* open raises PermissionError *)
| Garbage                 (* json.load raises JSONDecodeError *)
| Doc (v : pyval).        (* json.load returns v *)

(** A row of the Treeview: its iid is the index in [reminders_list]. *)
Record row : Type := mkRow {
  iid : nat;
  values : list pyval;
  tags : list string
}.

(** The fields of [ReminderApp] the handlers below read and write, with the
    world around it: the files, the dialogs opened so far (oldest first),
    the number of calls of [datetime.now()] made so far and the number of
    Reminder objects created so far.  Entry widgets, status bar and window
    title are presentation: handlers get the text of the entries and the
    selected row as arguments. *)
Record App : Type := mkApp {
  reminders_list : list Reminder;
  current_filename : string;
  reminders_tree : list row;
  disk : list (string * file);
  dialogs : list dialog;
  now_calls : nat;
  objects : nat
}.

Definition with_list (l : list Reminder) (a : App) : App :=
  mkApp l (current_filename a) (reminders_tree a) (disk a) (dialogs a)
        (now_calls a) (objects a).
Definition with_filename (f : string) (a : App) : App :=
  mkApp (reminders_list a) f (reminders_tree a) (disk a) (dialogs a)
        (now_calls a) (objects a).
Definition with_tree (t : list row) (a : App) : App :=
  mkApp (reminders_list a) (current_filename a) t (disk a) (dialogs a)
        (now_calls a) (objects a).
Definition with_disk (d : list (string * file)) (a : App) : App :=
  mkApp (reminders_list a) (current_filename a) (reminders_tree a) d
        (dialogs a) (now_calls a) (objects a).
Definition with_dialogs (d : list dialog) (a : App) : App :=
  mkApp (reminders_list a) (current_filename a) (reminders_tree a) (disk a)
        d (now_calls a) (objects a).
Definition with_now_calls (n : nat) (a : App) : App :=
  mkApp (reminders_list a) (current_filename a) (reminders_tree a) (disk a)
        (dialogs a) n (objects a).
Definition with_objects (n : nat) (a : App) : App :=
  mkApp (reminders_list a) (current_filename a) (reminders_tree a) (disk a)
        (dialogs a) (now_calls a) n.

(** A computation that may raise; the state it leaves is kept either way. *)
Definition M (A : Type) : Type := App -> res A * App.

Definition ret {A} (x : A) : M A := fun a => (Ret x, a).
Definition raise {A} (e : exn) : M A := fun a => (Raise e, a).
Definition bind {A B} (m : M A) (k : A -> M B) : M B :=
  fun a => match m a with
           | (Ret x, a') => k x a'
           | (Raise e, a') => (Raise e, a')
           end.
(** [try: m  except ... as e: h e] *)
Definition try {A} (m : M A) (h : exn -> M A) : M A :=
  fun a => match m a with
           | (Ret x, a') => (Ret x, a')
           | (Raise e, a') => h e a'
           end.
Definition gets {A} (f : App -> A) : M A := fun a => (Ret (f a), a).
Definition modify (f : App -> App) : M unit := fun a => (Ret tt, f a).

Notation "x <- m ;; k" := (bind m (fun x => k))
  (at level 61, m at next level, right associativity).
Notation "m ;;; k" := (bind m (fun _ => k))
  (at level 61, right associativity).

(** [for x in l: f x] *)
Fixpoint for_each {A} (f : A -> M unit) (l : list A) : M unit :=
  match l with
  | [] => ret tt
  | x :: l' => f x ;;; for_each f l'
  end.

(** [[f x for x in l]] *)
Fixpoint comprehension {A B} (f : A -> M B) (l : list A) : M (list B) :=
  match l with
  | [] => ret []
  | x :: l' => y <- f x ;; ys <- comprehension f l' ;; ret (y :: ys)
  end.

Definition messagebox (d : dialog) : M unit :=
  modify (fun a => with_dialogs (dialogs a ++ [d]) a).

(** [list[index] = f(list[index])]: assignment to an attribute of the object
    the list holds at [index]. *)
Fixpoint update_at {A} (i : nat) (f : A -> A) (l : list A) : list A :=
  match l, i with
  | [], _ => []
  | x :: l', O => f x :: l'
  | x :: l', S i' => x :: update_at i' f l'
  end.

Fixpoint remove_at {A} (i : nat) (l : list A) : list A :=
  match l, i with
  | [], _ => []
  | x :: l', O => l'
  | x :: l', S i' => x :: remove_at i' l'
  end.

Definition enumerate {A} (l : list A) : list (nat * A) :=
  combine (seq 0 (List.length l)) l.

Definition find_file (name : string) (d : list (string * file)) : file :=
  match find (fun kv => String.eqb name (fst kv)) d with
  | Some kv => snd kv
  | None => Missing
  end.

(** ** Sorting *)

(** [priority_map = {level: i for i, level in enumerate(PRIORITY_LEVELS)}] *)
Definition priority_map : list (string * Z) :=
  map (fun il => (snd il, Z.of_nat (fst il))) (enumerate PRIORITY_LEVELS).

(** [priority_map[p]]: a key that is not in the dict raises [KeyError], a
    list or a dict cannot be hashed and raises [TypeError]. *)
Definition priority_rank (p : pyval) : res Z :=
  match p with
  | PStr s =>
      match find (fun kv => String.eqb s (fst kv)) priority_map with
      | Some kv => Ret (snd kv)
      | None => Raise (KeyError p)
      end
  | PList _ | PDict _ => Raise TypeError
  | _ => Raise (KeyError p)
  end.

(** The tuple [(r.is_completed, r.due_date, priority_map[r.priority])]. *)
Definition sort_key : Type := (pyval * datetime * Z)%type.

Definition key_of (r : Reminder) : res sort_key :=
  match priority_rank (priority r) with
  | Ret i => Ret (is_completed r, due_date r, i)
  | Raise e => Raise e
  end.

(** [k1 < k2] on these tuples: the first position where the two differ
    under [==] decides; [None] is [TypeError]. *)
Definition key_lt (k1 k2 : sort_key) : option bool :=
  let '(c1, d1, p1) := k1 in
  let '(c2, d2, p2) := k2 in
  if negb (py_eq c1 c2) then py_lt c1 c2
  else if negb (datetime_eqb d1 d2) then Some (datetime_ltb d1 d2)
  else Some (p1 <? p2).

(** [list.sort(key=...)] computes every key first, then sorts on the keys
    with [<] alone, and is stable.  It is modelled as the stable insertion
    sort: [x] goes behind the elements that are smaller and before the first
    that is not.  Stability fixes the result whenever the keys are pairwise
    ordered; when some pair is not, CPython raises [TypeError] as soon as its
    own algorithm compares such a pair, this model as soon as the insertion
    meets one. *)
Fixpoint insert_sorted {A} (x : sort_key * A) (l : list (sort_key * A))
  : option (list (sort_key * A)) :=
  match l with
  | [] => Some [x]
  | y :: l' =>
      match key_lt (fst y) (fst x) with
      | None => None
      | Some true => option_map (cons y) (insert_sorted x l')
      | Some false => Some (x :: y :: l')
      end
  end.

Fixpoint sort_by_key {A} (l : list (sort_key * A)) : option (list (sort_key * A)) :=
  match l with
  | [] => Some []
  | x :: l' =>
      match sort_by_key l' with
      | Some s => insert_sorted x s
      | None => None
      end
  end.

Definition lift {A} (r : res A) : M A := fun a => (r, a).

(** [_sort_reminders].  When a key cannot be computed ([KeyError], or
    [TypeError] for a priority that cannot be hashed) [list.sort] has not
    begun to move anything and the list is as it was.  When a comparison of
    two keys raises [TypeError], CPython leaves the list in the order its
    own algorithm had reached, some rearrangement of the same objects; here
    the list is then as it was, and nothing below is stated about the order
    after such a [TypeError]. *)
Definition _sort_reminders : M unit :=
  l <- gets reminders_list ;;
  keys <- comprehension (fun r => lift (key_of r)) l ;;
  match sort_by_key (combine keys l) with
  | Some s => modify (with_list (map snd s))
  | None => raise TypeError
  end.

(** ** Reminder, ReminderApp *)

(** The [due_date_str] argument of the constructor: a value out of a
    document or an entry widget, or a [datetime] object. *)
Inductive due_arg : Type :=
| DueValue (v : pyval)
| DueDatetime (d : datetime).

Section Clock.

(** [clock n] is what the [n]-th call of [datetime.now()] returns. *)
Variable clock : nat -> datetime.

Definition datetime_now : M datetime :=
  fun a => (Ret (clock (now_calls a)), with_now_calls (S (now_calls a)) a).

(** [Reminder.__init__] (with the allocation of the object). *)
Definition Reminder_init (task : pyval) (due_date_str : due_arg)
    (priority details is_completed creation_date : pyval) : M Reminder :=
  self <- gets objects ;;
  modify (fun a => with_objects (S (objects a)) a) ;;;
  creation_date <-
    (if truthy creation_date then ret creation_date
     else now <- datetime_now ;; ret (PStr (strftime now))) ;;
  due_date <-
    match due_date_str with
    | DueValue (PStr s) =>
        match strptime s with
        | Some d => ret d
        | None =>                                         (* except ValueError *)
            messagebox (showwarning "Date Format Error") ;;;
            datetime_now
        end
    | DueDatetime d => ret d
    | DueValue _ =>
        messagebox (showwarning "Date Type Error") ;;;
        datetime_now
    end ;;
  ret (mkReminder self task priority details is_completed creation_date due_date).

Definition to_dict (self : Reminder) : pyval :=
  PDict [("task", task self);
         ("due_date_str", PStr (strftime (due_date self)));
         ("priority", priority self);
         ("details", details self);
         ("is_completed", is_completed self);
         ("creation_date", creation_date self)].

(** [data[key]] with a string key. *)
Definition getitem (data : pyval) (key : string) : M pyval :=
  match data with
  | PDict items =>
      match lookup key items with
      | Some v => ret v
      | None => raise (KeyError (PStr key))
      end
  | _ => raise TypeError
  end.

(** [data.get(key, default)] *)
Definition dict_get (data : pyval) (key : string) (default : pyval) : M pyval :=
  match data with
  | PDict items =>
      match lookup key items with
      | Some v => ret v
      | None => ret default
      end
  | _ => raise AttributeError
  end.

Definition from_dict (data : pyval) : M Reminder :=
  task <- getitem data "task" ;;
  due_date_str <- getitem data "due_date_str" ;;
  priority <- getitem data "priority" ;;
  details <- dict_get data "details" (PStr "") ;;
  is_completed <- dict_get data "is_completed" (PBool false) ;;
  creation_date <- dict_get data "creation_date" PNone ;;
  Reminder_init task (DueValue due_date_str) priority details is_completed
                creation_date.

(** [tree.item(item_id, tags=...)] *)
Definition set_tags (item_id : nat) (tags : list string) (t : list row) : list row :=
  map (fun r => if Nat.eqb (iid r) item_id then mkRow (iid r) (values r) tags else r) t.

Definition _refresh_reminders_tree : M unit :=
  modify (with_tree []) ;;;
  l <- gets reminders_list ;;
  for_each (fun ir =>
    let i := fst ir in
    let reminder := snd ir in
    let status_icon := if truthy (is_completed reminder) then "✅" else "⏳" in
    let values := [PStr status_icon; task reminder;
                   PStr (strftime (due_date reminder)); priority reminder;
                   creation_date reminder; details reminder] in
    modify (fun a => with_tree (reminders_tree a ++ [mkRow i values []]) a) ;;;
    tags <-
      (if truthy (is_completed reminder) then ret ["completed"]
       else
         now <- datetime_now ;;
         ret (if datetime_ltb (due_date reminder) now
              then ["pending"; "overdue"] else ["pending"])) ;;
    priority_tag <-
      match priority reminder with
      | PStr p => ret (lower p ++ "_priority")%string
      | _ => raise AttributeError
      end ;;
    modify (fun a => with_tree (set_tags i (tags ++ [priority_tag]) (reminders_tree a)) a))
    (enumerate l).

(** Of [_set_due_date_to_now] and [_clear_input_fields], which fill the
    entry widgets, the reading of the clock for the due-date entry is kept. *)
Definition _set_due_date_to_now : M unit :=
  now <- datetime_now ;; ret tt.

Definition _clear_input_fields : M unit :=
  now <- datetime_now ;; ret tt.

Definition _add_reminder_object (reminder_obj : Reminder) : M unit :=
  modify (fun a => with_list (reminders_list a ++ [reminder_obj]) a) ;;;
  _sort_reminders ;;;
  _refresh_reminders_tree.

(** The arguments are what [task_entry.get()], [due_date_entry.get()],
    [priority_var.get()] and [details_text.get("1.0", tk.END)] return. *)
Definition _add_reminder_from_ui
    (task_entry due_date_entry priority_var details_text : string) : M unit :=
  let task := strip task_entry in
  let due_date_str := strip due_date_entry in
  let priority := priority_var in
  let details := strip details_text in
  if String.eqb task "" then messagebox (showerror "Input Error")
  else if String.eqb due_date_str "" then messagebox (showerror "Input Error")
  else
    match strptime due_date_str with
    | None => messagebox (showerror "Input Error")
    | Some _ =>
        new_reminder <- Reminder_init (PStr task) (DueValue (PStr due_date_str))
                          (PStr priority) (PStr details) (PBool false) PNone ;;
        _add_reminder_object new_reminder ;;;
        _clear_input_fields
    end.

(** [selected_items] is [reminders_tree.selection()], each iid read back as
    the number it was written from.  The object found is returned as its
    index in [reminders_list]: the list holds every object once, and the
    callers use the object before the list is reordered. *)
Definition _get_selected_reminder_object (selected_items : list nat) : M (option nat) :=
  match selected_items with
  | [] => ret None
  | index :: _ =>
      l <- gets reminders_list ;;
      if (index <? List.length l)%nat then ret (Some index) else ret None
  end.

Definition _update_selected_reminder (selected_items : list nat)
    (task_entry due_date_entry priority_var details_text : string) : M unit :=
  selected_reminder <- _get_selected_reminder_object selected_items ;;
  match selected_reminder with
  | None => messagebox (showinfo "Update")
  | Some index =>
      let new_task := strip task_entry in
      let new_due_date_str := strip due_date_entry in
      let new_priority := priority_var in
      let new_details := strip details_text in
      if String.eqb new_task "" then messagebox (showerror "Input Error")
      else if String.eqb new_due_date_str "" then messagebox (showerror "Input Error")
      else
        match strptime new_due_date_str with
        | None => messagebox (showerror "Input Error")
        | Some new_due_date_obj =>
            let setattr f :=
              modify (fun a => with_list (update_at index f (reminders_list a)) a) in
            setattr (set_task (PStr new_task)) ;;;
            setattr (set_due_date new_due_date_obj) ;;;
            setattr (set_priority (PStr new_priority)) ;;;
            setattr (set_details (PStr new_details)) ;;;
            _sort_reminders ;;;
            _refresh_reminders_tree ;;;
            _clear_input_fields
        end
  end.

(** [askyesno] is the answer to the confirmation dialog. *)
Definition _delete_selected_reminder (selected_items : list nat) (askyesno : bool)
  : M unit :=
  selected_reminder <- _get_selected_reminder_object selected_items ;;
  match selected_reminder with
  | Some index =>
      if askyesno then
        modify (fun a => with_list (remove_at index (reminders_list a)) a) ;;;
        _sort_reminders ;;;
        _refresh_reminders_tree ;;;
        _clear_input_fields
      else ret tt
  | None => messagebox (showinfo "Delete")
  end.

Definition _delete_all_reminders (askyesno : bool) : M unit :=
  if askyesno then
    modify (with_list []) ;;;
    _refresh_reminders_tree ;;;
    _clear_input_fields
  else ret tt.

Definition _clear_all_fields_and_list (askyesno : bool) : M unit :=
  if askyesno then
    _clear_input_fields ;;;
    modify (with_list []) ;;;
    _refresh_reminders_tree ;;;
    modify (with_filename DEFAULT_FILENAME)
  else ret tt.

Definition _toggle_complete_selected (selected_items : list nat) : M unit :=
  selected_reminder <- _get_selected_reminder_object selected_items ;;
  match selected_reminder with
  | Some index =>
      modify (fun a => with_list
        (update_at index (fun r => set_is_completed (PBool (negb (truthy (is_completed r)))) r)
                   (reminders_list a)) a) ;;;
      _sort_reminders ;;;
      _refresh_reminders_tree
  | None => messagebox (showinfo "Toggle Complete")
  end.

(** [_load_selected_for_editing] copies the selected record into the entry
    widgets. *)
Definition _load_selected_for_editing (selected_items : list nat) : M unit :=
  selected_reminder <- _get_selected_reminder_object selected_items ;;
  ret tt.

Definition _show_about : M unit :=
  messagebox (showinfo "About Advanced Reminder App").

(** [open(filename, "w")] followed by [json.dump(data, f)]. *)
Definition json_dump (data : pyval) (filename : string) : M unit :=
  d <- gets disk ;;
  match find_file filename d with
  | Denied => raise PermissionError
  | _ => modify (with_disk ((filename, Doc data) :: d))
  end.

(** [open(filename, "r")] followed by [json.load(f)]. *)
Definition json_load (filename : string) : M pyval :=
  d <- gets disk ;;
  match find_file filename d with
  | Missing => raise FileNotFoundError
  | Denied => raise PermissionError
  | Garbage => raise JSONDecodeError
  | Doc v => ret v
  end.

(** [[r.to_dict() for r in self.reminders_list]], the document that
    [_save_reminders] writes. *)
Definition encode (l : list Reminder) : pyval := PList (map to_dict l).

Definition _save_reminders (filename : option string) : M unit :=
  filename <- match filename with
              | None => gets current_filename
              | Some f => ret f
              end ;;
  if String.eqb filename "" then messagebox (showerror "Save Error")
  else
    try (l <- gets reminders_list ;;
         let data_to_save := encode l in
         json_dump data_to_save filename ;;;
         modify (with_filename filename))
        (fun e => messagebox (showerror "Save Error")).

(** The characters of a text: a byte from 128 to 191 continues the
    character before it. *)
Fixpoint chars (s : list ascii) : list (list ascii) :=
  match s with
  | [] => []
  | a :: r =>
      match r with
      | b :: _ =>
          if (128 <=? code b) && (code b <=? 191)
          then match chars r with
               | m :: cs => (a :: m) :: cs
               | [] => [[a]]
               end
          else [a] :: chars r
      | [] => [[a]]
      end
  end.

(** [for item in data]: a list gives its elements, a dict its keys, a str
    its characters; other values are not iterable. *)
Definition iterate (data : pyval) : M (list pyval) :=
  match data with
  | PList l => ret l
  | PDict items => ret (map (fun kv => PStr (fst kv)) items)
  | PStr s => ret (map (fun m => PStr (string_of_list_ascii m))
                       (chars (list_ascii_of_string s)))
  | _ => raise TypeError
  end.

(** [[Reminder.from_dict(item) for item in data_loaded]], the list that
    [_load_reminders_core] builds from a document. *)
Definition decode (data_loaded : pyval) : M (list Reminder) :=
  items <- iterate data_loaded ;;
  comprehension from_dict items.

Definition _load_reminders_core (filename : string) : M unit :=
  try (data_loaded <- json_load filename ;;
       l <- decode data_loaded ;;
       modify (with_list l) ;;;
       _sort_reminders ;;;
       _refresh_reminders_tree ;;;
       modify (with_filename filename))
      (fun e =>
         match e with
         | FileNotFoundError => messagebox (showerror "Load Error")
         | JSONDecodeError => messagebox (showerror "Load Error")
         | _ => messagebox (showerror "Load Error")
         end).

(** [_load_reminders_on_startup]: the file is opened once to see whether it
    can be read. *)
Definition _load_reminders_on_startup : M unit :=
  try (d <- gets disk ;;
       match find_file DEFAULT_FILENAME d with
       | Missing => raise FileNotFoundError
       | Denied => raise PermissionError
       | _ => _load_reminders_core DEFAULT_FILENAME
       end)
      (fun e =>
         match e with
         | FileNotFoundError => ret tt
         | _ => messagebox (showerror "Load Error")
         end).

End Clock.

(** * Notions used in the statements *)

(** ** Dates *)

(** The minute-resolution part of a datetime. *)
Definition to_minute (d : datetime) : datetime :=
  mkDatetime (year d) (month d) (day d) (hour d) (minute d) 0 0.

(** ** The canonical sort

    The order as the specification words it: incomplete records first, then
    the earlier due date, then the priority rank High = 0, Medium = 1,
    Low = 2. *)

Definition completed (r : Reminder) : bool := truthy (is_completed r).

Definition rank (r : Reminder) : Z :=
  match priority r with
  | PStr s => if String.eqb s "High" then 0
              else if String.eqb s "Medium" then 1
              else 2
  | _ => 2
  end.

(** [r1] may stand before [r2]. *)
Definition canonical_leb (r1 r2 : Reminder) : bool :=
  if negb (Bool.eqb (completed r1) (completed r2)) then negb (completed r1)
  else if negb (datetime_eqb (due_date r1) (due_date r2))
       then datetime_ltb (due_date r1) (due_date r2)
  else rank r1 <=? rank r2.

Definition canonical_le (r1 r2 : Reminder) : Prop := canonical_leb r1 r2 = true.

(** The three keys of [r1] and [r2] are equal. *)
Definition same_keys (r1 r2 : Reminder) : bool :=
  Bool.eqb (completed r1) (completed r2) &&
  datetime_eqb (due_date r1) (due_date r2) &&
  (rank r1 =? rank r2).

(** [sorted] is the canonical sort of [staged]: the same records, in
    canonical order, records of equal keys in the order they had. *)
Definition canonical_sort_of (staged sorted : list Reminder) : Prop :=
  Permutation staged sorted /\
  StronglySorted canonical_le sorted /\
  forall r, filter (same_keys r) sorted = filter (same_keys r) staged.

(** The records the order is specified for: [is_completed] is a [bool] and
    [priority] is one of PRIORITY_LEVELS. *)
Definition valid_reminder (r : Reminder) : bool :=
  match is_completed r with PBool _ => true | _ => false end &&
  match priority r with
  | PStr s => existsb (String.eqb s) PRIORITY_LEVELS
  | _ => false
  end.

(** Lexicographic order on integer tuples, the yardstick for both the
    tuple comparison of Python and the order of the specification. *)
Fixpoint lex_ltb (a b : list Z) : bool :=
  match a, b with
  | x :: a', y :: b' => if negb (x =? y) then x <? y else lex_ltb a' b'
  | _, _ => false
  end.

Definition fields (d : datetime) : list Z :=
  [year d; month d; day d; hour d; minute d; second d; microsecond d].

(** The keys of a record as one integer tuple. *)
Definition zkey (r : Reminder) : list Z :=
  (if completed r then 1 else 0) :: fields (due_date r) ++ [rank r].

Definition all_valid (l : list Reminder) : Prop :=
  Forall (fun r => valid_reminder r = true) l.

(** The key Python computes for a valid record. *)
Definition pykey (r : Reminder) : sort_key := (is_completed r, due_date r, rank r).

Definition keyed (l : list Reminder) : list (sort_key * Reminder) :=
  map (fun r => (pykey r, r)) l.

(** ** Frames and invariants of computations *)

(** [m] never changes the part [f] of the state, whether it returns or raises. *)
Definition keeps {X A} (f : App -> X) (m : M A) : Prop :=
  forall a, f (snd (m a)) = f a.

(** ** What the handlers assign *)

(** The record [_add_reminder_from_ui] constructs in state [a]. *)
Definition new_reminder (clock : nat -> datetime) (a : App)
    (task priority details : string) (due : datetime) : Reminder :=
  mkReminder (objects a) (PStr task) (PStr priority) (PStr details) (PBool false)
             (PStr (strftime (clock (now_calls a)))) due.

(** What [_update_selected_reminder] assigns to the selected record. *)
Definition edit (task priority details : string) (due : datetime) (r : Reminder)
  : Reminder :=
  set_details (PStr details)
    (set_priority (PStr priority) (set_due_date due (set_task (PStr task) r))).

(** What [_toggle_complete_selected] assigns to the selected record. *)
Definition toggle (r : Reminder) : Reminder :=
  set_is_completed (PBool (negb (truthy (is_completed r)))) r.

(** ** Decoding *)

(** The value of [data.get(key, d)], from the result of the lookup. *)
Definition default (d : pyval) (v : option pyval) : pyval :=
  match v with Some x => x | None => d end.

(** The record [from_dict] builds as object number [o] from [to_dict r]. *)
Definition reloaded (o : nat) (r : Reminder) : Reminder :=
  mkReminder o (task r) (priority r) (details r) (is_completed r)
             (creation_date r) (to_minute (due_date r)).

Fixpoint reload (o : nat) (l : list Reminder) : list Reminder :=
  match l with
  | [] => []
  | r :: l' => reloaded o r :: reload (S o) l'
  end.

(** The six fields of two records are equal. *)
Definition same_fields (r r' : Reminder) : Prop :=
  task r = task r' /\ due_date r = due_date r' /\ priority r = priority r' /\
  details r = details r' /\ is_completed r = is_completed r' /\
  creation_date r = creation_date r'.

(** [item] is a dict with the three keys [from_dict] subscripts. *)
Definition has_required (item : pyval) : bool :=
  match item with
  | PDict items =>
      match lookup "task" items, lookup "due_date_str" items, lookup "priority" items with
      | Some _, Some _, Some _ => true
      | _, _, _ => false
      end
  | _ => false
  end.

(** The due date of [r] is a reading of the clock taken between the states
    [a] and [a']. *)
Definition due_now (clock : nat -> datetime) (a a' : App) (r : Reminder) : Prop :=
  exists k, (now_calls a <= k < now_calls a')%nat /\ due_date r = clock k.

(** [item] carries a due-date text that does not parse. *)
Definition unparsable (item : pyval) : Prop :=
  exists items s, item = PDict items /\
                  lookup "due_date_str" items = Some (PStr s) /\ strptime s = None.

(** ** Identity and creation date *)

(** [r'] is the object [r], with the creation date [r] has. *)
Definition same_object (r r' : Reminder) : Prop :=
  oid r = oid r' /\ creation_date r = creation_date r'.

(** Every record of [a] is an object of [a0] with the creation date it had
    there, or an object constructed since. *)
Definition carried (a0 a : App) : Prop :=
  (objects a0 <= objects a)%nat /\
  Forall (fun r' => (exists r, In r (reminders_list a0) /\ same_object r r') \/
                    (objects a0 <= oid r')%nat)
         (reminders_list a).

(** An invariant [I] of the state that [m] maintains, with what [m] returns. *)
Definition triple {A} (I : App -> Prop) (m : M A) (Q : A -> Prop) : Prop :=
  forall a, I a -> I (snd (m a)) /\ forall x, fst (m a) = Ret x -> Q x.

(** ** Every handler *)

(** The load at start-up and the commands bound to the menu and the
    buttons, with what they read from the widgets and the dialogs. *)
Inductive handler : Type :=
| Startup
| AddReminder (task_entry due_date_entry priority_var details_text : string)
| UpdateSelected (selected_items : list nat)
                 (task_entry due_date_entry priority_var details_text : string)
| DeleteSelected (selected_items : list nat) (askyesno : bool)
| DeleteAll (askyesno : bool)
| NewFile (askyesno : bool)
| ToggleComplete (selected_items : list nat)
| LoadForEdit (selected_items : list nat)
| ClearFields
| Now
| Save (filename : option string)
| Open (filename : string)
| About.

Definition handle (clock : nat -> datetime) (h : handler) : M unit :=
  match h with
  | Startup => _load_reminders_on_startup clock
  | AddReminder t d p det => _add_reminder_from_ui clock t d p det
  | UpdateSelected sel t d p det => _update_selected_reminder clock sel t d p det
  | DeleteSelected sel yes => _delete_selected_reminder clock sel yes
  | DeleteAll yes => _delete_all_reminders clock yes
  | NewFile yes => _clear_all_fields_and_list clock yes
  | ToggleComplete sel => _toggle_complete_selected clock sel
  | LoadForEdit sel => _load_selected_for_editing sel
  | ClearFields => _clear_input_fields clock
  | Now => _set_due_date_to_now clock
  | Save filename => _save_reminders filename
  | Open filename => _load_reminders_core clock filename
  | About => _show_about
  end.

(** ** A session

    A clock, two records, three files; the statements below are also
    checked on them. *)

Definition clock_example (n : nat) : datetime :=
  mkDatetime 2025 3 4 5 6 7 (Z.of_nat n).

Definition milk : Reminder :=
  mkReminder 0 (PStr "Buy milk") (PStr "High") (PStr "") (PBool false)
             (PStr "2024-12-31 08:00") (mkDatetime 2025 1 1 9 0 0 0).

Definition dentist : Reminder :=
  mkReminder 1 (PStr "Call dentist") (PStr "Low") (PStr "") (PBool false)
             (PStr "2024-12-31 08:05") (mkDatetime 2025 1 1 9 0 0 0).

(** A document of two well-formed elements, the later one first. *)
Definition saved_doc : pyval :=
  PList [PDict [("task", PStr "June"); ("due_date_str", PStr "2025-06-01 10:00");
                ("priority", PStr "Low")];
         PDict [("task", PStr "May"); ("due_date_str", PStr "2025-05-01 10:00");
                ("priority", PStr "High"); ("details", PStr "");
                ("is_completed", PBool false);
                ("creation_date", PStr "2025-01-01 00:00")]].

(** A document whose one element has a priority outside PRIORITY_LEVELS. *)
Definition urgent_doc : pyval :=
  PList [PDict [("task", PStr "Pay rent"); ("due_date_str", PStr "2025-02-01 10:00");
                ("priority", PStr "Urgent")]].

Definition not_a_date_item : pyval :=
  PDict [("task", PStr "Pay rent"); ("due_date_str", PStr "not-a-date");
         ("priority", PStr "High")].

Definition no_priority : list (string * pyval) :=
  [("task", PStr "Pay rent"); ("due_date_str", PStr "2025-02-01 10:00")].

Definition app_example : App :=
  mkApp [milk; dentist] DEFAULT_FILENAME []
        [("saved.json", Doc saved_doc); ("urgent.json", Doc urgent_doc);
         ("broken.json", Doc (PList [not_a_date_item; PDict no_priority]))]
        [] 0 2.

Definition decoded_example : list Reminder :=
  Eval vm_compute in
    match fst (decode clock_example saved_doc app_example) with
    | Ret l => l
    | Raise _ => []
    end.

Definition after_decode_example : App :=
  Eval vm_compute in snd (decode clock_example saved_doc app_example).

(** A record whose due date was taken from the clock. *)
Definition fallen_back : Reminder :=
  mkReminder 2 (PStr "Water plants") (PStr "Medium") (PStr "") (PBool false)
             (PStr "2025-03-04 05:06") (clock_example 1).

Definition required_only : list (string * pyval) :=
  [("task", PStr "Pay rent"); ("due_date_str", PStr "2025-02-01 10:00");
   ("priority", PStr "High")].

Definition empty_creation_date : list (string * pyval) :=
  required_only ++ [("creation_date", PStr "")].

(** * Further notions *)

(** ** Records the handlers make

    What every record made or edited through the entry widgets satisfies:
    it is valid, its creation date is not empty and its due date was parsed
    from a text. *)
Definition ui_record (r : Reminder) : Prop :=
  valid_reminder r = true /\
  truthy (creation_date r) = true /\
  exists s, strptime s = Some (due_date r).

(** A list of such records in canonical order. *)
Definition ui_state (a : App) : Prop :=
  Forall ui_record (reminders_list a) /\
  StronglySorted canonical_le (reminders_list a).


(** The priority of [r] is one of PRIORITY_LEVELS. *)
Definition known_priority (r : Reminder) : bool :=
  match priority r with
  | PStr s => existsb (String.eqb s) PRIORITY_LEVELS
  | _ => false
  end.

(** A record loaded with a priority the application does not know. *)
Definition rent : Reminder :=
  mkReminder 2 (PStr "Pay rent") (PStr "Urgent") (PStr "") (PBool false)
             (PStr "2025-01-15 12:00") (mkDatetime 2025 2 1 10 0 0 0).

Definition app_urgent : App :=
  mkApp [rent; milk] DEFAULT_FILENAME [] [] [] 0 3.

(** The two records of [app_example] with more files: a document with an
    element that is not an object, an empty object, a file that cannot be
    opened, and the default file. *)
Definition app_files : App :=
  mkApp [milk; dentist] "other.json" []
        [("mixed.json", Doc (PList [not_a_date_item; PStr "x"]));
         ("empty.json", Doc (PDict []));
         ("locked.json", Denied);
         (DEFAULT_FILENAME, Doc saved_doc)]
        [] 0 2.

(** A fresh application whose default file cannot be opened. *)
Definition app_locked : App :=
  mkApp [] DEFAULT_FILENAME [] [(DEFAULT_FILENAME, Denied)] [] 0 0.

(** ** The rows of the tree

    What [_refresh_reminders_tree] is to show, written as a function of the
    list: [rows_of clock n i l] are the rows for the records [l], the first
    under iid [i], when the clock is read for the [n]-th time at the first
    pending record. *)
Definition row_values (r : Reminder) : list pyval :=
  [PStr (if truthy (is_completed r) then "✅" else "⏳"); task r;
   PStr (strftime (due_date r)); priority r; creation_date r; details r].

Definition priority_tag (r : Reminder) : string :=
  match priority r with
  | PStr p => (lower p ++ "_priority")%string
  | _ => ""
  end.

Fixpoint rows_of (clock : nat -> datetime) (n i : nat) (l : list Reminder) : list row :=
  match l with
  | [] => []
  | r :: l' =>
      if truthy (is_completed r)
      then mkRow i (row_values r) ["completed"; priority_tag r]
           :: rows_of clock n (S i) l'
      else mkRow i (row_values r)
                 ((if datetime_ltb (due_date r) (clock n)
                   then ["pending"; "overdue"] else ["pending"])
                  ++ [priority_tag r])
           :: rows_of clock (S n) (S i) l'
  end.

(** The records not completed, for each of which the clock is read. *)
Definition pending (l : list Reminder) : list Reminder :=
  filter (fun r => negb (truthy (is_completed r))) l.

Definition text_priority (r : Reminder) : bool :=
  match priority r with PStr _ => true | _ => false end.

(** ** The place of a new record

    [x] put into [l] behind the leading records that are not greater. *)
Fixpoint placed (x : Reminder) (l : list Reminder) : list Reminder :=
  match l with
  | [] => [x]
  | y :: l' => if canonical_leb y x then y :: placed x l' else x :: y :: l'
  end.

(** ** The entries after Load for Edit

    What the four entry widgets return once [_load_selected_for_editing]
    has copied a record of text fields into them: the task, the due date as
    [strftime] prints it, the priority, and the details; a [Text] widget
    returns what it holds followed by a newline. *)
Definition newline : string := String (ascii_of_nat 10) "".

Definition loaded_entries (r : Reminder)
  : option (string * string * string * string) :=
  match task r, priority r, details r with
  | PStr t, PStr p, PStr d => Some (t, strftime (due_date r), p, (d ++ newline)%string)
  | _, _, _ => None
  end.

(** [l] begins with a white-space character, as [one], [two] and [three]
    tell them. *)
Definition space_ahead (one : ascii -> bool) (two : ascii -> ascii -> bool)
    (three : ascii -> ascii -> ascii -> bool) (l : list ascii) : bool :=
  match l with
  | a :: r1 =>
      one a ||
      match r1 with
      | b :: r2 =>
          two a b ||
          match r2 with
          | c :: _ => three a b c
          | [] => false
          end
      | [] => false
      end
  | [] => false
  end.

(** * The card game ([card_game.py]) *)

(** A card is the tuple [(rank, suit)]. *)
Definition card : Type := (string * string)%type.

Definition suits : list string := ["Hearts"; "Diamonds"; "Clubs"; "Spades"].

Definition ranks : list string :=
  ["2"; "3"; "4"; "5"; "6"; "7"; "8"; "9"; "10"; "Jack"; "Queen"; "King"; "Ace"].

(** [[(rank, suit) for suit in suits for rank in ranks]]. *)
Definition create_deck : list card :=
  flat_map (fun suit => map (fun rank => (rank, suit)) ranks) suits.

Definition rank_values : list (string * Z) :=
  [("2", 2); ("3", 3); ("4", 4); ("5", 5);
   ("6", 6); ("7", 7); ("8", 8); ("9", 9);
   ("10", 10); ("Jack", 11); ("Queen", 12);
   ("King", 13); ("Ace", 14)].

(** [rank_values[rank]]: a rank that is no key raises [KeyError]. *)
Definition card_value (c : card) : res Z :=
  let (rank, _) := c in
  match find (fun kv => String.eqb rank (fst kv)) rank_values with
  | Some kv => Ret (snd kv)
  | None => Raise (KeyError (PStr rank))
  end.

(** [deck.pop()]: the last card and the deck without it; [None] is the
    [IndexError] of an empty list. *)
Definition pop (deck : list card) : option (card * list card) :=
  match rev deck with
  | c :: r => Some (c, rev r)
  | [] => None
  end.

(** What ends a call of [play_high_card] other than its return. *)
Inductive raised : Type :=
| IndexError
| Exn (e : exn).

(** [card_value(c1) > card_value(c2)]. *)
Definition value_gt (c1 c2 : card) : res bool :=
  match card_value c1 with
  | Raise e => Raise e
  | Ret v1 =>
      match card_value c2 with
      | Raise e => Raise e
      | Ret v2 => Ret (v1 >? v2)
      end
  end.

Definition draws (player : string) (c : card) : string :=
  ("Player " ++ player ++ " draws: " ++ fst c ++ " of " ++ snd c)%string.

(** [play_high_card], as the lines it prints and the exception that ends it,
    if one does.  [shuffle] is what [random.shuffle] makes of the deck. *)
Definition play_high_card (shuffle : list card -> list card)
  : list string * option raised :=
  let deck := shuffle create_deck in
  match pop deck with
  | None => ([], Some IndexError)
  | Some (player1_card, deck) =>
      match pop deck with
      | None => ([], Some IndexError)
      | Some (player2_card, deck) =>
          let out := [draws "1" player1_card; draws "2" player2_card] in
          match value_gt player1_card player2_card with
          | Raise e => (out, Some (Exn e))
          | Ret true => (out ++ ["Player 1 wins!"], None)
          | Ret false =>
              match value_gt player2_card player1_card with
              | Raise e => (out, Some (Exn e))
              | Ret true => (out ++ ["Player 2 wins!"], None)
              | Ret false => (out ++ ["It's a tie!"], None)
              end
          end
      end
  end.

Definition card_eq_dec (x y : card) : {x = y} + {x <> y}.
Proof. decide equality; apply string_dec. Defined.

(** A shuffle that turns the deck over. *)
Definition shuffle_example (deck : list card) : list card := rev deck.

(** ** What a command may touch

    The commands that may write a file, those that may change the current
    file name, and those that may change the list or the tree. *)
Definition writes_files (h : handler) : bool :=
  match h with
  | Save _ => true
  | _ => false
  end.

Definition names_file (h : handler) : bool :=
  match h with
  | Startup | Open _ | Save _ | NewFile _ => true
  | _ => false
  end.

Definition changes_records (h : handler) : bool :=
  match h with
  | LoadForEdit _ | ClearFields | Now | Save _ | About => false
  | _ => true
  end.

(** * Sessions and further example data *)

(** The commands of [hs] one after the other, until one raises. *)
Fixpoint session (clock : nat -> datetime) (hs : list handler) : M unit :=
  match hs with
  | [] => ret tt
  | h :: hs' => handle clock h ;;; session clock hs'
  end.

(** The application as it starts, with no default file. *)
Definition app_empty : App := mkApp [] DEFAULT_FILENAME [] [] [] 0 0.

(** Two records with the same three keys are added, then the first one is
    toggled twice. *)
Definition add_A : handler := AddReminder "A" "2025-01-01 09:00" "High" "".
Definition add_B : handler := AddReminder "B" "2025-01-01 09:00" "High" "".

(** A document whose second element carries the number -1 as its
    [is_completed]. *)
Definition flag_doc : pyval :=
  PList [PDict [("task", PStr "open"); ("due_date_str", PStr "2025-01-01 09:00");
                ("priority", PStr "High")];
         PDict [("task", PStr "done early"); ("due_date_str", PStr "2025-01-01 09:00");
                ("priority", PStr "High"); ("is_completed", PInt (-1))]].

Definition app_flag : App :=
  mkApp [] DEFAULT_FILENAME [] [("flags.json", Doc flag_doc)] [] 0 0.

(** Text beyond ASCII: a task of two no-break spaces (U+00A0), and a due
    date whose year is written in fullwidth digits (U+FF10 and on). *)
Definition no_break_spaces : string := "  ".
Definition fullwidth_year : string := "２０２５-01-01 09:00".

(** A record due in the year 999, as Add makes it from the due-date entry
    ["0999-01-01 10:00"]. *)
Definition old_bill : Reminder :=
  mkReminder 0 (PStr "Old bill") (PStr "High") (PStr "") (PBool false)
             (PStr "2024-12-31 08:00") (mkDatetime 999 1 1 10 0 0 0).

(** * Properties *)

(** ** Formatting and parsing a date *)

Lemma code_digit_char (k : Z) : 0 <= k <= 9 -> code (digit_char k) = 48 + k.
Proof.
  intros Hk. unfold code, digit_char.
  rewrite N_ascii_embedding by lia. lia.
Qed.

Lemma is_digit_digit_char (k : Z) : 0 <= k <= 9 -> is_digit (digit_char k) = true.
Proof.
  intros Hk. unfold is_digit, in_range. rewrite (code_digit_char k Hk).
  change (code "0") with 48. change (code "9") with 57.
  apply andb_true_intro; split; apply Z.leb_le; lia.
Qed.

(** Case analysis on an integer of a small range. *)
Lemma Z_range_cases (P : Z -> Prop) (lo : Z) (n : nat) :
  (forall k, (k < n)%nat -> P (lo + Z.of_nat k)) ->
  forall z, lo <= z < lo + Z.of_nat n -> P z.
Proof.
  intros H z Hz. replace z with (lo + Z.of_nat (Z.to_nat (z - lo))) by lia.
  apply H. lia.
Qed.

Tactic Notation "by_cases" integer(n) :=
  let k := fresh "k" in
  let Hk := fresh "Hk" in
  intros k Hk;
  do n (destruct k as [|k]; [vm_compute; reflexivity|]);
  exfalso; lia.

Lemma four_digits_range (y : Z) :
  0 <= y <= 9999 ->
  0 <= y / 1000 <= 9 /\ 0 <= y / 100 mod 10 <= 9 /\
  0 <= y / 10 mod 10 <= 9 /\ 0 <= y mod 10 <= 9.
Proof.
  intros Hy.
  pose proof (Z.mod_pos_bound (y / 100) 10).
  pose proof (Z.mod_pos_bound (y / 10) 10).
  pose proof (Z.mod_pos_bound y 10).
  assert (0 <= y / 1000) by (apply Z.div_pos; lia).
  assert (y / 1000 < 10) by (apply Z.div_lt_upper_bound; lia).
  lia.
Qed.

Lemma digit_tok_digit_char (k : Z) (r : list ascii) :
  0 <= k <= 9 -> digit_tok (digit_char k :: r) = Some (k, [digit_char k], r).
Proof.
  intros Hk. unfold digit_tok.
  rewrite (is_digit_digit_char k Hk), (code_digit_char k Hk).
  do 3 f_equal. lia.
Qed.

Lemma digit_digit_char (k : Z) (r : list ascii) :
  0 <= k <= 9 -> digit (digit_char k :: r) = [([digit_char k], r)].
Proof. intros Hk. unfold digit. now rewrite (digit_tok_digit_char k r Hk). Qed.

Lemma re_Y_four_digits (y : Z) (r : list ascii) :
  0 <= y <= 9999 -> re_Y (four_digits y ++ r) = [(four_digits y, r)].
Proof.
  intros Hy. destruct (four_digits_range y Hy) as (H3 & H2 & H1 & H0).
  unfold re_Y, four_digits, cat. cbn [app].
  rewrite (digit_digit_char _ _ H3). cbn [app flat_map map fst snd].
  rewrite (digit_digit_char _ _ H2). cbn [app flat_map map fst snd].
  rewrite (digit_digit_char _ _ H1). cbn [app flat_map map fst snd].
  rewrite (digit_digit_char _ _ H0). cbn [app flat_map map fst snd].
  reflexivity.
Qed.

Lemma int_of_four_digits (y : Z) : 0 <= y <= 9999 -> int_of (four_digits y) = y.
Proof.
  intros Hy. destruct (four_digits_range y Hy) as (H3 & H2 & H1 & H0).
  unfold int_of, four_digits. cbn [List.length int_from].
  rewrite (digit_tok_digit_char _ _ H3), (digit_tok_digit_char _ _ H2),
          (digit_tok_digit_char _ _ H1), (digit_tok_digit_char _ _ H0).
  clear H3 H2 H1 H0. Z.to_euclidean_division_equations. lia.
Qed.

Lemma int_of_two_digits (n : Z) : 0 <= n < 60 -> int_of (two_digits n) = n.
Proof. revert n. apply (Z_range_cases _ 0 60). by_cases 60. Qed.

Lemma re_m_two_digits (r : list ascii) (m : Z) :
  1 <= m < 1 + 12 -> hd_error (re_m (two_digits m ++ r)) = Some (two_digits m, r).
Proof. revert m. apply (Z_range_cases _ 1 12). by_cases 12. Qed.

Lemma re_d_two_digits (r : list ascii) (d : Z) :
  1 <= d < 1 + 31 -> hd_error (re_d (two_digits d ++ r)) = Some (two_digits d, r).
Proof. revert d. apply (Z_range_cases _ 1 31). by_cases 31. Qed.

Lemma blank_then_hour (r : list ascii) (h : Z) :
  0 <= h < 0 + 24 ->
  hd_error (plus_space (" "%char :: two_digits h ++ r))
  = Some ([" "%char], two_digits h ++ r).
Proof. revert h. apply (Z_range_cases _ 0 24). by_cases 24. Qed.

Lemma re_H_two_digits (r : list ascii) (h : Z) :
  0 <= h < 0 + 24 -> hd_error (re_H (two_digits h ++ r)) = Some (two_digits h, r).
Proof. revert h. apply (Z_range_cases _ 0 24). by_cases 24. Qed.

Lemma re_M_two_digits (mi : Z) :
  0 <= mi < 0 + 60 -> hd_error (re_M (two_digits mi)) = Some (two_digits mi, []).
Proof. revert mi. apply (Z_range_cases _ 0 60). by_cases 60. Qed.

Lemma hd_flat_map {A B} (f : A -> list B) (l : list A) (x : A) (y : B) :
  hd_error l = Some x -> hd_error (f x) = Some y ->
  hd_error (flat_map f l) = Some y.
Proof.
  destruct l as [|x' l]; cbn; [discriminate|].
  intros [= ->]. destruct (f x); cbn; [discriminate | auto].
Qed.

Lemma hd_map {A B} (f : A -> B) (l : list A) (x : A) :
  hd_error l = Some x -> hd_error (map f l) = Some (f x).
Proof. destruct l; cbn; [discriminate|]. now intros [= ->]. Qed.

Lemma lit_hd (c : ascii) (r : list ascii) : hd_error (lit c (c :: r)) = Some ([c], r).
Proof. unfold lit, cls. now rewrite Ascii.eqb_refl. Qed.

Lemma days_in_month_le (y m : Z) : days_in_month y m <= 31.
Proof.
  unfold days_in_month.
  destruct (m =? 2); [destruct (is_leap y); lia|].
  destruct ((m =? 4) || (m =? 6) || (m =? 9) || (m =? 11)); lia.
Qed.

Lemma valid_datetime_fields (d : datetime) :
  valid_datetime d = true ->
  1 <= year d <= 9999 /\ 1 <= month d <= 12 /\
  1 <= day d <= days_in_month (year d) (month d) /\
  0 <= hour d <= 23 /\ 0 <= minute d <= 59 /\
  0 <= second d <= 59 /\ 0 <= microsecond d <= 999999.
Proof.
  unfold valid_datetime. rewrite !andb_true_iff, !Z.leb_le. tauto.
Qed.

Lemma valid_to_minute (d : datetime) :
  valid_datetime d = true -> valid_datetime (to_minute d) = true.
Proof.
  intros H. apply valid_datetime_fields in H.
  unfold valid_datetime, to_minute. cbn [year month day hour minute second microsecond].
  rewrite !andb_true_iff, !Z.leb_le. lia.
Qed.

Lemma year_digits_four (y : Z) : 1000 <= y -> year_digits y = four_digits y.
Proof.
  intros Hy. unfold year_digits.
  destruct (Z.ltb_spec y 10); [lia|]. destruct (Z.ltb_spec y 100); [lia|].
  destruct (Z.ltb_spec y 1000); [lia|]. reflexivity.
Qed.

Lemma format_regex_strftime (d : datetime) :
  valid_datetime d = true -> 1000 <= year d ->
  hd_error (format_regex (list_ascii_of_string (strftime d)))
  = Some (mkGroups (four_digits (year d)) (two_digits (month d))
                   (two_digits (day d)) (two_digits (hour d))
                   (two_digits (minute d)), []).
Proof.
  intros H Hyear. apply valid_datetime_fields in H.
  destruct H as (Hy & Hm & Hd & Hh & Hmi & _).
  pose proof (days_in_month_le (year d) (month d)) as Hdim.
  unfold strftime, format_regex. rewrite list_ascii_of_string_of_list_ascii.
  rewrite (year_digits_four _ Hyear).
  rewrite re_Y_four_digits by lia. cbn [flat_map fst snd app].
  rewrite app_nil_r.
  eapply hd_flat_map; [apply lit_hd|]. cbn [fst snd].
  eapply hd_flat_map; [apply re_m_two_digits; lia|]. cbn [fst snd].
  eapply hd_flat_map; [apply lit_hd|]. cbn [fst snd].
  eapply hd_flat_map; [apply re_d_two_digits; lia|]. cbn [fst snd].
  eapply hd_flat_map; [apply blank_then_hour; lia|]. cbn [fst snd].
  eapply hd_flat_map; [apply re_H_two_digits; lia|]. cbn [fst snd].
  eapply hd_flat_map; [apply lit_hd|]. cbn [fst snd].
  erewrite hd_map; [|apply re_M_two_digits; lia]. reflexivity.
Qed.

Lemma strptime_strftime (d : datetime) :
  valid_datetime d = true -> 1000 <= year d ->
  strptime (strftime d) = Some (to_minute d).
Proof.
  intros H Hyear. pose proof (format_regex_strftime d H Hyear) as Hre.
  pose proof (valid_to_minute d H) as Hv.
  apply valid_datetime_fields in H.
  destruct H as (Hy & Hm & Hd & Hh & Hmi & _).
  pose proof (days_in_month_le (year d) (month d)) as Hdim.
  unfold strptime.
  destruct (format_regex (list_ascii_of_string (strftime d))) as [|[g rest] tl];
    [discriminate|].
  cbn in Hre. injection Hre as -> ->.
  cbn [g_Y g_m g_d g_H g_M].
  rewrite int_of_four_digits, !int_of_two_digits by lia.
  fold (to_minute d). now rewrite Hv.
Qed.

(** ** The canonical order is a total preorder *)

Lemma lex_irrefl (a : list Z) : lex_ltb a a = false.
Proof. induction a as [|x a IH]; cbn; [easy|]. now rewrite Z.eqb_refl. Qed.

Lemma lex_trans (a b c : list Z) :
  List.length a = List.length b -> List.length b = List.length c ->
  lex_ltb a b = true -> lex_ltb b c = true -> lex_ltb a c = true.
Proof.
  revert b c. induction a as [|x a IH]; intros [|y b] [|z c]; cbn; try easy.
  intros [= Hab] [= Hbc].
  destruct (Z.eqb_spec x y), (Z.eqb_spec y z), (Z.eqb_spec x z); cbn;
    rewrite ?Z.ltb_lt; try lia; eauto.
Qed.

Lemma lex_total (a b : list Z) :
  List.length a = List.length b ->
  lex_ltb a b = false -> lex_ltb b a = false -> a = b.
Proof.
  revert b. induction a as [|x a IH]; intros [|y b]; cbn; try easy.
  intros [= Hab].
  destruct (Z.eqb_spec x y), (Z.eqb_spec y x); cbn; rewrite ?Z.ltb_ge; try lia.
  intros; f_equal; auto.
Qed.

Lemma lex_asym (a b : list Z) :
  List.length a = List.length b -> lex_ltb a b = true -> lex_ltb b a = false.
Proof.
  intros Hl Hab. destruct (lex_ltb b a) eqn:Hba; [|reflexivity].
  assert (lex_ltb a a = true) by (apply (lex_trans a b a); auto).
  now rewrite lex_irrefl in *.
Qed.

Lemma lex_neg_trans (a b c : list Z) :
  List.length a = List.length b -> List.length b = List.length c ->
  lex_ltb b a = false -> lex_ltb c b = false -> lex_ltb c a = false.
Proof.
  intros Hab Hbc H1 H2. destruct (lex_ltb c a) eqn:Hca; [|reflexivity].
  destruct (lex_ltb a b) eqn:Hlt.
  - assert (lex_ltb c b = true) by (apply (lex_trans c a b); auto; congruence).
    congruence.
  - assert (a = b) by (apply lex_total; auto). subst. congruence.
Qed.

Lemma datetime_ltb_lex (a b : datetime) :
  datetime_ltb a b = lex_ltb (fields a) (fields b).
Proof.
  unfold datetime_ltb, fields, lex_ltb.
  destruct (microsecond a =? microsecond b) eqn:E; cbn [negb]; [|reflexivity].
  apply Z.eqb_eq in E. rewrite E, Z.ltb_irrefl. reflexivity.
Qed.

Lemma datetime_eqb_fields (a b : datetime) :
  datetime_eqb a b = true <-> fields a = fields b.
Proof.
  unfold datetime_eqb, fields. rewrite !andb_true_iff, !Z.eqb_eq. split.
  - intros [[[[[[-> ->] ->] ->] ->] ->] ->]. reflexivity.
  - intros [= -> -> -> -> -> -> ->]. tauto.
Qed.

Lemma datetime_eqb_eq (a b : datetime) : datetime_eqb a b = true <-> a = b.
Proof.
  rewrite datetime_eqb_fields. split; [|now intros ->].
  destruct a, b; cbn. now intros [= -> -> -> -> -> -> ->].
Qed.

Lemma zkey_length (r : Reminder) : List.length (zkey r) = 9%nat.
Proof. reflexivity. Qed.

Lemma lex_ltb_app (a b c d : list Z) :
  List.length a = List.length b ->
  lex_ltb (a ++ c) (b ++ d) = if lex_ltb a b then true
                              else if lex_ltb b a then false
                              else lex_ltb c d.
Proof.
  revert b. induction a as [|x a IH]; intros [|y b]; cbn; try easy.
  intros [= Hl].
  destruct (Z.eqb_spec x y), (Z.eqb_spec y x); cbn; try lia; auto.
  destruct (Z.ltb_spec x y), (Z.ltb_spec y x); try lia; reflexivity.
Qed.

Lemma datetime_ltb_irrefl (a : datetime) : datetime_ltb a a = false.
Proof. rewrite datetime_ltb_lex. apply lex_irrefl. Qed.

Lemma datetime_eqb_refl (a : datetime) : datetime_eqb a a = true.
Proof. now apply datetime_eqb_eq. Qed.

Lemma datetime_cases (a b : datetime) :
  a = b \/
  (datetime_eqb a b = false /\ datetime_ltb a b = true /\ datetime_ltb b a = false) \/
  (datetime_eqb a b = false /\ datetime_ltb a b = false /\ datetime_ltb b a = true).
Proof.
  destruct (datetime_eqb a b) eqn:E; [left; now apply datetime_eqb_eq|right].
  rewrite !datetime_ltb_lex.
  destruct (lex_ltb (fields a) (fields b)) eqn:Hab.
  - left. repeat split. now apply lex_asym.
  - right. repeat split.
    destruct (lex_ltb (fields b) (fields a)) eqn:Hba; [reflexivity|].
    apply (lex_total (fields a) (fields b) eq_refl Hab) in Hba.
    apply datetime_eqb_fields in Hba. congruence.
Qed.

Lemma lex_cons_same (x : Z) (a b : list Z) : lex_ltb (x :: a) (x :: b) = lex_ltb a b.
Proof. cbn. now rewrite Z.eqb_refl. Qed.

Lemma canonical_leb_lex (r1 r2 : Reminder) :
  canonical_leb r1 r2 = negb (lex_ltb (zkey r2) (zkey r1)).
Proof.
  unfold canonical_leb, zkey.
  destruct (completed r1), (completed r2); cbn [Bool.eqb negb];
    try reflexivity.
  all: rewrite lex_cons_same, lex_ltb_app by reflexivity;
    rewrite <- !datetime_ltb_lex;
    destruct (datetime_cases (due_date r1) (due_date r2))
      as [E | [(E & E12 & E21) | (E & E12 & E21)]].
  all: try (rewrite E, datetime_eqb_refl, datetime_ltb_irrefl; cbn;
            destruct (Z.eqb_spec (rank r2) (rank r1)),
                     (Z.leb_spec (rank r1) (rank r2)),
                     (Z.ltb_spec (rank r2) (rank r1)); cbn; try lia; reflexivity).
  all: rewrite E, E12, E21; reflexivity.
Qed.

Lemma same_keys_zkey (r1 r2 : Reminder) :
  same_keys r1 r2 = true <-> zkey r1 = zkey r2.
Proof.
  unfold same_keys, zkey. rewrite !andb_true_iff, datetime_eqb_eq, Z.eqb_eq. split.
  - intros [[Hc ->] ->]. apply Bool.eqb_prop in Hc. now rewrite Hc.
  - intros H. injection H as Hc Hy Hm Hd Hh Hmi Hs Hus Hr.
    repeat split; trivial.
    + destruct (completed r1), (completed r2); try reflexivity; discriminate.
    + destruct (due_date r1), (due_date r2); cbn in *. congruence.
Qed.

(** The order is total and transitive. *)
Lemma canonical_leb_total (x y : Reminder) :
  canonical_leb x y = false -> canonical_leb y x = true.
Proof.
  rewrite !canonical_leb_lex, negb_false_iff, negb_true_iff.
  apply lex_asym. reflexivity.
Qed.

Lemma canonical_leb_trans (x y z : Reminder) :
  canonical_leb x y = true -> canonical_leb y z = true -> canonical_leb x z = true.
Proof.
  rewrite !canonical_leb_lex, !negb_true_iff. intros Hxy Hyz.
  apply (lex_neg_trans _ (zkey y)); auto.
Qed.

Lemma same_keys_not_below (r x y : Reminder) :
  same_keys r x = true -> canonical_leb x y = false -> same_keys r y = false.
Proof.
  rewrite canonical_leb_lex, negb_false_iff. intros Hrx Hlt.
  destruct (same_keys r y) eqn:Hry; [|reflexivity].
  apply same_keys_zkey in Hrx, Hry.
  rewrite <- Hrx, Hry, lex_irrefl in Hlt. discriminate.
Qed.

(** ** [_sort_reminders] on valid records *)

Lemma all_valid_forallb (l : list Reminder) :
  forallb valid_reminder l = true <-> all_valid l.
Proof. unfold all_valid. now rewrite forallb_forall, Forall_forall. Qed.

Lemma valid_priority (r : Reminder) :
  valid_reminder r = true ->
  priority r = PStr "High" \/ priority r = PStr "Medium" \/ priority r = PStr "Low".
Proof.
  unfold valid_reminder. rewrite andb_true_iff. intros [_ H].
  destruct (priority r); try discriminate.
  cbn in H. rewrite !orb_true_iff, !String.eqb_eq in H.
  intuition (subst; auto; discriminate).
Qed.

Lemma valid_completed (r : Reminder) :
  valid_reminder r = true -> is_completed r = PBool (completed r).
Proof.
  unfold valid_reminder, completed. rewrite andb_true_iff. intros [H _].
  destruct (is_completed r); try discriminate. reflexivity.
Qed.

Lemma key_of_valid (r : Reminder) :
  valid_reminder r = true -> key_of r = Ret (pykey r).
Proof.
  intros H. unfold key_of, pykey, rank.
  destruct (valid_priority r H) as [-> | [-> | ->]]; reflexivity.
Qed.

Lemma key_lt_valid (x y : Reminder) :
  valid_reminder x = true -> valid_reminder y = true ->
  key_lt (pykey y) (pykey x) = Some (negb (canonical_leb x y)).
Proof.
  intros Hx Hy. unfold key_lt, pykey, canonical_leb.
  rewrite (valid_completed x Hx), (valid_completed y Hy).
  destruct (completed x), (completed y); cbn; try reflexivity.
  all: destruct (datetime_cases (due_date x) (due_date y))
         as [E | [(E & E12 & E21) | (E & E12 & E21)]].
  all: try (rewrite E, datetime_eqb_refl; cbn; f_equal;
            destruct (Z.leb_spec (rank x) (rank y)), (Z.ltb_spec (rank y) (rank x));
            try lia; reflexivity).
  all: assert (E' : datetime_eqb (due_date y) (due_date x) = false)
         by (destruct (datetime_eqb (due_date y) (due_date x)) eqn:F; [|reflexivity];
             apply datetime_eqb_eq in F; rewrite F, datetime_eqb_refl in E; discriminate).
  all: rewrite E, E', E12, E21; reflexivity.
Qed.

Lemma insert_sorted_valid (x : Reminder) (l : list Reminder) :
  valid_reminder x = true -> all_valid l -> StronglySorted canonical_le l ->
  exists l1 l2,
    l = l1 ++ l2 /\
    insert_sorted (pykey x, x) (keyed l) = Some (keyed (l1 ++ x :: l2)) /\
    Forall (fun y => canonical_leb x y = false) l1 /\
    StronglySorted canonical_le (l1 ++ x :: l2).
Proof.
  intros Hx Hl Hs. induction l as [|y l IH].
  - exists [], []. repeat split; constructor; constructor.
  - inversion Hl as [|? ? Hy Hl']; subst. inversion Hs as [|? ? Hs' Hall]; subst.
    cbn [keyed map insert_sorted fst]. rewrite (key_lt_valid x y Hx Hy).
    destruct (canonical_leb x y) eqn:Hxy; cbn [negb].
    + exists [], (y :: l). repeat split; [constructor|].
      cbn. constructor; [now constructor|].
      constructor; [exact Hxy|].
      eapply Forall_impl; [|exact Hall].
      intros z Hz. now apply (canonical_leb_trans x y z).
    + destruct (IH Hl' Hs') as (l1 & l2 & -> & Hins & Hlt & Hsorted).
      exists (y :: l1), l2. repeat split.
      * fold (keyed (l1 ++ l2)). rewrite Hins. reflexivity.
      * now constructor.
      * cbn. constructor; [exact Hsorted|].
        apply Forall_app in Hall as [H1 H2].
        apply Forall_app; split; [exact H1|].
        constructor; [|exact H2]. now apply canonical_leb_total.
Qed.

Lemma filter_none {A} (f : A -> bool) (l : list A) :
  Forall (fun y => f y = false) l -> filter f l = [].
Proof. induction 1 as [|y l Hy _ IH]; cbn; [easy|]. now rewrite Hy. Qed.

Lemma sort_by_key_valid (l : list Reminder) :
  all_valid l ->
  exists l', sort_by_key (keyed l) = Some (keyed l') /\
             canonical_sort_of l l' /\ all_valid l'.
Proof.
  induction l as [|x l IH]; intros Hl.
  - exists []. repeat split; constructor.
  - inversion Hl as [|? ? Hx Hl']; subst.
    destruct (IH Hl') as (s & Hsort & (Hperm & Hsorted & Hstable) & Hvalid).
    destruct (insert_sorted_valid x s Hx Hvalid Hsorted)
      as (l1 & l2 & -> & Hins & Hlt & Hsorted').
    exists (l1 ++ x :: l2). cbn [keyed map sort_by_key].
    fold (keyed l). rewrite Hsort, Hins. repeat split.
    + apply Permutation_cons_app. exact Hperm.
    + exact Hsorted'.
    + intros r. cbn [filter]. rewrite <- Hstable, !filter_app. cbn [filter].
      destruct (same_keys r x) eqn:Hrx; [|reflexivity].
      rewrite (filter_none (same_keys r) l1); [reflexivity|].
      eapply Forall_impl; [|exact Hlt].
      intros y Hy. now apply (same_keys_not_below r x y).
    + apply Forall_app in Hvalid as [H1 H2].
      apply Forall_app; split; [exact H1|]. now constructor.
Qed.

Lemma comprehension_key_of (l : list Reminder) (a : App) :
  all_valid l ->
  comprehension (fun r => lift (key_of r)) l a = (Ret (map pykey l), a).
Proof.
  induction 1 as [|x l Hx _ IH]; [reflexivity|].
  cbn [comprehension]. unfold bind at 1. unfold lift at 1.
  rewrite (key_of_valid x Hx). unfold bind at 1. rewrite IH. reflexivity.
Qed.

Lemma combine_keyed (l : list Reminder) : combine (map pykey l) l = keyed l.
Proof. induction l as [|x l IH]; cbn; [easy|]. now rewrite IH. Qed.

Lemma map_snd_keyed (l : list Reminder) : map snd (keyed l) = l.
Proof. unfold keyed. rewrite map_map. cbn. apply map_id. Qed.

Lemma sort_reminders_valid (a : App) :
  all_valid (reminders_list a) ->
  exists l', _sort_reminders a = (Ret tt, with_list l' a) /\
             canonical_sort_of (reminders_list a) l' /\ all_valid l'.
Proof.
  intros Hl. destruct (sort_by_key_valid _ Hl) as (l' & Hsort & Hcan & Hv).
  exists l'. split; [|split; assumption].
  unfold _sort_reminders, bind, gets.
  rewrite (comprehension_key_of _ a Hl), combine_keyed, Hsort.
  unfold modify. now rewrite map_snd_keyed.
Qed.

(** ** What a computation leaves alone *)

Section Keeps.
Context {X : Type} (f : App -> X).

Lemma keeps_ret {A} (x : A) : keeps f (ret x).
Proof. intros a. reflexivity. Qed.

Lemma keeps_raise {A} (e : exn) : keeps f (@raise A e).
Proof. intros a. reflexivity. Qed.

Lemma keeps_lift {A} (r : res A) : keeps f (lift r).
Proof. intros a. reflexivity. Qed.

Lemma keeps_gets {A} (g : App -> A) : keeps f (gets g).
Proof. intros a. reflexivity. Qed.

Lemma keeps_modify (g : App -> App) :
  (forall a, f (g a) = f a) -> keeps f (modify g).
Proof. intros H a. apply H. Qed.

Lemma keeps_bind {A B} (m : M A) (k : A -> M B) :
  keeps f m -> (forall x, keeps f (k x)) -> keeps f (bind m k).
Proof.
  intros Hm Hk a. unfold bind. specialize (Hm a).
  destruct (m a) as [[x|e] a1]; cbn in *; [|exact Hm].
  rewrite <- Hm. apply Hk.
Qed.

Lemma keeps_try {A} (m : M A) (h : exn -> M A) :
  keeps f m -> (forall e, keeps f (h e)) -> keeps f (try m h).
Proof.
  intros Hm Hh a. unfold try. specialize (Hm a).
  destruct (m a) as [[x|e] a1]; cbn in *; [exact Hm|].
  rewrite <- Hm. apply Hh.
Qed.

Lemma keeps_for_each {A} (g : A -> M unit) (l : list A) :
  (forall x, keeps f (g x)) -> keeps f (for_each g l).
Proof.
  intros Hg. induction l as [|x l IH]; cbn [for_each].
  - apply keeps_ret.
  - apply keeps_bind; auto.
Qed.

Lemma keeps_comprehension {A B} (g : A -> M B) (l : list A) :
  (forall x, keeps f (g x)) -> keeps f (comprehension g l).
Proof.
  intros Hg. induction l as [|x l IH]; cbn [comprehension].
  - apply keeps_ret.
  - apply keeps_bind; [auto|]. intros y.
    apply keeps_bind; [auto|]. intros ys. apply keeps_ret.
Qed.
End Keeps.

Ltac keeps_step :=
  match goal with
  | |- keeps _ (bind _ _) => apply keeps_bind; [|intros ?]
  | |- keeps _ (try _ _) => apply keeps_try; [|intros ?]
  | |- keeps _ (ret _) => apply keeps_ret
  | |- keeps _ (raise _) => apply keeps_raise
  | |- keeps _ (lift _) => apply keeps_lift
  | |- keeps _ (gets _) => apply keeps_gets
  | |- keeps _ (modify _) => apply keeps_modify; intros ?; reflexivity
  | |- keeps _ (messagebox _) => apply keeps_modify; intros ?; reflexivity
  | |- keeps _ (datetime_now _) => intros ?; reflexivity
  | |- keeps _ (for_each _ _) => apply keeps_for_each; intros ?
  | |- keeps _ (comprehension _ _) => apply keeps_comprehension; intros ?
  | |- keeps _ (if ?b then _ else _) => destruct b
  | |- keeps _ (match ?x with _ => _ end) => destruct x
  end.

Ltac keeps_all := repeat keeps_step.

Lemma refresh_keeps_list (clock : nat -> datetime) :
  keeps reminders_list (_refresh_reminders_tree clock).
Proof. unfold _refresh_reminders_tree. keeps_all. Qed.

Lemma refresh_keeps_dialogs (clock : nat -> datetime) :
  keeps dialogs (_refresh_reminders_tree clock).
Proof. unfold _refresh_reminders_tree. keeps_all. Qed.

Lemma for_each_returns {A} (g : A -> M unit) (l : list A) :
  (forall x a, In x l -> fst (g x a) = Ret tt) ->
  forall a, fst (for_each g l a) = Ret tt.
Proof.
  induction l as [|x l IH]; intros Hg a; [reflexivity|].
  cbn [for_each]. unfold bind.
  pose proof (Hg x a (or_introl eq_refl)) as Hx.
  destruct (g x a) as [[[]|e] a1]; cbn in Hx; [|discriminate].
  apply IH. intros y b Hy. apply Hg. now right.
Qed.

Lemma in_enumerate {A} (l : list A) (i : nat) (x : A) :
  In (i, x) (enumerate l) -> In x l.
Proof. unfold enumerate. apply in_combine_r. Qed.

Lemma refresh_returns (clock : nat -> datetime) (a : App) :
  all_valid (reminders_list a) ->
  fst (_refresh_reminders_tree clock a) = Ret tt.
Proof.
  intros Hl. unfold _refresh_reminders_tree.
  unfold bind at 1. cbn [modify].
  unfold bind at 1. cbn [gets reminders_list with_tree].
  apply for_each_returns. intros [i r] b Hin. apply in_enumerate in Hin.
  unfold all_valid in Hl. rewrite Forall_forall in Hl.
  destruct (valid_priority r (Hl r Hin)) as [Hp | [Hp | Hp]];
    cbn [fst snd]; rewrite Hp;
    unfold bind, modify, ret, datetime_now;
    destruct (truthy (is_completed r)); reflexivity.
Qed.

(** After a successful sort the display is refreshed without changing
    the list. *)
Lemma sort_and_refresh (clock : nat -> datetime) (a : App) :
  all_valid (reminders_list a) ->
  exists a',
    (_sort_reminders ;;; _refresh_reminders_tree clock) a = (Ret tt, a') /\
    canonical_sort_of (reminders_list a) (reminders_list a') /\
    all_valid (reminders_list a') /\
    dialogs a' = dialogs a.
Proof.
  intros Hl. destruct (sort_reminders_valid a Hl) as (l' & Hsort & Hcan & Hv).
  unfold bind. rewrite Hsort.
  pose proof (refresh_keeps_list clock (with_list l' a)) as Hk.
  pose proof (refresh_keeps_dialogs clock (with_list l' a)) as Hd.
  pose proof (refresh_returns clock (with_list l' a) Hv) as Hr.
  destruct (_refresh_reminders_tree clock (with_list l' a)) as [r a'].
  cbn in Hk, Hd, Hr. subst r. exists a'. rewrite Hk, Hd. auto.
Qed.

Lemma bind_assoc {A B C} (m : M A) (k : A -> M B) (h : B -> M C) (a : App) :
  bind (bind m k) h a = bind m (fun x => bind (k x) h) a.
Proof. unfold bind. destruct (m a) as [[x|e] a1]; reflexivity. Qed.

(** The same, followed by [_clear_input_fields]. *)
Lemma sort_refresh_clear (clock : nat -> datetime) (a : App) :
  all_valid (reminders_list a) ->
  exists a',
    ((_sort_reminders ;;; _refresh_reminders_tree clock) ;;;
     _clear_input_fields clock) a = (Ret tt, a') /\
    canonical_sort_of (reminders_list a) (reminders_list a') /\
    all_valid (reminders_list a') /\
    dialogs a' = dialogs a.
Proof.
  intros Hl. destruct (sort_and_refresh clock a Hl) as (a1 & Hrun & Hcan & Hv & Hd).
  exists (with_now_calls (S (now_calls a1)) a1).
  split; [|split; [|split]]; try assumption.
  unfold bind at 1. rewrite Hrun. reflexivity.
Qed.

(** ** The handlers, step by step *)

Lemma strptime_empty : strptime "" = None.
Proof. reflexivity. Qed.

Lemma strptime_valid (s : string) (d : datetime) :
  strptime s = Some d -> valid_datetime d = true /\ to_minute d = d.
Proof.
  unfold strptime.
  destruct (format_regex (list_ascii_of_string s)) as [|[g rest] tl]; [discriminate|].
  destruct rest; [|discriminate].
  match goal with |- context [valid_datetime ?x] => destruct (valid_datetime x) eqn:Hv end;
    [|discriminate].
  intros [= <-]. split; [exact Hv | reflexivity].
Qed.

Lemma update_at_compose {A} (i : nat) (f g : A -> A) (l : list A) :
  update_at i g (update_at i f l) = update_at i (fun x => g (f x)) l.
Proof.
  revert i. induction l as [|x l IH]; intros [|i]; cbn; try reflexivity.
  now rewrite IH.
Qed.

Lemma update_at_Forall {A} (P : A -> Prop) (i : nat) (f : A -> A) (l : list A) :
  (forall x, P x -> P (f x)) -> Forall P l -> Forall P (update_at i f l).
Proof.
  intros Hf Hl. revert i. induction Hl as [|x l Hx Hl IH]; intros [|i]; cbn;
    constructor; auto.
Qed.

Lemma remove_at_Forall {A} (P : A -> Prop) (i : nat) (l : list A) :
  Forall P l -> Forall P (remove_at i l).
Proof.
  intros Hl. revert i. induction Hl as [|x l Hx Hl IH]; intros [|i]; cbn;
    try constructor; auto.
Qed.

Lemma not_empty_eqb (s : string) : s <> "" -> String.eqb s "" = false.
Proof. intros H. now apply String.eqb_neq. Qed.

Lemma parsed_not_empty (s : string) (d : datetime) :
  strptime s = Some d -> String.eqb s "" = false.
Proof.
  intros H. apply String.eqb_neq. intros ->. rewrite strptime_empty in H. discriminate.
Qed.

Lemma add_steps (clock : nat -> datetime) (a : App)
    (task_entry due_date_entry priority_var details_text : string) (due : datetime) :
  strip task_entry <> "" ->
  strptime (strip due_date_entry) = Some due ->
  _add_reminder_from_ui clock task_entry due_date_entry priority_var details_text a
  = ((_sort_reminders ;;; _refresh_reminders_tree clock) ;;; _clear_input_fields clock)
      (with_list (reminders_list a ++
                  [new_reminder clock a (strip task_entry) priority_var
                                (strip details_text) due])
         (with_now_calls (S (now_calls a)) (with_objects (S (objects a)) a))).
Proof.
  intros Ht Hd. unfold _add_reminder_from_ui.
  rewrite (not_empty_eqb _ Ht), (parsed_not_empty _ _ Hd), Hd.
  unfold Reminder_init. rewrite Hd. reflexivity.
Qed.

Lemma selected_index (i : nat) (sel : list nat) (a : App) :
  (i < List.length (reminders_list a))%nat ->
  _get_selected_reminder_object (i :: sel) a = (Ret (Some i), a).
Proof.
  intros Hi. unfold _get_selected_reminder_object, bind, gets.
  apply Nat.ltb_lt in Hi. now rewrite Hi.
Qed.

Lemma update_steps (clock : nat -> datetime) (a : App) (i : nat) (sel : list nat)
    (task_entry due_date_entry priority_var details_text : string) (due : datetime) :
  (i < List.length (reminders_list a))%nat ->
  strip task_entry <> "" ->
  strptime (strip due_date_entry) = Some due ->
  _update_selected_reminder clock (i :: sel) task_entry due_date_entry priority_var
                            details_text a
  = ((_sort_reminders ;;; _refresh_reminders_tree clock) ;;; _clear_input_fields clock)
      (with_list (update_at i (edit (strip task_entry) priority_var
                                    (strip details_text) due)
                            (reminders_list a)) a).
Proof.
  intros Hi Ht Hd. unfold _update_selected_reminder. unfold bind at 1.
  rewrite (selected_index i sel a Hi).
  rewrite (not_empty_eqb _ Ht), (parsed_not_empty _ _ Hd), Hd.
  unfold bind at 1. cbn [modify]. unfold bind at 1. cbn [modify].
  unfold bind at 1. cbn [modify]. unfold bind at 1. cbn [modify].
  cbn [reminders_list with_list]. rewrite !update_at_compose.
  symmetry. apply bind_assoc.
Qed.

Lemma delete_steps (clock : nat -> datetime) (a : App) (i : nat) (sel : list nat) :
  (i < List.length (reminders_list a))%nat ->
  _delete_selected_reminder clock (i :: sel) true a
  = ((_sort_reminders ;;; _refresh_reminders_tree clock) ;;; _clear_input_fields clock)
      (with_list (remove_at i (reminders_list a)) a).
Proof.
  intros Hi. unfold _delete_selected_reminder. unfold bind at 1.
  rewrite (selected_index i sel a Hi). unfold bind at 1. cbn [modify].
  symmetry. apply bind_assoc.
Qed.

Lemma toggle_steps (clock : nat -> datetime) (a : App) (i : nat) (sel : list nat) :
  (i < List.length (reminders_list a))%nat ->
  _toggle_complete_selected clock (i :: sel) a
  = (_sort_reminders ;;; _refresh_reminders_tree clock)
      (with_list (update_at i toggle (reminders_list a)) a).
Proof.
  intros Hi. unfold _toggle_complete_selected. unfold bind at 1.
  rewrite (selected_index i sel a Hi). reflexivity.
Qed.

Lemma valid_new_reminder (clock : nat -> datetime) (a : App)
    (task priority details : string) (due : datetime) :
  In priority PRIORITY_LEVELS ->
  valid_reminder (new_reminder clock a task priority details due) = true.
Proof.
  intros Hp. unfold valid_reminder, new_reminder. cbn.
  destruct Hp as [<- | [<- | [<- | []]]]; reflexivity.
Qed.

Lemma valid_edit (task priority details : string) (due : datetime) (r : Reminder) :
  In priority PRIORITY_LEVELS ->
  valid_reminder r = true -> valid_reminder (edit task priority details due r) = true.
Proof.
  intros Hp. unfold valid_reminder, edit. cbn. rewrite !andb_true_iff.
  intros [Hc _]. split; [exact Hc|].
  destruct Hp as [<- | [<- | [<- | []]]]; reflexivity.
Qed.

Lemma valid_toggle (r : Reminder) :
  valid_reminder r = true -> valid_reminder (toggle r) = true.
Proof. unfold valid_reminder, toggle. cbn. now rewrite !andb_true_iff. Qed.

Lemma load_steps (clock : nat -> datetime) (a a1 : App) (filename : string)
    (doc : pyval) (decoded : list Reminder) :
  find_file filename (disk a) = Doc doc ->
  decode clock doc a = (Ret decoded, a1) ->
  all_valid decoded ->
  exists a2,
    _load_reminders_core clock filename a = (Ret tt, with_filename filename a2) /\
    canonical_sort_of decoded (reminders_list a2) /\
    all_valid (reminders_list a2).
Proof.
  intros Hf Hdec Hv.
  destruct (sort_and_refresh clock (with_list decoded a1) Hv)
    as (a2 & Hrun & Hcan & Hv2 & _).
  exists a2. split; [|split; assumption].
  unfold _load_reminders_core, try. unfold bind at 1.
  unfold json_load at 1. unfold bind at 1. cbn [gets]. rewrite Hf. cbn [ret].
  unfold bind at 1. rewrite Hdec.
  unfold bind at 1. cbn [modify].
  unfold bind in Hrun. unfold bind.
  destruct (_sort_reminders (with_list decoded a1)) as [[[]|e] a3]; [|discriminate].
  rewrite Hrun. reflexivity.
Qed.

(** ** The canonical order after every mutation *)

(** C1, as amended.  Whatever valid collection the application holds, each
    mutation leaves it in canonical order: creating a record, updating,
    deleting or toggling the selected record, and loading a document of
    valid records all return normally with the list being the canonical
    sort of what the mutation put together, that is ordered by completed,
    then due date, then priority rank, records of equal keys keeping the
    order they had in the list just before the sort (a new record behind
    the older ones), which need not be the order of their insertion. *)
Theorem canonical_order_after_every_mutation (clock : nat -> datetime) (a : App) :
  forallb valid_reminder (reminders_list a) = true ->
  (forall task_entry due_date_entry priority_var details_text due,
      String.eqb (strip task_entry) "" = false ->
      strptime (strip due_date_entry) = Some due ->
      In priority_var PRIORITY_LEVELS ->
      exists a',
        _add_reminder_from_ui clock task_entry due_date_entry priority_var
                              details_text a = (Ret tt, a') /\
        canonical_sort_of
          (reminders_list a ++
           [new_reminder clock a (strip task_entry) priority_var
                         (strip details_text) due])
          (reminders_list a')) /\
  (forall i sel task_entry due_date_entry priority_var details_text due,
      (i < List.length (reminders_list a))%nat ->
      String.eqb (strip task_entry) "" = false ->
      strptime (strip due_date_entry) = Some due ->
      In priority_var PRIORITY_LEVELS ->
      exists a',
        _update_selected_reminder clock (i :: sel) task_entry due_date_entry
                                  priority_var details_text a = (Ret tt, a') /\
        canonical_sort_of
          (update_at i (edit (strip task_entry) priority_var (strip details_text) due)
                     (reminders_list a))
          (reminders_list a')) /\
  (forall i sel,
      (i < List.length (reminders_list a))%nat ->
      exists a',
        _delete_selected_reminder clock (i :: sel) true a = (Ret tt, a') /\
        canonical_sort_of (remove_at i (reminders_list a)) (reminders_list a')) /\
  (forall i sel,
      (i < List.length (reminders_list a))%nat ->
      exists a',
        _toggle_complete_selected clock (i :: sel) a = (Ret tt, a') /\
        canonical_sort_of (update_at i toggle (reminders_list a)) (reminders_list a')) /\
  (forall filename doc decoded a1,
      find_file filename (disk a) = Doc doc ->
      decode clock doc a = (Ret decoded, a1) ->
      forallb valid_reminder decoded = true ->
      exists a',
        _load_reminders_core clock filename a = (Ret tt, a') /\
        canonical_sort_of decoded (reminders_list a')).
Proof.
  intros Hl. apply all_valid_forallb in Hl. repeat split.
  - intros t d p det due Ht Hd Hp. apply String.eqb_neq in Ht.
    rewrite (add_steps clock a t d p det due Ht Hd).
    match goal with |- context [with_list ?l ?b] =>
      destruct (sort_refresh_clear clock (with_list l b)) as (a' & Hrun & Hcan & _)
    end.
    + apply Forall_app; split; [exact Hl|].
      constructor; [|constructor]. now apply valid_new_reminder.
    + exists a'. split; [exact Hrun | exact Hcan].
  - intros i sel t d p det due Hi Ht Hd Hp. apply String.eqb_neq in Ht.
    rewrite (update_steps clock a i sel t d p det due Hi Ht Hd).
    match goal with |- context [with_list ?l ?b] =>
      destruct (sort_refresh_clear clock (with_list l b)) as (a' & Hrun & Hcan & _)
    end.
    + apply update_at_Forall; [|exact Hl]. intros r. now apply valid_edit.
    + exists a'. split; [exact Hrun | exact Hcan].
  - intros i sel Hi. rewrite (delete_steps clock a i sel Hi).
    match goal with |- context [with_list ?l ?b] =>
      destruct (sort_refresh_clear clock (with_list l b)) as (a' & Hrun & Hcan & _)
    end.
    + now apply remove_at_Forall.
    + exists a'. split; [exact Hrun | exact Hcan].
  - intros i sel Hi. rewrite (toggle_steps clock a i sel Hi).
    match goal with |- context [with_list ?l ?b] =>
      destruct (sort_and_refresh clock (with_list l b)) as (a' & Hrun & Hcan & _)
    end.
    + apply update_at_Forall; [|exact Hl]. apply valid_toggle.
    + exists a'. split; [exact Hrun | exact Hcan].
  - intros filename doc decoded a1 Hf Hdec Hv. apply all_valid_forallb in Hv.
    destruct (load_steps clock a a1 filename doc decoded Hf Hdec Hv)
      as (a2 & Hrun & Hcan & _).
    exists (with_filename filename a2). split; [exact Hrun | exact Hcan].
Qed.

(** ** Toggling a record *)

Lemma update_at_In {A} (i : nat) (f : A -> A) (l : list A) (x : A) :
  nth_error l i = Some x -> In (f x) (update_at i f l).
Proof.
  revert i. induction l as [|y l IH]; intros [|i]; cbn; try discriminate.
  - intros [= ->]. now left.
  - intros H. right. now apply IH.
Qed.

Lemma update_at_same {A} (i : nat) (f g : A -> A) (l : list A) (x : A) :
  nth_error l i = Some x -> f x = g x -> update_at i f l = update_at i g l.
Proof.
  revert i. induction l as [|y l IH]; intros [|i]; cbn; try reflexivity.
  - intros [= ->] ->. reflexivity.
  - intros H Hfg. now rewrite (IH i H Hfg).
Qed.




(** ** Rejected input *)

(** C5.  When the task is empty or the due date does not parse (both after
    stripping blanks), creating and updating only open the "Input Error"
    dialog: the state, and with it every field of every record, is what it
    was before the call. *)
Theorem invalid_input_mutates_nothing (clock : nat -> datetime) (a : App)
    (task_entry due_date_entry priority_var details_text : string) :
  String.eqb (strip task_entry) "" = true \/ strptime (strip due_date_entry) = None ->
  let rejected := with_dialogs (dialogs a ++ [showerror "Input Error"]) a in
  _add_reminder_from_ui clock task_entry due_date_entry priority_var details_text a
  = (Ret tt, rejected) /\
  (forall i sel r,
      nth_error (reminders_list a) i = Some r ->
      _update_selected_reminder clock (i :: sel) task_entry due_date_entry
                                priority_var details_text a
      = (Ret tt, rejected) /\
      nth_error (reminders_list rejected) i = Some r) /\
  reminders_list rejected = reminders_list a.
Proof.
  intros H rejected. split; [|split; [|reflexivity]].
  - unfold _add_reminder_from_ui.
    destruct (String.eqb (strip task_entry) ""); [reflexivity|].
    destruct H as [H | H]; [discriminate|].
    destruct (String.eqb (strip due_date_entry) ""); [reflexivity|].
    rewrite H. reflexivity.
  - intros i sel r Hr. split; [|exact Hr].
    assert (Hi : (i < List.length (reminders_list a))%nat)
      by (apply nth_error_Some; congruence).
    unfold _update_selected_reminder. unfold bind at 1.
    rewrite (selected_index i sel a Hi).
    destruct (String.eqb (strip task_entry) ""); [reflexivity|].
    destruct H as [H | H]; [discriminate|].
    destruct (String.eqb (strip due_date_entry) ""); [reflexivity|].
    rewrite H. reflexivity.
Qed.

(** ** Constructing records from a document *)

Lemma from_dict_steps (clock : nat -> datetime) (a : App)
    (items : list (string * pyval)) (t v p : pyval) :
  lookup "task" items = Some t ->
  lookup "due_date_str" items = Some v ->
  lookup "priority" items = Some p ->
  from_dict clock (PDict items) a
  = Reminder_init clock t (DueValue v) p
      (default (PStr "") (lookup "details" items))
      (default (PBool false) (lookup "is_completed" items))
      (default PNone (lookup "creation_date" items)) a.
Proof.
  intros Ht Hv Hp. unfold from_dict, getitem, dict_get. rewrite Ht, Hv, Hp.
  destruct (lookup "details" items), (lookup "is_completed" items),
    (lookup "creation_date" items); reflexivity.
Qed.

(** The constructor when the due date parses. *)
Lemma init_parsed (clock : nat -> datetime) (a : App) (t p det c cd : pyval)
    (s : string) (d : datetime) :
  strptime s = Some d ->
  Reminder_init clock t (DueValue (PStr s)) p det c cd a
  = if truthy cd
    then (Ret (mkReminder (objects a) t p det c cd d),
          with_objects (S (objects a)) a)
    else (Ret (mkReminder (objects a) t p det c
                          (PStr (strftime (clock (now_calls a)))) d),
          with_now_calls (S (now_calls a)) (with_objects (S (objects a)) a)).
Proof.
  intros Hs. unfold Reminder_init. rewrite Hs.
  destruct (truthy cd); reflexivity.
Qed.

(** The constructor when the due date is a string that does not parse. *)
Lemma init_fallback (clock : nat -> datetime) (a : App) (t p det c cd : pyval)
    (s : string) :
  strptime s = None ->
  let warned b := with_dialogs (dialogs a ++ [showwarning "Date Format Error"]) b in
  Reminder_init clock t (DueValue (PStr s)) p det c cd a
  = if truthy cd
    then (Ret (mkReminder (objects a) t p det c cd (clock (now_calls a))),
          with_now_calls (S (now_calls a)) (warned (with_objects (S (objects a)) a)))
    else (Ret (mkReminder (objects a) t p det c
                          (PStr (strftime (clock (now_calls a))))
                          (clock (S (now_calls a)))),
          with_now_calls (S (S (now_calls a)))
                         (warned (with_objects (S (objects a)) a))).
Proof.
  intros Hs warned. unfold Reminder_init. rewrite Hs.
  destruct (truthy cd); reflexivity.
Qed.

(** The constructor when the due date is not a string. *)
Lemma init_not_str (clock : nat -> datetime) (a : App) (t p det c cd v : pyval) :
  (forall s, v <> PStr s) ->
  let warned b := with_dialogs (dialogs a ++ [showwarning "Date Type Error"]) b in
  Reminder_init clock t (DueValue v) p det c cd a
  = if truthy cd
    then (Ret (mkReminder (objects a) t p det c cd (clock (now_calls a))),
          with_now_calls (S (now_calls a)) (warned (with_objects (S (objects a)) a)))
    else (Ret (mkReminder (objects a) t p det c
                          (PStr (strftime (clock (now_calls a))))
                          (clock (S (now_calls a)))),
          with_now_calls (S (S (now_calls a)))
                         (warned (with_objects (S (objects a)) a))).
Proof.
  intros Hv warned. unfold Reminder_init.
  destruct v; try (destruct (truthy cd); reflexivity).
  now destruct (Hv s).
Qed.

(** ** Saving and loading again *)

Lemma from_dict_to_dict (clock : nat -> datetime) (a : App) (r : Reminder) :
  valid_datetime (due_date r) = true ->
  1000 <= year (due_date r) ->
  truthy (creation_date r) = true ->
  from_dict clock (to_dict r) a
  = (Ret (reloaded (objects a) r), with_objects (S (objects a)) a).
Proof.
  intros Hd Hy Hc. unfold to_dict.
  rewrite (from_dict_steps clock a _ (task r) (PStr (strftime (due_date r))) (priority r))
    by reflexivity.
  cbn [lookup String.eqb Ascii.eqb Bool.eqb default].
  rewrite (init_parsed clock a _ _ _ _ _ _ _ (strptime_strftime _ Hd Hy)), Hc.
  reflexivity.
Qed.

Lemma decode_encode (clock : nat -> datetime) (l : list Reminder) (a : App) :
  Forall (fun r => valid_datetime (due_date r) = true /\
                   1000 <= year (due_date r) /\
                   truthy (creation_date r) = true) l ->
  decode clock (encode l) a
  = (Ret (reload (objects a) l), with_objects (objects a + List.length l) a).
Proof.
  unfold decode, encode. unfold bind at 1. cbn [iterate ret].
  intros Hl. revert a. induction Hl as [|r l (Hd & Hy & Hc) _ IH]; intros a.
  - cbn. rewrite Nat.add_0_r. now destruct a.
  - cbn [map comprehension]. unfold bind at 1.
    rewrite (from_dict_to_dict clock a r Hd Hy Hc).
    unfold bind at 1. rewrite IH. cbn [ret objects with_objects reload List.length].
    rewrite Nat.add_succ_r. reflexivity.
Qed.

Lemma from_dict_to_dict_due (clock : nat -> datetime) (a : App) (r : Reminder) :
  valid_datetime (due_date r) = true ->
  1000 <= year (due_date r) ->
  exists r' a',
    from_dict clock (to_dict r) a = (Ret r', a') /\
    dialogs a' = dialogs a /\ due_date r' = to_minute (due_date r).
Proof.
  intros Hd Hy. unfold to_dict.
  rewrite (from_dict_steps clock a _ (task r) (PStr (strftime (due_date r))) (priority r))
    by reflexivity.
  rewrite (init_parsed clock a _ _ _ _ _ _ _ (strptime_strftime _ Hd Hy)).
  match goal with |- context [if ?b then _ else _] => destruct b end;
    eexists _, _; repeat split.
Qed.

Lemma decode_encode_due (clock : nat -> datetime) (l : list Reminder) (a : App) :
  Forall (fun r => valid_datetime (due_date r) = true /\
                   1000 <= year (due_date r)) l ->
  exists l' a',
    decode clock (encode l) a = (Ret l', a') /\
    dialogs a' = dialogs a /\
    map due_date l' = map (fun r => to_minute (due_date r)) l.
Proof.
  unfold decode, encode. unfold bind at 1. cbn [iterate ret].
  intros Hl. revert a. induction Hl as [|r l [Hd Hy] _ IH]; intros a.
  - exists [], a. repeat split.
  - destruct (from_dict_to_dict_due clock a r Hd Hy) as (r' & a1 & Hr & Hd1 & Hdue).
    destruct (IH a1) as (l' & a' & Hrun & Hd2 & Hdues).
    exists (r' :: l'), a'. cbn [map comprehension]. unfold bind at 1. rewrite Hr.
    unfold bind at 1. rewrite Hrun. cbn [ret map]. repeat split.
    + congruence.
    + now rewrite Hdue, Hdues.
Qed.

(** X23.  For a due date from the year 1000 on, [to_dict] writes it at
    minute resolution in the format of DATE_FORMAT, whatever seconds and
    microseconds the datetime carries (as one taken from the clock does):
    the text parses, to that datetime cut to the minute.  Decoding a
    document that [encode] made of such records therefore returns without
    taking the fallback: no warning dialog is opened and every due date is
    the parsed one. *)
Theorem encoded_due_dates_parse (clock : nat -> datetime) (a : App)
    (l : list Reminder) :
  Forall (fun r => valid_datetime (due_date r) = true /\
                   1000 <= year (due_date r)) l ->
  Forall (fun r =>
            lookup "due_date_str" (match to_dict r with PDict items => items | _ => [] end)
            = Some (PStr (strftime (due_date r))) /\
            strptime (strftime (due_date r)) = Some (to_minute (due_date r))) l /\
  exists l' a',
    decode clock (encode l) a = (Ret l', a') /\
    dialogs a' = dialogs a /\
    map due_date l' = map (fun r => to_minute (due_date r)) l.
Proof.
  intros Hl. split.
  - eapply Forall_impl; [|exact Hl]. intros r [Hd Hy]. split; [reflexivity|].
    now apply strptime_strftime.
  - now apply decode_encode_due.
Qed.

Lemma strftime_truthy (d : datetime) : truthy (PStr (strftime d)) = true.
Proof.
  unfold strftime, year_digits.
  destruct (year d <? 10); [reflexivity|].
  destruct (year d <? 100); [reflexivity|].
  destruct (year d <? 1000); reflexivity.
Qed.

(** What the constructor guarantees for the creation date: it is the given
    one when that is true, else the text of the current time; either way it
    is never an empty value. *)
Lemma init_creation_date (clock : nat -> datetime) (a a' : App)
    (t p det c cd : pyval) (dv : due_arg) (r : Reminder) :
  Reminder_init clock t dv p det c cd a = (Ret r, a') ->
  truthy (creation_date r) = true.
Proof.
  unfold Reminder_init, bind, gets, modify, ret, datetime_now, messagebox.
  cbn. destruct (truthy cd) eqn:Hcd.
  - destruct dv as [[]|]; try destruct (strptime s); intros [= <- _]; exact Hcd.
  - destruct dv as [[]|]; try destruct (strptime s); intros [= <- _];
      apply strftime_truthy.
Qed.

(** X22.  A collection whose records carry a creation date as the
    constructor leaves it and a due date, from the year 1000 on, that was
    parsed from a text in DATE_FORMAT is reproduced by [decode] from its
    [encode]: the result has the same records in the same order, equal in
    all six fields. *)
Theorem decode_encode_round_trip (clock : nat -> datetime) (a : App)
    (l : list Reminder) :
  Forall (fun r => truthy (creation_date r) = true /\
                   1000 <= year (due_date r) /\
                   exists s, strptime s = Some (due_date r)) l ->
  exists l' a',
    decode clock (encode l) a = (Ret l', a') /\ Forall2 same_fields l l'.
Proof.
  intros Hl.
  assert (Hv : Forall (fun r => valid_datetime (due_date r) = true /\
                                1000 <= year (due_date r) /\
                                truthy (creation_date r) = true) l).
  { eapply Forall_impl; [|exact Hl]. intros r (Hc & Hy & s & Hs).
    split; [apply (strptime_valid s _ Hs) | split; [exact Hy | exact Hc]]. }
  rewrite (decode_encode clock l a Hv). eexists _, _. split; [reflexivity|].
  generalize (objects a). clear Hv.
  induction Hl as [|r l (_ & _ & s & Hs) _ IH]; intros o; cbn [reload]; constructor; auto.
  unfold same_fields, reloaded. cbn.
  destruct (strptime_valid s _ Hs) as [_ ->]. repeat split.
Qed.

(** ** The due-date fallback *)

Lemma init_total (clock : nat -> datetime) (a : App) (t p det c cd : pyval)
    (dv : due_arg) :
  exists r a',
    Reminder_init clock t dv p det c cd a = (Ret r, a') /\
    (now_calls a <= now_calls a')%nat /\
    (forall s, dv = DueValue (PStr s) -> strptime s = None ->
               due_now clock a a' r /\
               dialogs a' = dialogs a ++ [showwarning "Date Format Error"]).
Proof.
  destruct dv as [v|d].
  - destruct v as [| | |s| |].
    4: destruct (strptime s) as [d|] eqn:Hs;
       [ rewrite (init_parsed clock a t p det c cd s d Hs)
       | rewrite (init_fallback clock a t p det c cd s Hs) ].
    1-3,6-7: rewrite init_not_str by discriminate.
    all: destruct (truthy cd); eexists _, _; (split; [reflexivity|]);
      cbn [now_calls with_now_calls with_dialogs with_objects dialogs];
      (split; [lia|]); intros s' [= <-] Hs'; try congruence;
      (split; [|reflexivity]); eexists; (split; [|reflexivity]);
      cbn [now_calls with_now_calls with_dialogs with_objects]; lia.
  - unfold Reminder_init, bind, gets, modify, ret, datetime_now.
    destruct (truthy cd); eexists _, _; (split; [reflexivity|]); cbn;
      (split; [lia|]); discriminate.
Qed.

Lemma from_dict_total (clock : nat -> datetime) (a : App) (item : pyval) :
  has_required item = true ->
  exists r a',
    from_dict clock item a = (Ret r, a') /\
    (now_calls a <= now_calls a')%nat /\
    (unparsable item -> due_now clock a a' r).
Proof.
  destruct item as [| | | | |items]; try discriminate. cbn [has_required].
  destruct (lookup "task" items) as [t|] eqn:Ht; [|discriminate].
  destruct (lookup "due_date_str" items) as [v|] eqn:Hv; [|discriminate].
  destruct (lookup "priority" items) as [p|] eqn:Hp; [|discriminate].
  intros _. rewrite (from_dict_steps clock a items t v p Ht Hv Hp).
  match goal with |- context [Reminder_init clock t ?dv p ?det ?c ?cd a] =>
    destruct (init_total clock a t p det c cd dv) as (r & a' & Hrun & Hmono & Hfb)
  end.
  exists r, a'. split; [exact Hrun|]. split; [exact Hmono|].
  intros (items' & s & [= <-] & Hs & Hnone).
  rewrite Hv in Hs. injection Hs as ->. now apply (Hfb s).
Qed.

Lemma due_now_widen (clock : nat -> datetime) (a b b' a' : App) (r : Reminder) :
  (now_calls a <= now_calls b)%nat -> (now_calls b' <= now_calls a')%nat ->
  due_now clock b b' r -> due_now clock a a' r.
Proof. intros H1 H2 (k & Hk & Hd). exists k. split; [lia | exact Hd]. Qed.

Lemma decode_total (clock : nat -> datetime) (items : list pyval) (a : App) :
  Forall (fun item => has_required item = true) items ->
  exists l a',
    comprehension (from_dict clock) items a = (Ret l, a') /\
    (now_calls a <= now_calls a')%nat /\
    Forall2 (fun item r => unparsable item -> due_now clock a a' r) items l.
Proof.
  intros H. revert a. induction H as [|item items Hitem _ IH]; intros a.
  - exists [], a. repeat split; [lia | constructor].
  - destruct (from_dict_total clock a item Hitem) as (r & a1 & Hr & Hm1 & Hfb).
    destruct (IH a1) as (l & a' & Hl & Hm2 & Hall).
    exists (r :: l), a'. cbn [comprehension]. unfold bind at 1. rewrite Hr.
    unfold bind at 1. rewrite Hl. split; [reflexivity|]. split; [lia|].
    constructor.
    + intros Hu. apply (due_now_widen clock a a a1 a' r); auto; lia.
    + eapply Forall2_impl; [|exact Hall]. cbn. intros x y Hxy Hu.
      apply (due_now_widen clock a a1 a' a' y); auto; lia.
Qed.

(** C3.  A due-date text that does not parse never stops a construction:
    [Reminder.__init__] returns a record whose due date is the clock as read
    during the call, after one "Date Format Error" warning.  Decoding a list
    of dicts that have the keys task, due_date_str and priority therefore
    returns one record per element, and each element with an unparsable due
    date gives a record due at a time read from the clock during the
    decode.  "not-a-date" is such a text. *)
Theorem unparsable_due_date_falls_back (clock : nat -> datetime) (a : App) :
  (forall t s p det c cd,
      strptime s = None ->
      exists r a',
        Reminder_init clock t (DueValue (PStr s)) p det c cd a = (Ret r, a') /\
        due_now clock a a' r /\
        dialogs a' = dialogs a ++ [showwarning "Date Format Error"]) /\
  (forall items,
      forallb has_required items = true ->
      exists l a',
        decode clock (PList items) a = (Ret l, a') /\
        Forall2 (fun item r => unparsable item -> due_now clock a a' r) items l) /\
  strptime "not-a-date" = None.
Proof.
  repeat split.
  - intros t s p det c cd Hs.
    destruct (init_total clock a t p det c cd (DueValue (PStr s)))
      as (r & a' & Hrun & _ & Hfb).
    exists r, a'. split; [exact Hrun|]. now apply (Hfb s).
  - intros items Hreq.
    assert (H : Forall (fun item => has_required item = true) items)
      by (rewrite Forall_forall; now apply forallb_forall).
    destruct (decode_total clock items a H) as (l & a' & Hrun & _ & Hall).
    exists l, a'. split; [|exact Hall].
    unfold decode. unfold bind at 1. cbn [iterate ret]. exact Hrun.
Qed.

(** ** Loading *)

Lemma init_keeps_list (clock : nat -> datetime) (t p det c cd : pyval) (dv : due_arg) :
  keeps reminders_list (Reminder_init clock t dv p det c cd).
Proof. unfold Reminder_init. keeps_all. Qed.

Lemma from_dict_keeps_list (clock : nat -> datetime) (data : pyval) :
  keeps reminders_list (from_dict clock data).
Proof.
  unfold from_dict, getitem, dict_get.
  repeat (keeps_step || apply init_keeps_list).
Qed.

Lemma decode_keeps_list (clock : nat -> datetime) (data : pyval) :
  keeps reminders_list (decode clock data).
Proof.
  unfold decode, iterate.
  repeat (keeps_step || apply from_dict_keeps_list).
Qed.

(** A load that cannot read or parse the file changes nothing but the
    dialogs. *)
Lemma load_unreadable (clock : nat -> datetime) (a : App) (filename : string) :
  (forall doc, find_file filename (disk a) <> Doc doc) ->
  _load_reminders_core clock filename a
  = (Ret tt, with_dialogs (dialogs a ++ [showerror "Load Error"]) a).
Proof.
  intros H. unfold _load_reminders_core, try. unfold bind at 1.
  unfold json_load, bind at 1. cbn [gets].
  destruct (find_file filename (disk a)) eqn:Hf; try reflexivity.
  now destruct (H v).
Qed.

(** A load whose decoding raises leaves the list alone and ends with the
    "Load Error" dialog. *)
Lemma load_decode_raises (clock : nat -> datetime) (a a1 : App)
    (filename : string) (doc : pyval) (e : exn) :
  find_file filename (disk a) = Doc doc ->
  decode clock doc a = (Raise e, a1) ->
  _load_reminders_core clock filename a
  = (Ret tt, with_dialogs (dialogs a1 ++ [showerror "Load Error"]) a1) /\
  reminders_list a1 = reminders_list a.
Proof.
  intros Hf Hdec. split.
  - unfold _load_reminders_core, try. unfold bind at 1.
    unfold json_load at 1. unfold bind at 1. cbn [gets]. rewrite Hf. cbn [ret].
    unfold bind at 1. rewrite Hdec. destruct e; reflexivity.
  - pose proof (decode_keeps_list clock doc a) as H. now rewrite Hdec in H.
Qed.

Lemma comprehension_raises {A B} (f : A -> M B) (before after : list A) (x : A) (a : App) :
  (forall b, exists e b', f x b = (Raise e, b')) ->
  exists e a', comprehension f (before ++ x :: after) a = (Raise e, a').
Proof.
  intros Hx. revert a. induction before as [|y before IH]; intros a; cbn [app comprehension].
  - destruct (Hx a) as (e & a' & He). exists e, a'. unfold bind. now rewrite He.
  - unfold bind at 1. destruct (f y a) as [[z|e] a1].
    + destruct (IH a1) as (e & a' & He). exists e, a'. unfold bind at 1. now rewrite He.
    + now exists e, a1.
Qed.

(** C6.  [from_dict] subscripts the keys task and priority: a dict without
    one of them raises [KeyError], and a load whose document holds such an
    element fails, leaving the list as it was and reporting "Load Error".
    With the subscripted keys present the record is built, and an absent
    details, is_completed or creation_date key gives the empty string,
    [False], and the text of the clock as read by this call. *)
Theorem required_keys_and_defaults (clock : nat -> datetime) (a : App)
    (items : list (string * pyval)) :
  (lookup "task" items = None \/ lookup "priority" items = None ->
   (exists key, from_dict clock (PDict items) a = (Raise (KeyError (PStr key)), a)) /\
   (forall filename before after,
       find_file filename (disk a) = Doc (PList (before ++ PDict items :: after)) ->
       exists a',
         _load_reminders_core clock filename a = (Ret tt, a') /\
         reminders_list a' = reminders_list a /\
         last (dialogs a') (showinfo "") = showerror "Load Error")) /\
  (forall t v p,
      lookup "task" items = Some t ->
      lookup "due_date_str" items = Some v ->
      lookup "priority" items = Some p ->
      exists r a',
        from_dict clock (PDict items) a = (Ret r, a') /\
        task r = t /\ priority r = p /\
        (lookup "details" items = None -> details r = PStr "") /\
        (lookup "is_completed" items = None -> is_completed r = PBool false) /\
        (lookup "creation_date" items = None ->
         creation_date r = PStr (strftime (clock (now_calls a))))).
Proof.
  split.
  - intros Hmissing.
    assert (Hraise : forall b, exists key,
               from_dict clock (PDict items) b = (Raise (KeyError (PStr key)), b)).
    { intros b. unfold from_dict, getitem. unfold bind at 1.
      destruct (lookup "task" items) as [t|]; [|now exists "task"].
      unfold bind at 1.
      destruct (lookup "due_date_str" items) as [v|]; [|now exists "due_date_str"].
      destruct Hmissing as [H | H]; [discriminate|]. rewrite H.
      now exists "priority". }
    split; [apply Hraise|].
    intros filename before after Hf.
    destruct (comprehension_raises (from_dict clock) before after (PDict items) a)
      as (e & a1 & He).
    { intros b. destruct (Hraise b) as (key & Hk). eauto. }
    destruct (load_decode_raises clock a a1 filename _ e Hf) as [Hrun Hlist].
    { unfold decode. unfold bind at 1. cbn [iterate ret]. exact He. }
    eexists. split; [exact Hrun|]. split; [exact Hlist|].
    cbn [dialogs with_dialogs]. apply last_last.
  - intros t v p Ht Hv Hp. rewrite (from_dict_steps clock a items t v p Ht Hv Hp).
    match goal with |- context [Reminder_init clock t ?dv p ?det ?c ?cd a] =>
      destruct (init_total clock a t p det c cd dv) as (r & a' & Hrun & _);
      pose proof Hrun as Hshape
    end.
    exists r, a'. split; [exact Hrun|].
    unfold Reminder_init, bind, gets, modify, ret, datetime_now, messagebox in Hshape.
    cbn in Hshape.
    destruct (lookup "details" items), (lookup "is_completed" items),
      (lookup "creation_date" items) as [cd|];
      cbn [default truthy] in Hshape;
      try destruct (truthy cd);
      destruct v as [| | |s| |]; try destruct (strptime s);
      injection Hshape as <- _; cbn; repeat split; intros; congruence.
Qed.

(** ** Identity and creation date *)

Lemma carried_refl (a : App) : carried a a.
Proof.
  split; [lia|]. rewrite Forall_forall. intros r Hr. left. exists r. now repeat split.
Qed.

Section Triples.
Variable I : App -> Prop.

Lemma triple_ret {A} (x : A) (Q : A -> Prop) : Q x -> triple I (ret x) Q.
Proof. intros Hq a Ha. split; [exact Ha|]. cbn. now intros y [= <-]. Qed.

Lemma triple_raise {A} (e : exn) (Q : A -> Prop) : triple I (raise e) Q.
Proof. intros a Ha. split; [exact Ha|]. cbn. discriminate. Qed.

Lemma triple_gets {A} (g : App -> A) : triple I (gets g) (fun _ => True).
Proof. intros a Ha. split; [exact Ha | trivial]. Qed.

Lemma triple_modify (g : App -> App) :
  (forall a, I a -> I (g a)) -> triple I (modify g) (fun _ => True).
Proof. intros Hg a Ha. split; [now apply Hg | trivial]. Qed.

Lemma triple_weaken {A} (m : M A) (P Q : A -> Prop) :
  triple I m P -> (forall x, P x -> Q x) -> triple I m Q.
Proof. intros Hm Hpq a Ha. destruct (Hm a Ha) as [H1 H2]. split; auto. Qed.

Lemma triple_bind {A B} (m : M A) (k : A -> M B) (P : A -> Prop) (Q : B -> Prop) :
  triple I m P -> (forall x, P x -> triple I (k x) Q) -> triple I (bind m k) Q.
Proof.
  intros Hm Hk a Ha. unfold bind. destruct (Hm a Ha) as [H1 H2].
  destruct (m a) as [[x|e] a1]; cbn in *.
  - apply (Hk x); auto.
  - split; [exact H1 | discriminate].
Qed.

Lemma triple_try {A} (m : M A) (h : exn -> M A) (Q : A -> Prop) :
  triple I m Q -> (forall e, triple I (h e) Q) -> triple I (try m h) Q.
Proof.
  intros Hm Hh a Ha. unfold try. destruct (Hm a Ha) as [H1 H2].
  destruct (m a) as [[x|e] a1]; cbn in *.
  - split; [exact H1 | exact H2].
  - now apply Hh.
Qed.

Lemma triple_for_each {A} (g : A -> M unit) (l : list A) :
  (forall x, triple I (g x) (fun _ => True)) ->
  triple I (for_each g l) (fun _ => True).
Proof.
  intros Hg. induction l as [|x l IH]; cbn [for_each].
  - now apply triple_ret.
  - eapply triple_bind; [apply Hg | intros; exact IH].
Qed.

Lemma triple_comprehension {A B} (g : A -> M B) (l : list A) (P : B -> Prop) :
  (forall x, triple I (g x) P) -> triple I (comprehension g l) (Forall P).
Proof.
  intros Hg. induction l as [|x l IH]; cbn [comprehension].
  - apply triple_ret. constructor.
  - eapply triple_bind; [apply Hg|]. intros y Hy.
    eapply triple_bind; [exact IH|]. intros ys Hys.
    apply triple_ret. now constructor.
Qed.
End Triples.

(** Changes of the state that keep [carried a0]. *)
Section Carried.
Variable a0 : App.

Lemma carried_same (a b : App) :
  reminders_list b = reminders_list a -> (objects a <= objects b)%nat ->
  carried a0 a -> carried a0 b.
Proof. intros Hl Ho [H1 H2]. split; [lia | now rewrite Hl]. Qed.

Lemma carried_list (a : App) (l : list Reminder) :
  Forall (fun r' => exists r, In r (reminders_list a) /\ same_object r r') l ->
  carried a0 a -> carried a0 (with_list l a).
Proof.
  intros Hl [H1 H2]. split; [exact H1|]. cbn.
  rewrite Forall_forall in *. intros r' Hr'.
  destruct (Hl r' Hr') as (r & Hr & Ho & Hc).
  destruct (H2 r Hr) as [(r0 & Hr0 & Ho0 & Hc0) | Hnew].
  - left. exists r0. repeat split; congruence.
  - right. rewrite <- Ho. exact Hnew.
Qed.

Lemma carried_sublist (a : App) (l : list Reminder) :
  (forall r, In r l -> In r (reminders_list a)) ->
  carried a0 a -> carried a0 (with_list l a).
Proof.
  intros Hl. apply carried_list. rewrite Forall_forall. intros r Hr.
  exists r. repeat split. now apply Hl.
Qed.

Lemma carried_new (a : App) (l : list Reminder) :
  Forall (fun r => (objects a0 <= oid r)%nat) l ->
  carried a0 a -> carried a0 (with_list (reminders_list a ++ l) a).
Proof.
  intros Hl [H1 H2]. split; [exact H1|]. cbn. apply Forall_app. split; [exact H2|].
  eapply Forall_impl; [|exact Hl]. cbn. auto.
Qed.

Lemma carried_replaced (a : App) (l : list Reminder) :
  Forall (fun r => (objects a0 <= oid r)%nat) l ->
  carried a0 a -> carried a0 (with_list l a).
Proof.
  intros Hl [H1 H2]. split; [exact H1|]. cbn.
  eapply Forall_impl; [|exact Hl]. cbn. auto.
Qed.
End Carried.

Lemma insert_sorted_perm {A} (x : sort_key * A) (l l' : list (sort_key * A)) :
  insert_sorted x l = Some l' -> Permutation (x :: l) l'.
Proof.
  revert l'. induction l as [|y l IH]; intros l'; cbn [insert_sorted].
  - now intros [= <-].
  - destruct (key_lt (fst y) (fst x)) as [[]|]; try discriminate.
    + destruct (insert_sorted x l) as [s|]; [|discriminate]. cbn. intros [= <-].
      rewrite perm_swap. now rewrite (IH s eq_refl).
    + now intros [= <-].
Qed.

Lemma sort_by_key_perm {A} (l l' : list (sort_key * A)) :
  sort_by_key l = Some l' -> Permutation l l'.
Proof.
  revert l'. induction l as [|x l IH]; intros l'; cbn [sort_by_key].
  - now intros [= <-].
  - destruct (sort_by_key l) as [s|]; [|discriminate]. intros H.
    apply insert_sorted_perm in H. now rewrite (IH s eq_refl).
Qed.

Lemma comprehension_lift {A B} (g : A -> res B) (l : list A) (a : App) :
  snd (comprehension (fun x => lift (g x)) l a) = a /\
  forall ys, fst (comprehension (fun x => lift (g x)) l a) = Ret ys ->
             List.length ys = List.length l.
Proof.
  induction l as [|x l [IH1 IH2]]; cbn [comprehension].
  - split; [reflexivity|]. cbn. now intros ys [= <-].
  - unfold bind, lift at 1 3. destruct (g x) as [y|e]; [|now split].
    destruct (comprehension (fun x => lift (g x)) l a) as [[ys|e] a1]; cbn in *.
    + split; [exact IH1|]. intros zs [= <-]. cbn. now rewrite (IH2 ys eq_refl).
    + split; [exact IH1 | discriminate].
Qed.

Lemma map_snd_combine {A B} (ks : list A) (l : list B) :
  List.length ks = List.length l -> map snd (combine ks l) = l.
Proof.
  revert l. induction ks as [|k ks IH]; intros [|x l]; cbn; try easy.
  intros [= H]. now rewrite IH.
Qed.

(** Whether it returns or raises, [_sort_reminders] only reorders the list. *)
Lemma sort_reminders_perm (a : App) :
  exists l', snd (_sort_reminders a) = with_list l' a /\
             Permutation (reminders_list a) l'.
Proof.
  unfold _sort_reminders, bind at 1. cbn [gets]. unfold bind at 1.
  destruct (comprehension_lift key_of (reminders_list a) a) as [Hs Hlen].
  destruct (comprehension (fun r => lift (key_of r)) (reminders_list a) a)
    as [[keys|e] a1]; cbn in Hs, Hlen; subst a1.
  - specialize (Hlen keys eq_refl).
    destruct (sort_by_key (combine keys (reminders_list a))) as [s|] eqn:Hsort.
    + exists (map snd s). split; [reflexivity|].
      apply sort_by_key_perm in Hsort. apply (Permutation_map snd) in Hsort.
      now rewrite map_snd_combine in Hsort.
    + exists (reminders_list a). split; [now destruct a | reflexivity].
  - exists (reminders_list a). split; [now destruct a | reflexivity].
Qed.

Section CarriedTriples.
Variable clock : nat -> datetime.
Variable a0 : App.

Let I := carried a0.

Ltac unchanged := intros ? ?; eapply carried_same; [| |eassumption]; cbn; [reflexivity | lia].

Lemma sort_carried : triple I _sort_reminders (fun _ => True).
Proof.
  intros a Ha. split; [|trivial].
  destruct (sort_reminders_perm a) as (l' & -> & Hperm).
  apply carried_sublist; [|exact Ha].
  intros r Hr. apply (Permutation_in r (Permutation_sym Hperm) Hr).
Qed.

Lemma messagebox_carried (d : dialog) : triple I (messagebox d) (fun _ => True).
Proof. apply triple_modify. unchanged. Qed.

Lemma now_carried : triple I (datetime_now clock) (fun _ => True).
Proof.
  intros a Ha. split; [|trivial]. cbn.
  eapply carried_same; [| |exact Ha]; cbn; [reflexivity | lia].
Qed.

Lemma refresh_carried : triple I (_refresh_reminders_tree clock) (fun _ => True).
Proof.
  unfold _refresh_reminders_tree.
  eapply triple_bind; [apply triple_modify; unchanged | intros _ _].
  eapply triple_bind; [apply triple_gets | intros l _].
  apply triple_for_each. intros [i r]. cbn [fst snd].
  eapply triple_bind; [apply triple_modify; unchanged | intros _ _].
  eapply triple_bind with (P := fun _ => True).
  { destruct (truthy (is_completed r)); [now apply triple_ret|].
    eapply triple_bind; [apply now_carried | intros; now apply triple_ret]. }
  intros tags _.
  eapply triple_bind with (P := fun _ => True).
  { destruct (priority r); (now apply triple_ret) || apply triple_raise. }
  intros tag _. apply triple_modify. unchanged.
Qed.

Lemma init_carried (t p det c cd : pyval) (dv : due_arg) :
  triple I (Reminder_init clock t dv p det c cd)
         (fun r => (objects a0 <= oid r)%nat).
Proof.
  intros a Ha.
  destruct (init_total clock a t p det c cd dv) as (r & a' & Hrun & _).
  pose proof (init_keeps_list clock t p det c cd dv a) as Hlist.
  rewrite Hrun in *. cbn [fst snd] in *.
  assert (Ho : oid r = objects a /\ objects a' = S (objects a)).
  { clear - Hrun. revert Hrun.
    unfold Reminder_init, bind, gets, modify, ret, datetime_now, messagebox. cbn.
    destruct (truthy cd); destruct dv as [[]|]; try destruct (strptime s);
      intros [= <- <-]; split; reflexivity. }
  destruct Ho as [Ho1 Ho2]. destruct Ha as [H1 H2]. split.
  - split; [lia | now rewrite Hlist].
  - intros x [= <-]. lia.
Qed.

Lemma from_dict_carried (data : pyval) :
  triple I (from_dict clock data) (fun r => (objects a0 <= oid r)%nat).
Proof.
  unfold from_dict.
  assert (Hget : forall key, triple I (getitem data key) (fun _ => True)).
  { intros key. unfold getitem. destruct data; try apply triple_raise.
    destruct (lookup key items); [now apply triple_ret | apply triple_raise]. }
  assert (Hdget : forall key d, triple I (dict_get data key d) (fun _ => True)).
  { intros key d. unfold dict_get. destruct data; try apply triple_raise.
    destruct (lookup key items); now apply triple_ret. }
  eapply triple_bind; [apply Hget | intros t _].
  eapply triple_bind; [apply Hget | intros v _].
  eapply triple_bind; [apply Hget | intros p _].
  eapply triple_bind; [apply Hdget | intros det _].
  eapply triple_bind; [apply Hdget | intros c _].
  eapply triple_bind; [apply Hdget | intros cd _].
  apply init_carried.
Qed.

Lemma decode_carried (data : pyval) :
  triple I (decode clock data) (Forall (fun r => (objects a0 <= oid r)%nat)).
Proof.
  unfold decode.
  eapply triple_bind with (P := fun _ => True).
  { unfold iterate. destruct data; (now apply triple_ret) || apply triple_raise. }
  intros items _. apply triple_comprehension. apply from_dict_carried.
Qed.

Lemma selected_carried (selected_items : list nat) :
  triple I (_get_selected_reminder_object selected_items) (fun _ => True).
Proof.
  unfold _get_selected_reminder_object. destruct selected_items as [|i sel].
  - now apply triple_ret.
  - eapply triple_bind; [apply triple_gets | intros l _].
    destruct (i <? List.length l)%nat; now apply triple_ret.
Qed.

Lemma setattr_carried (i : nat) (f : Reminder -> Reminder) :
  (forall r, same_object r (f r)) ->
  triple I (modify (fun a => with_list (update_at i f (reminders_list a)) a))
         (fun _ => True).
Proof.
  intros Hf. apply triple_modify. intros a Ha. apply carried_list; [|exact Ha].
  generalize (reminders_list a). intros l. revert i.
  induction l as [|x l IH]; intros [|i]; cbn; constructor.
  - exists x. split; [now left | apply Hf].
  - rewrite Forall_forall. intros r Hr. exists r. split; [now right | now split].
  - exists x. split; [now left | now split].
  - eapply Forall_impl; [|apply (IH i)]. cbn. intros r (r0 & Hr0 & Hs).
    exists r0. split; [now right | exact Hs].
Qed.

Lemma clear_carried : triple I (_clear_input_fields clock) (fun _ => True).
Proof.
unfold _clear_input_fields.
eapply triple_bind; [apply now_carried | intros; now apply triple_ret].
Qed.

Lemma sort_refresh_carried :
  triple I (_sort_reminders ;;; _refresh_reminders_tree clock) (fun _ => True).
Proof. eapply triple_bind; [apply sort_carried | intros; apply refresh_carried]. Qed.
End CarriedTriples.

(** ** No handler changes a creation date *)

Lemma remove_at_In {A} (i : nat) (l : list A) (x : A) :
  In x (remove_at i l) -> In x l.
Proof.
  revert i. induction l as [|y l IH]; intros [|i]; cbn; auto.
  intros [H | H]; [now left | right; now apply (IH i)].
Qed.

Lemma load_carried (clock : nat -> datetime) (a0 : App) (filename : string) :
  triple (carried a0) (_load_reminders_core clock filename) (fun _ => True).
Proof.
  unfold _load_reminders_core.
  apply triple_try; [|intros e; destruct e; apply messagebox_carried].
  eapply triple_bind with (P := fun _ => True).
  { unfold json_load.
    eapply triple_bind; [apply triple_gets | intros dk _].
    destruct (find_file filename dk); (now apply triple_ret) || apply triple_raise. }
  intros doc _.
  eapply triple_bind; [apply decode_carried | intros l Hl].
  eapply triple_bind.
  { apply triple_modify. intros a Ha. now apply carried_replaced. }
  intros _ _. eapply triple_bind; [apply sort_carried | intros _ _].
  eapply triple_bind; [apply refresh_carried | intros _ _].
  apply triple_modify. intros a Ha.
  eapply carried_same; [| |exact Ha]; cbn; [reflexivity | lia].
Qed.

Lemma handle_carried (clock : nat -> datetime) (a0 : App) (h : handler) :
  triple (carried a0) (handle clock h) (fun _ => True).
Proof.
  assert (Hkeep : forall g : App -> App,
             (forall a, reminders_list (g a) = reminders_list a) ->
             (forall a, objects (g a) = objects a) ->
             triple (carried a0) (modify g) (fun _ => True)).
  { intros g Hl Ho. apply triple_modify. intros a Ha.
    eapply carried_same; [apply Hl | rewrite Ho; lia | exact Ha]. }
  assert (Hfinish : triple (carried a0)
                      (_sort_reminders ;;; _refresh_reminders_tree clock ;;;
                       _clear_input_fields clock) (fun _ => True)).
  { eapply triple_bind; [apply sort_carried | intros _ _].
    eapply triple_bind; [apply refresh_carried | intros _ _]. apply clear_carried. }
  destruct h as [| t d p det | sel t d p det | sel yes | yes | yes | sel | sel | |
                 | filename | filename | ];
    cbn [handle].
  - unfold _load_reminders_on_startup.
    apply triple_try;
      [|intros e; destruct e; (now apply triple_ret) || apply messagebox_carried].
    eapply triple_bind; [apply triple_gets | intros dk _].
    destruct (find_file DEFAULT_FILENAME dk);
      try apply triple_raise; apply load_carried.
  - unfold _add_reminder_from_ui.
    destruct (String.eqb (strip t) ""); [apply messagebox_carried|].
    destruct (String.eqb (strip d) ""); [apply messagebox_carried|].
    destruct (strptime (strip d)); [|apply messagebox_carried].
    eapply triple_bind; [apply init_carried | intros r Hr].
    eapply triple_bind; [|intros _ _; apply clear_carried].
    unfold _add_reminder_object.
    eapply triple_bind; [|intros _ _; apply sort_refresh_carried].
    apply triple_modify. intros a Ha. apply carried_new; [|exact Ha].
    constructor; [exact Hr | constructor].
  - unfold _update_selected_reminder.
    eapply triple_bind; [apply selected_carried | intros [i|] _];
      [|apply messagebox_carried].
    destruct (String.eqb (strip t) ""); [apply messagebox_carried|].
    destruct (String.eqb (strip d) ""); [apply messagebox_carried|].
    destruct (strptime (strip d)); [|apply messagebox_carried].
    do 4 (eapply triple_bind;
          [apply setattr_carried; intros r; split; reflexivity | intros _ _]).
    exact Hfinish.
  - unfold _delete_selected_reminder.
    eapply triple_bind; [apply selected_carried | intros [i|] _];
      [|apply messagebox_carried].
    destruct yes; [|now apply triple_ret].
    eapply triple_bind; [|intros _ _; exact Hfinish].
    apply triple_modify. intros a Ha. apply carried_sublist; [|exact Ha].
    intros r. apply remove_at_In.
  - unfold _delete_all_reminders. destruct yes; [|now apply triple_ret].
    eapply triple_bind.
    { apply triple_modify. intros a Ha. now apply carried_sublist. }
    intros _ _. eapply triple_bind; [apply refresh_carried | intros _ _].
    apply clear_carried.
  - unfold _clear_all_fields_and_list. destruct yes; [|now apply triple_ret].
    eapply triple_bind; [apply clear_carried | intros _ _].
    eapply triple_bind.
    { apply triple_modify. intros a Ha. now apply carried_sublist. }
    intros _ _. eapply triple_bind; [apply refresh_carried | intros _ _].
    now apply Hkeep.
  - unfold _toggle_complete_selected.
    eapply triple_bind; [apply selected_carried | intros [i|] _];
      [|apply messagebox_carried].
    eapply triple_bind; [|intros _ _; apply sort_refresh_carried].
    apply setattr_carried. intros r. split; reflexivity.
  - unfold _load_selected_for_editing.
    eapply triple_bind; [apply selected_carried | intros; now apply triple_ret].
  - apply clear_carried.
  - apply clear_carried.
  - unfold _save_reminders.
    eapply triple_bind with (P := fun _ => True).
    { destruct filename; [now apply triple_ret | apply triple_gets]. }
    intros f _. destruct (String.eqb f ""); [apply messagebox_carried|].
    apply triple_try; [|intros e; apply messagebox_carried].
    eapply triple_bind; [apply triple_gets | intros l _].
    eapply triple_bind; [|intros _ _; now apply Hkeep].
    unfold json_dump.
    eapply triple_bind; [apply triple_gets | intros dk _].
    destruct (find_file f dk); try (now apply Hkeep); apply triple_raise.
  - apply load_carried.
  - apply messagebox_carried.
Qed.

(** C7.  A successful update assigns the four edited attributes to the
    selected object itself: the new list is the old one, reordered, with
    that object edited, and the edited object has the identity, the
    creation date and the completion flag it had.  No handler ever changes
    a creation date: after any of them, every record of the list is an
    object of the list before with the creation date it had, or an object
    constructed by that very call. *)
Theorem update_in_place_keeps_creation_date (clock : nat -> datetime) (a : App) :
  (forall i sel task_entry due_date_entry priority_var details_text due r,
      forallb valid_reminder (reminders_list a) = true ->
      nth_error (reminders_list a) i = Some r ->
      String.eqb (strip task_entry) "" = false ->
      strptime (strip due_date_entry) = Some due ->
      In priority_var PRIORITY_LEVELS ->
      let r' := edit (strip task_entry) priority_var (strip details_text) due r in
      exists a',
        _update_selected_reminder clock (i :: sel) task_entry due_date_entry
                                  priority_var details_text a = (Ret tt, a') /\
        Permutation (update_at i (fun _ => r') (reminders_list a)) (reminders_list a') /\
        In r' (reminders_list a') /\
        oid r' = oid r /\ creation_date r' = creation_date r /\
        is_completed r' = is_completed r) /\
  (forall h r',
      In r' (reminders_list (snd (handle clock h a))) ->
      (exists r, In r (reminders_list a) /\
                 oid r = oid r' /\ creation_date r = creation_date r') \/
      (objects a <= oid r')%nat).
Proof.
  split.
  - intros i sel t d p det due r Hl Hr Ht Hd Hp r'.
    apply all_valid_forallb in Hl. apply String.eqb_neq in Ht.
    assert (Hi : (i < List.length (reminders_list a))%nat)
      by (apply nth_error_Some; congruence).
    rewrite (update_steps clock a i sel t d p det due Hi Ht Hd).
    assert (Hv : all_valid (update_at i (edit (strip t) p (strip det) due)
                                      (reminders_list a)))
      by (apply update_at_Forall; [intros x; now apply valid_edit | exact Hl]).
    destruct (sort_refresh_clear clock
                (with_list (update_at i (edit (strip t) p (strip det) due)
                                      (reminders_list a)) a) Hv)
      as (a' & Hrun & (Hperm & _) & _).
    cbn [reminders_list with_list] in Hperm.
    exists a'. split; [exact Hrun|].
    rewrite (update_at_same i (fun _ => r') (edit (strip t) p (strip det) due)
                            (reminders_list a) r Hr eq_refl).
    split; [exact Hperm|]. split; [|repeat split].
    apply (Permutation_in _ Hperm). now apply update_at_In.
  - intros h r' Hin.
    destruct (handle_carried clock a h a (carried_refl a)) as [[_ Hall] _].
    rewrite Forall_forall in Hall. exact (Hall r' Hin).
Qed.

(** ** An empty creation date *)

(** C10.  [from_dict] does with a creation_date that is the empty string
    what it does when the key is absent: the two calls give the same record
    and leave the same state, and the record's creation date is the text of
    the clock as read by the call, which is not empty; that text, not the
    empty string, is what [to_dict] writes back. *)
Theorem empty_creation_date_is_replaced (clock : nat -> datetime) (a : App)
    (present absent : list (string * pyval)) (t v p : pyval) :
  lookup "task" present = Some t ->
  lookup "due_date_str" present = Some v ->
  lookup "priority" present = Some p ->
  lookup "creation_date" present = Some (PStr "") ->
  lookup "creation_date" absent = None ->
  (forall key, key <> "creation_date" -> lookup key absent = lookup key present) ->
  exists r a',
    from_dict clock (PDict present) a = (Ret r, a') /\
    from_dict clock (PDict absent) a = (Ret r, a') /\
    creation_date r = PStr (strftime (clock (now_calls a))) /\
    creation_date r <> PStr "" /\
    lookup "creation_date" (match to_dict r with PDict items => items | _ => [] end)
    = Some (PStr (strftime (clock (now_calls a)))).
Proof.
  intros Ht Hv Hp Hcd Habs Hsame.
  rewrite (from_dict_steps clock a present t v p Ht Hv Hp).
  rewrite (from_dict_steps clock a absent t v p)
    by (rewrite Hsame; [assumption | discriminate]).
  rewrite Hcd, Habs, !Hsame by discriminate. cbn [default].
  match goal with |- context [Reminder_init clock t ?dv p ?det ?c (PStr "") a] =>
    destruct (init_total clock a t p det c (PStr "") dv) as (r & a' & Hrun & _);
    assert (Heq : Reminder_init clock t dv p det c PNone a
                  = Reminder_init clock t dv p det c (PStr "") a) by reflexivity;
    rewrite Heq, Hrun
  end.
  exists r, a'. split; [reflexivity|]. split; [reflexivity|].
  assert (Hc : creation_date r = PStr (strftime (clock (now_calls a)))).
  { revert Hrun. unfold Reminder_init, bind, gets, modify, ret, datetime_now, messagebox.
    cbn. destruct v as [| | |s| |]; try destruct (strptime s); now intros [= <- _]. }
  split; [exact Hc|]. split.
  - rewrite Hc. intros H.
    pose proof (strftime_truthy (clock (now_calls a))) as Htr.
    rewrite H in Htr. discriminate.
  - cbn. exact (f_equal Some Hc).
Qed.

(** ** A load that fails late *)

(** C4.  A load can fail after the list has been assigned: the document
    [urgent_doc] is valid JSON and decodes, the list is replaced by the
    decoded record, and only then [_sort_reminders] raises [KeyError] on the
    priority "Urgent"; the handler reports "Load Error" although the two
    records held before are gone. *)
Theorem failed_load_replaces_collection :
  let a' := snd (_load_reminders_core clock_example "urgent.json" app_example) in
  dialogs a' = [showerror "Load Error"] /\
  reminders_list app_example = [milk; dentist] /\
  map task (reminders_list a') = [PStr "Pay rent"] /\
  current_filename a' = current_filename app_example.
Proof. vm_compute. repeat split. Qed.

Lemma canonical_order_after_every_mutation_witness :
  (exists a',
      _add_reminder_from_ui clock_example " Pay rent " "2025-02-01 10:00" "Medium" ""
                            app_example = (Ret tt, a') /\
      canonical_sort_of
        ([milk; dentist] ++
         [new_reminder clock_example app_example "Pay rent" "Medium" ""
                       (mkDatetime 2025 2 1 10 0 0 0)])
        (reminders_list a')) /\
  (exists a',
      _update_selected_reminder clock_example [1%nat] "Dentist" "2024-12-24 08:30"
                                "High" "ask for x-ray" app_example = (Ret tt, a') /\
      canonical_sort_of
        (update_at 1 (edit "Dentist" "High" "ask for x-ray"
                           (mkDatetime 2024 12 24 8 30 0 0)) [milk; dentist])
        (reminders_list a')) /\
  (exists a',
      _delete_selected_reminder clock_example [0%nat] true app_example = (Ret tt, a') /\
      canonical_sort_of (remove_at 0 [milk; dentist]) (reminders_list a')) /\
  (exists a',
      _toggle_complete_selected clock_example [0%nat] app_example = (Ret tt, a') /\
      canonical_sort_of (update_at 0 toggle [milk; dentist]) (reminders_list a')) /\
  (exists a',
      _load_reminders_core clock_example "saved.json" app_example = (Ret tt, a') /\
      canonical_sort_of decoded_example (reminders_list a')).
Proof.
  destruct (canonical_order_after_every_mutation clock_example app_example eq_refl)
    as (Hadd & Hupdate & Hdelete & Htoggle & Hload).
  repeat apply conj.
  - apply (Hadd " Pay rent " "2025-02-01 10:00" "Medium" "").
    + reflexivity.
    + reflexivity.
    + simpl. auto.
  - apply (Hupdate 1%nat [] "Dentist" "2024-12-24 08:30" "High" "ask for x-ray").
    + simpl. lia.
    + reflexivity.
    + reflexivity.
    + simpl. auto.
  - apply (Hdelete 0%nat []). simpl. lia.
  - apply (Htoggle 0%nat []). simpl. lia.
  - apply (Hload "saved.json" saved_doc decoded_example after_decode_example).
    + reflexivity.
    + vm_compute. reflexivity.
    + reflexivity.
Defined.


Lemma invalid_input_mutates_nothing_witness :
  let rejected := with_dialogs [showerror "Input Error"] app_example in
  _add_reminder_from_ui clock_example "   " "2025-02-01 10:00" "Medium" "" app_example
  = (Ret tt, rejected) /\
  (_update_selected_reminder clock_example [0%nat] "   " "2025-02-01 10:00" "Medium" ""
                             app_example
   = (Ret tt, rejected) /\
   nth_error (reminders_list rejected) 0 = Some milk) /\
  (_update_selected_reminder clock_example [0%nat] "Milk" "tomorrow" "Medium" ""
                             app_example
   = (Ret tt, rejected) /\
   nth_error (reminders_list rejected) 0 = Some milk) /\
  _add_reminder_from_ui clock_example no_break_spaces "2025-02-01 10:00" "Medium" ""
                        app_example
  = (Ret tt, rejected).
Proof.
  destruct (invalid_input_mutates_nothing clock_example app_example
              "   " "2025-02-01 10:00" "Medium" "" (or_introl eq_refl))
    as (Hadd & Hupdate & _).
  destruct (invalid_input_mutates_nothing clock_example app_example
              "Milk" "tomorrow" "Medium" "" (or_intror eq_refl))
    as (_ & Hupdate' & _).
  destruct (invalid_input_mutates_nothing clock_example app_example
              no_break_spaces "2025-02-01 10:00" "Medium" "" (or_introl eq_refl))
    as (Hadd' & _).
  repeat apply conj.
  - exact Hadd.
  - apply (Hupdate 0%nat [] milk). reflexivity.
  - apply (Hupdate 0%nat [] milk). reflexivity.
  - apply (Hupdate' 0%nat [] milk). reflexivity.
  - apply (Hupdate' 0%nat [] milk). reflexivity.
  - exact Hadd'.
Defined.

Lemma decode_encode_round_trip_witness :
  exists l' a',
    decode clock_example (encode [milk; dentist]) app_example = (Ret l', a') /\
    Forall2 same_fields [milk; dentist] l'.
Proof.
  apply (decode_encode_round_trip clock_example app_example [milk; dentist]).
  apply Forall_cons; [|apply Forall_cons; [|apply Forall_nil]];
    (split; [reflexivity | split; [cbn; lia | exists "2025-01-01 09:00"; reflexivity]]).
Defined.

Lemma encoded_due_dates_parse_witness :
  Forall (fun r =>
            lookup "due_date_str" (match to_dict r with PDict items => items | _ => [] end)
            = Some (PStr (strftime (due_date r))) /\
            strptime (strftime (due_date r)) = Some (to_minute (due_date r)))
         [milk; fallen_back] /\
  exists l' a',
    decode clock_example (encode [milk; fallen_back]) app_example = (Ret l', a') /\
    dialogs a' = dialogs app_example /\
    map due_date l' = map (fun r => to_minute (due_date r)) [milk; fallen_back].
Proof.
  apply (encoded_due_dates_parse clock_example app_example [milk; fallen_back]).
  repeat constructor; cbn; lia.
Defined.

Lemma unparsable_due_date_falls_back_witness :
  (exists r a',
      Reminder_init clock_example (PStr "Pay rent") (DueValue (PStr "not-a-date"))
                    (PStr "High") (PStr "") (PBool false) PNone app_example
      = (Ret r, a') /\
      due_now clock_example app_example a' r /\
      dialogs a' = dialogs app_example ++ [showwarning "Date Format Error"]) /\
  (exists l a',
      decode clock_example (PList [not_a_date_item; not_a_date_item]) app_example
      = (Ret l, a') /\
      Forall2 (fun item r => unparsable item -> due_now clock_example app_example a' r)
              [not_a_date_item; not_a_date_item] l).
Proof.
  destruct (unparsable_due_date_falls_back clock_example app_example)
    as (Hinit & Hdecode & Hnot).
  split.
  - apply Hinit. exact Hnot.
  - apply Hdecode. reflexivity.
Defined.

Lemma required_keys_and_defaults_witness :
  (exists key,
      from_dict clock_example (PDict no_priority) app_example
      = (Raise (KeyError (PStr key)), app_example)) /\
  (exists a',
      _load_reminders_core clock_example "broken.json" app_example = (Ret tt, a') /\
      reminders_list a' = reminders_list app_example /\
      last (dialogs a') (showinfo "") = showerror "Load Error") /\
  (exists r a',
      from_dict clock_example (PDict required_only) app_example = (Ret r, a') /\
      task r = PStr "Pay rent" /\ priority r = PStr "High" /\
      details r = PStr "" /\ is_completed r = PBool false /\
      creation_date r = PStr (strftime (clock_example 0))).
Proof.
  repeat apply conj.
  - apply (required_keys_and_defaults clock_example app_example no_priority).
    right. reflexivity.
  - apply (proj2 (proj1 (required_keys_and_defaults clock_example app_example
                           no_priority) (or_intror eq_refl))
                 "broken.json" [not_a_date_item] []).
    reflexivity.
  - destruct (proj2 (required_keys_and_defaults clock_example app_example required_only)
                _ _ _ eq_refl eq_refl eq_refl)
      as (r & a' & Hrun & Ht & Hp & Hdet & Hc & Hcd).
    exists r, a'. repeat apply conj; auto.
Defined.

Lemma update_in_place_keeps_creation_date_witness :
  let r' := edit "Dentist" "High" "ask for x-ray" (mkDatetime 2024 12 24 8 30 0 0)
                 dentist in
  exists a',
    _update_selected_reminder clock_example [1%nat] "Dentist" "2024-12-24 08:30"
                              "High" "ask for x-ray" app_example = (Ret tt, a') /\
    Permutation (update_at 1 (fun _ => r') [milk; dentist]) (reminders_list a') /\
    In r' (reminders_list a') /\
    oid r' = oid dentist /\ creation_date r' = creation_date dentist /\
    is_completed r' = is_completed dentist.
Proof.
  apply (proj1 (update_in_place_keeps_creation_date clock_example app_example)
               1%nat [] "Dentist" "2024-12-24 08:30" "High" "ask for x-ray").
  - reflexivity.
  - reflexivity.
  - reflexivity.
  - reflexivity.
  - simpl. auto.
Defined.

Lemma empty_creation_date_is_replaced_witness :
  exists r a',
    from_dict clock_example (PDict empty_creation_date) app_example = (Ret r, a') /\
    from_dict clock_example (PDict required_only) app_example = (Ret r, a') /\
    creation_date r = PStr (strftime (clock_example 0)) /\
    creation_date r <> PStr "" /\
    lookup "creation_date" (match to_dict r with PDict items => items | _ => [] end)
    = Some (PStr (strftime (clock_example 0))).
Proof.
  apply (empty_creation_date_is_replaced clock_example app_example
           empty_creation_date required_only
           (PStr "Pay rent") (PStr "2025-02-01 10:00") (PStr "High")).
  - reflexivity.
  - reflexivity.
  - reflexivity.
  - reflexivity.
  - reflexivity.
  - intros key Hkey. apply String.eqb_neq in Hkey.
    unfold empty_creation_date, required_only. simpl.
    rewrite Hkey. reflexivity.
Defined.

(** * More of the application *)

(** ** The sort computes the one canonical order *)

Lemma same_keys_refl (r : Reminder) : same_keys r r = true.
Proof. now apply same_keys_zkey. Qed.

Lemma canonical_le_antisym (x y : Reminder) :
  canonical_le x y -> canonical_le y x -> same_keys x y = true.
Proof.
  unfold canonical_le. rewrite !canonical_leb_lex, !negb_true_iff. intros Hyx Hxy.
  apply same_keys_zkey. now apply lex_total.
Qed.

Lemma canonical_le_refl (x : Reminder) : canonical_le x x.
Proof.
  unfold canonical_le. rewrite canonical_leb_lex, lex_irrefl. reflexivity.
Qed.

Lemma sorted_head_le (x : Reminder) (l : list Reminder) (y : Reminder) :
  StronglySorted canonical_le (x :: l) -> In y (x :: l) -> canonical_le x y.
Proof.
  intros Hs [<- | Hy]; [apply canonical_le_refl|].
  inversion Hs as [|? ? _ Hall]; subst. rewrite Forall_forall in Hall. now apply Hall.
Qed.

(** Two lists of the same records, both in canonical order and with the
    records of equal keys in the same order, are equal. *)
Lemma stable_order_unique (l1 l2 : list Reminder) :
  Permutation l1 l2 ->
  StronglySorted canonical_le l1 -> StronglySorted canonical_le l2 ->
  (forall r, filter (same_keys r) l1 = filter (same_keys r) l2) ->
  l1 = l2.
Proof.
  revert l2. induction l1 as [|x t1 IH]; intros l2 Hperm Hs1 Hs2 Hf.
  - apply Permutation_nil in Hperm. now subst.
  - destruct l2 as [|y t2].
    { apply Permutation_sym, Permutation_nil in Hperm. discriminate. }
    assert (Hxy : same_keys x y = true).
    { apply canonical_le_antisym.
      - apply (sorted_head_le x t1 y Hs1).
        apply (Permutation_in y (Permutation_sym Hperm)). now left.
      - apply (sorted_head_le y t2 x Hs2).
        apply (Permutation_in x Hperm). now left. }
    pose proof (Hf x) as Hfx. cbn [filter] in Hfx.
    rewrite same_keys_refl, Hxy in Hfx. injection Hfx as <- _.
    f_equal. apply IH.
    + now apply Permutation_cons_inv in Hperm.
    + now inversion Hs1.
    + now inversion Hs2.
    + intros r. specialize (Hf r). cbn [filter] in Hf.
      destruct (same_keys r x); [now injection Hf | exact Hf].
Qed.

Lemma canonical_sort_unique (l l1 l2 : list Reminder) :
  canonical_sort_of l l1 -> canonical_sort_of l l2 -> l1 = l2.
Proof.
  intros (Hp1 & Hs1 & Hf1) (Hp2 & Hs2 & Hf2). apply stable_order_unique; auto.
  - now rewrite <- Hp1.
  - intros r. now rewrite Hf1, Hf2.
Qed.

Lemma with_list_same (a : App) : with_list (reminders_list a) a = a.
Proof. now destruct a. Qed.

Lemma sort_reminders_is (a : App) (l' : list Reminder) :
  all_valid (reminders_list a) ->
  canonical_sort_of (reminders_list a) l' ->
  _sort_reminders a = (Ret tt, with_list l' a).
Proof.
  intros Hv Hcan. destruct (sort_reminders_valid a Hv) as (l'' & Hrun & Hcan' & _).
  now rewrite (canonical_sort_unique _ _ _ Hcan Hcan').
Qed.

Lemma sorted_is_canonical (l : list Reminder) :
  StronglySorted canonical_le l -> canonical_sort_of l l.
Proof. intros Hs. repeat split; auto. Qed.

Lemma sort_reminders_sorted (a : App) :
  all_valid (reminders_list a) -> StronglySorted canonical_le (reminders_list a) ->
  _sort_reminders a = (Ret tt, a).
Proof.
  intros Hv Hs. rewrite (sort_reminders_is a _ Hv (sorted_is_canonical _ Hs)).
  now rewrite with_list_same.
Qed.

(** X1.  On valid records [_sort_reminders] returns, and what it leaves is
    the only list that holds the same records, is in canonical order and
    keeps records of equal keys in the order they had: any list with these
    three properties is the list after the sort. *)
Theorem sort_reminders_yields_the_canonical_sort (a : App) (l' : list Reminder) :
  forallb valid_reminder (reminders_list a) = true ->
  canonical_sort_of (reminders_list a) l' ->
  _sort_reminders a = (Ret tt, with_list l' a).
Proof. intros Hv. apply all_valid_forallb in Hv. now apply sort_reminders_is. Qed.

Lemma sort_reminders_yields_the_canonical_sort_witness :
  _sort_reminders (with_list [dentist; milk] app_example) =
  (Ret tt, with_list [milk; dentist] (with_list [dentist; milk] app_example)).
Proof.
  apply (sort_reminders_yields_the_canonical_sort
           (with_list [dentist; milk] app_example) [milk; dentist]).
  - reflexivity.
  - split; [apply perm_swap|]. split; [repeat constructor|].
    intros r. cbn [filter with_list reminders_list].
    destruct (same_keys r milk) eqn:Hm, (same_keys r dentist) eqn:Hd;
      try reflexivity.
    unfold same_keys in Hm, Hd.
    apply andb_true_iff in Hm as [_ Hm]. apply andb_true_iff in Hd as [_ Hd].
    apply Z.eqb_eq in Hm, Hd. rewrite Hm in Hd. discriminate Hd.
Defined.

(** X2.  Sorting is idempotent: on valid records a second [_sort_reminders]
    changes nothing, and a list that is already in canonical order is left
    exactly as it is. *)
Theorem sort_reminders_idempotent (a : App) :
  forallb valid_reminder (reminders_list a) = true ->
  (_sort_reminders ;;; _sort_reminders) a = _sort_reminders a /\
  (StronglySorted canonical_le (reminders_list a) -> _sort_reminders a = (Ret tt, a)).
Proof.
  intros Hv. apply all_valid_forallb in Hv. split.
  - destruct (sort_reminders_valid a Hv) as (l' & Hrun & (_ & Hs & _) & Hv').
    unfold bind. rewrite Hrun.
    now rewrite (sort_reminders_sorted (with_list l' a) Hv' Hs).
  - now apply sort_reminders_sorted.
Qed.

Lemma sort_reminders_idempotent_witness :
  (_sort_reminders ;;; _sort_reminders) (with_list [dentist; milk] app_example) =
  _sort_reminders (with_list [dentist; milk] app_example) /\
  (StronglySorted canonical_le [dentist; milk] ->
   _sort_reminders (with_list [dentist; milk] app_example) =
   (Ret tt, with_list [dentist; milk] app_example)).
Proof.
  apply (sort_reminders_idempotent (with_list [dentist; milk] app_example)).
  reflexivity.
Defined.

(** ** A priority the application does not know *)

Lemma key_of_unknown (r : Reminder) :
  known_priority r = false -> exists e, key_of r = Raise e.
Proof.
  unfold known_priority, key_of, priority_rank.
  destruct (priority r) as [| | |s| |]; try (intros _; eexists; reflexivity).
  cbn [existsb PRIORITY_LEVELS]. rewrite !orb_false_iff. intros (H1 & H2 & H3 & _).
  cbn. rewrite H1, H2, H3. eexists; reflexivity.
Qed.

Lemma sort_reminders_unknown (a : App) (r : Reminder) :
  In r (reminders_list a) -> known_priority r = false ->
  exists e, _sort_reminders a = (Raise e, a).
Proof.
  intros Hin Hr. destruct (key_of_unknown r Hr) as (e & He).
  destruct (in_split _ _ Hin) as (before & after & Hl).
  destruct (comprehension_raises (fun r => lift (key_of r)) before after r a)
    as (e' & a' & Hrun).
  { intros b. exists e, b. unfold lift. now rewrite He. }
  pose proof (proj1 (comprehension_lift key_of (reminders_list a) a)) as Hstate.
  rewrite Hl, Hrun in Hstate. cbn in Hstate. subst a'.
  exists e'. unfold _sort_reminders, bind at 1. cbn [gets]. unfold bind at 1.
  rewrite Hl, Hrun. reflexivity.
Qed.

Lemma update_at_length {A} (i : nat) (f : A -> A) (l : list A) :
  List.length (update_at i f l) = List.length l.
Proof. revert i. induction l as [|x l IH]; intros [|i]; cbn; auto. Qed.

Lemma update_at_keeps_some {A} (P : A -> Prop) (i : nat) (f : A -> A) (l : list A) (x : A) :
  (forall y, P y -> P (f y)) -> In x l -> P x -> exists y, In y (update_at i f l) /\ P y.
Proof.
  intros Hf. revert i. induction l as [|z l IH]; intros i Hin Hx; [destruct Hin|].
  destruct Hin as [<- | Hin].
  - destruct i; cbn; eauto.
  - destruct (IH (pred i) Hin Hx) as (y & Hy & Py).
    destruct i; cbn; [exists x; auto | exists y; auto].
Qed.

(** X3.  A record whose priority is not one of PRIORITY_LEVELS stops every
    sort: [_sort_reminders] raises and leaves the state as it is.  A later
    Add or Toggle therefore does its change and then raises: the new record
    is appended, or the flag is set, but the list is not put in order and
    the tree is not refreshed. *)
Theorem unknown_priority_stops_the_sort (clock : nat -> datetime) (a : App)
    (r : Reminder) :
  In r (reminders_list a) -> known_priority r = false ->
  (exists e, _sort_reminders a = (Raise e, a)) /\
  (forall task_entry due_date_entry priority_var details_text due,
      String.eqb (strip task_entry) "" = false ->
      strptime (strip due_date_entry) = Some due ->
      exists e,
        _add_reminder_from_ui clock task_entry due_date_entry priority_var
                              details_text a
        = (Raise e,
           with_list (reminders_list a ++
                      [new_reminder clock a (strip task_entry) priority_var
                                    (strip details_text) due])
             (with_now_calls (S (now_calls a)) (with_objects (S (objects a)) a)))) /\
  (forall i sel,
      (i < List.length (reminders_list a))%nat ->
      exists e,
        _toggle_complete_selected clock (i :: sel) a
        = (Raise e, with_list (update_at i toggle (reminders_list a)) a)).
Proof.
  intros Hin Hr. split; [now apply (sort_reminders_unknown a r)|]. split.
  - intros t d p det due Ht Hd. apply String.eqb_neq in Ht.
    rewrite (add_steps clock a t d p det due Ht Hd).
    match goal with |- context [with_list ?l ?b] =>
      destruct (sort_reminders_unknown (with_list l b) r) as (e & He)
    end; [cbn; apply in_or_app; now left | exact Hr |].
    exists e. unfold bind. now rewrite He.
  - intros i sel Hi. rewrite (toggle_steps clock a i sel Hi).
    destruct (update_at_keeps_some (fun x => known_priority x = false) i toggle
                (reminders_list a) r) as (y & Hy & Py); auto.
    destruct (sort_reminders_unknown
                (with_list (update_at i toggle (reminders_list a)) a) y Hy Py)
      as (e & He).
    exists e. unfold bind. now rewrite He.
Qed.

Lemma unknown_priority_stops_the_sort_witness :
  (exists e, _sort_reminders app_urgent = (Raise e, app_urgent)) /\
  (exists e,
      _add_reminder_from_ui clock_example "Walk dog" "2025-01-02 07:00" "Low" ""
                            app_urgent
      = (Raise e,
         with_list ([rent; milk] ++
                    [new_reminder clock_example app_urgent "Walk dog" "Low" ""
                                  (mkDatetime 2025 1 2 7 0 0 0)])
           (with_now_calls 1 (with_objects 4 app_urgent)))) /\
  (exists e,
      _toggle_complete_selected clock_example [1%nat] app_urgent
      = (Raise e, with_list (update_at 1 toggle [rent; milk]) app_urgent)).
Proof.
  destruct (unknown_priority_stops_the_sort clock_example app_urgent rent)
    as (Hsort & Hadd & Htoggle).
  - simpl. auto.
  - reflexivity.
  - repeat apply conj.
    + exact Hsort.
    + apply (Hadd "Walk dog" "2025-01-02 07:00" "Low" ""); reflexivity.
    + apply (Htoggle 1%nat []). simpl. lia.
Defined.

(** ** Nothing selected *)

Lemma nothing_selected (sel : list nat) (a : App) :
  sel = [] \/ (exists i rest, sel = i :: rest /\
                              (List.length (reminders_list a) <= i)%nat) ->
  _get_selected_reminder_object sel a = (Ret None, a).
Proof.
  intros [-> | (i & rest & -> & Hi)]; [reflexivity|].
  unfold _get_selected_reminder_object, bind, gets.
  apply Nat.ltb_ge in Hi. now rewrite Hi.
Qed.

(** X4.  With no row selected, or with a selection that points past the
    end of the list, Update, Delete and Toggle only open their information
    dialog and Load for Edit does nothing: the state is otherwise what it
    was, whatever the entries hold and whatever is answered to the
    confirmation. *)
Theorem no_selection_changes_nothing (clock : nat -> datetime) (a : App)
    (sel : list nat) :
  sel = [] \/ (exists i rest, sel = i :: rest /\
                              (List.length (reminders_list a) <= i)%nat) ->
  let told title := (Ret tt, with_dialogs (dialogs a ++ [showinfo title]) a) in
  (forall task_entry due_date_entry priority_var details_text,
      _update_selected_reminder clock sel task_entry due_date_entry priority_var
                                details_text a = told "Update") /\
  (forall askyesno, _delete_selected_reminder clock sel askyesno a = told "Delete") /\
  _toggle_complete_selected clock sel a = told "Toggle Complete" /\
  _load_selected_for_editing sel a = (Ret tt, a).
Proof.
  intros Hsel told. pose proof (nothing_selected sel a Hsel) as Hnone.
  repeat split; intros;
    unfold _update_selected_reminder, _delete_selected_reminder,
      _toggle_complete_selected, _load_selected_for_editing;
    unfold bind at 1; rewrite Hnone; reflexivity.
Qed.

Lemma no_selection_changes_nothing_witness :
  let told title :=
    (Ret tt, with_dialogs (dialogs app_example ++ [showinfo title]) app_example) in
  _update_selected_reminder clock_example [2%nat] "Milk" "2025-01-01 09:00" "High" ""
                            app_example = told "Update" /\
  _delete_selected_reminder clock_example [2%nat] true app_example = told "Delete" /\
  _toggle_complete_selected clock_example [] app_example = told "Toggle Complete" /\
  _load_selected_for_editing [7%nat] app_example = (Ret tt, app_example).
Proof.
  assert (Hstale : forall i, (2 <= i)%nat ->
             [i] = [] \/ (exists j rest, [i] = j :: rest /\
                          (List.length (reminders_list app_example) <= j)%nat))
    by (intros i Hi; right; exists i, []; split; [reflexivity | exact Hi]).
  repeat apply conj.
  - apply (no_selection_changes_nothing clock_example app_example [2%nat]).
    apply Hstale. lia.
  - apply (no_selection_changes_nothing clock_example app_example [2%nat]).
    apply Hstale. lia.
  - apply (no_selection_changes_nothing clock_example app_example []).
    left. reflexivity.
  - apply (no_selection_changes_nothing clock_example app_example [7%nat]).
    apply Hstale. lia.
Defined.

(** ** Deleting *)

Lemma remove_at_sorted {A} (R : A -> A -> Prop) (i : nat) (l : list A) :
  StronglySorted R l -> StronglySorted R (remove_at i l).
Proof.
  intros Hs. revert i. induction Hs as [|x l Hs IH Hall]; intros [|i]; cbn;
    try constructor; auto.
  now apply remove_at_Forall.
Qed.

Lemma remove_at_length {A} (i : nat) (l : list A) :
  (i < List.length l)%nat -> S (List.length (remove_at i l)) = List.length l.
Proof.
  revert i. induction l as [|x l IH]; intros [|i]; cbn; try lia.
  intros Hi. rewrite IH; lia.
Qed.

(** X5.  On a valid list in canonical order, a confirmed Delete removes
    exactly the selected record: the others stay, in the order they had,
    and no dialog is opened.  A declined Delete leaves the whole state as it
    was. *)
Theorem delete_removes_the_selected_record (clock : nat -> datetime) (a : App)
    (i : nat) (sel : list nat) :
  forallb valid_reminder (reminders_list a) = true ->
  StronglySorted canonical_le (reminders_list a) ->
  (i < List.length (reminders_list a))%nat ->
  (exists a',
      _delete_selected_reminder clock (i :: sel) true a = (Ret tt, a') /\
      reminders_list a' = remove_at i (reminders_list a) /\
      S (List.length (reminders_list a')) = List.length (reminders_list a) /\
      dialogs a' = dialogs a) /\
  _delete_selected_reminder clock (i :: sel) false a = (Ret tt, a).
Proof.
  intros Hv Hs Hi. apply all_valid_forallb in Hv. split.
  - rewrite (delete_steps clock a i sel Hi).
    destruct (sort_refresh_clear clock (with_list (remove_at i (reminders_list a)) a))
      as (a' & Hrun & Hcan & _ & Hd).
    { now apply remove_at_Forall. }
    cbn [reminders_list with_list] in Hcan.
    assert (Hl : reminders_list a' = remove_at i (reminders_list a)).
    { apply (canonical_sort_unique (remove_at i (reminders_list a))); [exact Hcan|].
      apply sorted_is_canonical. now apply remove_at_sorted. }
    exists a'. repeat split; auto. rewrite Hl. now apply remove_at_length.
  - unfold _delete_selected_reminder. unfold bind at 1.
    now rewrite (selected_index i sel a Hi).
Qed.

Lemma delete_removes_the_selected_record_witness :
  (exists a',
      _delete_selected_reminder clock_example [0%nat] true app_example = (Ret tt, a') /\
      reminders_list a' = remove_at 0 [milk; dentist] /\
      S (List.length (reminders_list a')) = 2%nat /\
      dialogs a' = dialogs app_example) /\
  _delete_selected_reminder clock_example [0%nat] false app_example
  = (Ret tt, app_example).
Proof.
  apply (delete_removes_the_selected_record clock_example app_example 0 []).
  - reflexivity.
  - repeat constructor.
  - simpl. lia.
Defined.

(** X6.  Delete All and New, once confirmed, return with an empty list and
    an empty tree from any state, also one whose records cannot be sorted
    or shown; New makes DEFAULT_FILENAME the current file as well, Delete
    All keeps the current file.  Declined, both leave the state as it was. *)
Theorem clearing_empties_list_and_tree (clock : nat -> datetime) (a : App) :
  _delete_all_reminders clock true a
  = (Ret tt, with_now_calls (S (now_calls a)) (with_tree [] (with_list [] a))) /\
  _clear_all_fields_and_list clock true a
  = (Ret tt, with_filename DEFAULT_FILENAME
               (with_tree [] (with_list [] (with_now_calls (S (now_calls a)) a)))) /\
  _delete_all_reminders clock false a = (Ret tt, a) /\
  _clear_all_fields_and_list clock false a = (Ret tt, a).
Proof. repeat split. Qed.

(** ** Saving *)

Lemma save_run (a : App) (filename : option string) :
  let f := match filename with Some f => f | None => current_filename a end in
  _save_reminders filename a
  = (Ret tt,
     if String.eqb f "" then with_dialogs (dialogs a ++ [showerror "Save Error"]) a
     else match find_file f (disk a) with
          | Denied => with_dialogs (dialogs a ++ [showerror "Save Error"]) a
          | _ => with_filename f
                   (with_disk ((f, Doc (encode (reminders_list a))) :: disk a) a)
          end).
Proof.
  intros f. unfold _save_reminders.
  assert (Hname : (match filename with
                   | None => gets current_filename
                   | Some f0 => ret f0
                   end) a = (Ret f, a)) by (destruct filename; reflexivity).
  unfold bind at 1. rewrite Hname.
  destruct (String.eqb f ""); [reflexivity|].
  cbv beta iota delta [try bind gets json_dump modify raise messagebox ret].
  destruct (find_file f (disk a)); reflexivity.
Qed.

Lemma find_file_written (f : string) (x : file) (d : list (string * file)) :
  find_file f ((f, x) :: d) = x.
Proof. unfold find_file. cbn. now rewrite String.eqb_refl. Qed.

(** X7.  [_save_reminders] always returns and never changes the list.  With
    a file name that is not empty and a file that can be written, the file
    then holds [encode] of the list and becomes the current file; otherwise
    the "Save Error" dialog is opened and neither the files nor the current
    file name change. *)
Theorem save_writes_or_reports (a : App) (filename : option string) :
  let f := match filename with Some f => f | None => current_filename a end in
  exists a',
    _save_reminders filename a = (Ret tt, a') /\
    reminders_list a' = reminders_list a /\
    (String.eqb f "" = false -> find_file f (disk a) <> Denied ->
       find_file f (disk a') = Doc (encode (reminders_list a)) /\
       current_filename a' = f /\ dialogs a' = dialogs a) /\
    (String.eqb f "" = true \/ find_file f (disk a) = Denied ->
       a' = with_dialogs (dialogs a ++ [showerror "Save Error"]) a).
Proof.
  intros f. eexists. split; [apply save_run|]. fold f.
  destruct (String.eqb f "") eqn:Hf.
  - repeat split; intros; try discriminate; reflexivity.
  - destruct (find_file f (disk a)) eqn:Hfile; repeat split; intros;
      try congruence; try apply find_file_written;
      try (destruct H; discriminate).
Qed.

Lemma save_writes_or_reports_witness :
  (exists a',
      _save_reminders (Some "new.json") app_example = (Ret tt, a') /\
      find_file "new.json" (disk a') = Doc (encode [milk; dentist]) /\
      current_filename a' = "new.json" /\ dialogs a' = dialogs app_example) /\
  (exists a',
      _save_reminders (Some "") app_example = (Ret tt, a') /\
      a' = with_dialogs [showerror "Save Error"] app_example).
Proof.
  split.
  - destruct (save_writes_or_reports app_example (Some "new.json"))
      as (a' & Hrun & _ & Hok & _).
    exists a'. split; [exact Hrun|]. apply Hok; [reflexivity | discriminate].
  - destruct (save_writes_or_reports app_example (Some ""))
      as (a' & Hrun & _ & _ & Hbad).
    exists a'. split; [exact Hrun|]. apply Hbad. left. reflexivity.
Defined.

(** ** Opening a file *)

Lemma load_returns (clock : nat -> datetime) (filename : string) (a : App) :
  fst (_load_reminders_core clock filename a) = Ret tt.
Proof.
  unfold _load_reminders_core, try.
  match goal with |- context [bind ?m ?k a] => destruct (bind m k a) as [[[]|e] a1] end;
    [reflexivity|]. destruct e; reflexivity.
Qed.

(** X8.  Opening a file that is missing, cannot be read, is not JSON, or
    whose top-level value is [null], a boolean or a number only opens the
    "Load Error" dialog: list, tree, files, current file name and clock are
    what they were.  When an element of the top-level array is not an
    object the load fails as well, with the list untouched. *)
Theorem open_failure_leaves_the_list (clock : nat -> datetime) (a : App)
    (filename : string) :
  (match find_file filename (disk a) with
   | Missing | Denied | Garbage | Doc PNone | Doc (PBool _) | Doc (PInt _) => True
   | _ => False
   end ->
   _load_reminders_core clock filename a
   = (Ret tt, with_dialogs (dialogs a ++ [showerror "Load Error"]) a)) /\
  (forall before after x,
      find_file filename (disk a) = Doc (PList (before ++ x :: after)) ->
      (forall items, x <> PDict items) ->
      exists a',
        _load_reminders_core clock filename a = (Ret tt, a') /\
        reminders_list a' = reminders_list a /\
        last (dialogs a') (showinfo "") = showerror "Load Error").
Proof.
  split.
  - intros H. destruct (find_file filename (disk a)) as [| | |v] eqn:Hf;
      try (apply load_unreadable; intros doc; rewrite Hf; discriminate).
    destruct v; try destruct H;
      unfold _load_reminders_core, try; unfold bind at 1;
      unfold json_load at 1; unfold bind at 1; cbn [gets]; rewrite Hf; reflexivity.
  - intros before after x Hf Hx.
    destruct (comprehension_raises (from_dict clock) before after x a) as (e & a1 & He).
    { intros b. exists TypeError, b. unfold from_dict, getitem, bind.
      destruct x; try reflexivity. now destruct (Hx items). }
    destruct (load_decode_raises clock a a1 filename _ e Hf) as [Hrun Hlist].
    { unfold decode. unfold bind at 1. cbn [iterate ret]. exact He. }
    eexists. split; [exact Hrun|]. split; [exact Hlist|].
    cbn [dialogs with_dialogs]. apply last_last.
Qed.

Lemma open_failure_leaves_the_list_witness :
  _load_reminders_core clock_example "nowhere.json" app_files
  = (Ret tt, with_dialogs [showerror "Load Error"] app_files) /\
  _load_reminders_core clock_example "locked.json" app_files
  = (Ret tt, with_dialogs [showerror "Load Error"] app_files) /\
  (exists a',
      _load_reminders_core clock_example "mixed.json" app_files = (Ret tt, a') /\
      reminders_list a' = reminders_list app_files /\
      last (dialogs a') (showinfo "") = showerror "Load Error").
Proof.
  repeat apply conj.
  - apply (proj1 (open_failure_leaves_the_list clock_example app_files "nowhere.json")).
    exact I.
  - apply (proj1 (open_failure_leaves_the_list clock_example app_files "locked.json")).
    exact I.
  - apply (proj2 (open_failure_leaves_the_list clock_example app_files "mixed.json")
                 [not_a_date_item] [] (PStr "x")).
    + reflexivity.
    + discriminate.
Defined.

(** X9.  A document whose top-level value is an empty array, an empty
    object or an empty string loads without any error: the list and the
    tree become empty and the file becomes the current one, whatever the
    list held before. *)
Theorem open_of_an_empty_document (clock : nat -> datetime) (a : App)
    (filename : string) :
  find_file filename (disk a) = Doc (PList []) \/
  find_file filename (disk a) = Doc (PDict []) \/
  find_file filename (disk a) = Doc (PStr "") ->
  _load_reminders_core clock filename a
  = (Ret tt, with_filename filename (with_tree [] (with_list [] a))).
Proof.
  intros [Hf | [Hf | Hf]];
    unfold _load_reminders_core, try; unfold bind at 1;
    unfold json_load at 1; unfold bind at 1; cbn [gets]; rewrite Hf; reflexivity.
Qed.

Lemma open_of_an_empty_document_witness :
  _load_reminders_core clock_example "empty.json" app_files
  = (Ret tt, with_filename "empty.json" (with_tree [] (with_list [] app_files))).
Proof.
  apply (open_of_an_empty_document clock_example app_files "empty.json").
  right. left. reflexivity.
Defined.

(** X10.  At start-up a missing default file is passed over in silence,
    the state staying as it is, where Open reports the same missing file
    with "Load Error"; a default file that can be opened is loaded exactly
    as Open loads it, and one that cannot be opened only gives the "Load
    Error" dialog. *)
Theorem startup_loads_the_default_file (clock : nat -> datetime) (a : App) :
  (find_file DEFAULT_FILENAME (disk a) = Missing ->
   _load_reminders_on_startup clock a = (Ret tt, a) /\
   _load_reminders_core clock DEFAULT_FILENAME a
   = (Ret tt, with_dialogs (dialogs a ++ [showerror "Load Error"]) a)) /\
  (find_file DEFAULT_FILENAME (disk a) = Denied ->
   _load_reminders_on_startup clock a
   = (Ret tt, with_dialogs (dialogs a ++ [showerror "Load Error"]) a)) /\
  (find_file DEFAULT_FILENAME (disk a) <> Missing ->
   find_file DEFAULT_FILENAME (disk a) <> Denied ->
   _load_reminders_on_startup clock a = _load_reminders_core clock DEFAULT_FILENAME a).
Proof.
  repeat split.
  - unfold _load_reminders_on_startup, try, bind, gets. now rewrite H.
  - apply load_unreadable. intros doc. rewrite H. discriminate.
  - intros H. unfold _load_reminders_on_startup, try, bind, gets. now rewrite H.
  - intros Hm Hd. unfold _load_reminders_on_startup, try. unfold bind at 1. cbn [gets].
    pose proof (load_returns clock DEFAULT_FILENAME a) as Hret.
    destruct (find_file DEFAULT_FILENAME (disk a)); try congruence;
      destruct (_load_reminders_core clock DEFAULT_FILENAME a) as [[[]|e] a1];
      cbn in Hret; try discriminate; reflexivity.
Qed.

Lemma startup_loads_the_default_file_witness :
  (_load_reminders_on_startup clock_example app_example = (Ret tt, app_example) /\
   _load_reminders_core clock_example DEFAULT_FILENAME app_example
   = (Ret tt, with_dialogs [showerror "Load Error"] app_example)) /\
  _load_reminders_on_startup clock_example app_locked
  = (Ret tt, with_dialogs [showerror "Load Error"] app_locked) /\
  _load_reminders_on_startup clock_example app_files
  = _load_reminders_core clock_example DEFAULT_FILENAME app_files.
Proof.
  repeat apply conj.
  - apply (proj1 (startup_loads_the_default_file clock_example app_example)).
    reflexivity.
  - apply (proj1 (startup_loads_the_default_file clock_example app_example)).
    reflexivity.
  - apply (proj1 (proj2 (startup_loads_the_default_file clock_example app_locked))).
    reflexivity.
  - apply (proj2 (proj2 (startup_loads_the_default_file clock_example app_files)));
      discriminate.
Defined.

(** ** Saving and opening again *)

Lemma reload_In (o : nat) (l : list Reminder) (y : Reminder) :
  In y (reload o l) -> exists r o', In r l /\ y = reloaded o' r.
Proof.
  revert o. induction l as [|x l IH]; intros o; cbn; [easy|].
  intros [<- | Hy]; [exists x, o; auto|].
  destruct (IH (S o) Hy) as (r & o' & Hr & ->). exists r, o'. auto.
Qed.

Lemma reloaded_le (o o' : nat) (x y : Reminder) :
  to_minute (due_date x) = due_date x -> to_minute (due_date y) = due_date y ->
  canonical_le x y -> canonical_le (reloaded o x) (reloaded o' y).
Proof.
  unfold canonical_le, canonical_leb, completed, rank, reloaded. cbn.
  now intros -> ->.
Qed.

Lemma reload_sorted (l : list Reminder) :
  Forall (fun r => to_minute (due_date r) = due_date r) l ->
  StronglySorted canonical_le l ->
  forall o, StronglySorted canonical_le (reload o l).
Proof.
  intros Hm Hs. induction Hs as [|x l Hs IH Hall]; intros o; cbn; constructor.
  - apply IH. now inversion Hm.
  - inversion Hm as [|? ? Hx Hl]; subst.
    rewrite Forall_forall in *. intros y Hy.
    destruct (reload_In _ _ _ Hy) as (r & o' & Hr & ->).
    apply reloaded_le; auto.
Qed.

Lemma ui_record_reloaded (o : nat) (r : Reminder) :
  ui_record r -> ui_record (reloaded o r).
Proof.
  intros (Hv & Hc & s & Hs). repeat split; auto.
  exists s. cbn. now rewrite (proj2 (strptime_valid s _ Hs)).
Qed.

Lemma ui_records_valid (l : list Reminder) : Forall ui_record l -> all_valid l.
Proof. apply Forall_impl. now intros r (Hv & _). Qed.

Lemma load_steps_dialogs (clock : nat -> datetime) (a a1 : App) (filename : string)
    (doc : pyval) (decoded : list Reminder) :
  find_file filename (disk a) = Doc doc ->
  decode clock doc a = (Ret decoded, a1) ->
  all_valid decoded ->
  exists a2,
    _load_reminders_core clock filename a = (Ret tt, with_filename filename a2) /\
    canonical_sort_of decoded (reminders_list a2) /\
    dialogs a2 = dialogs a1.
Proof.
  intros Hf Hdec Hv.
  destruct (sort_and_refresh clock (with_list decoded a1) Hv)
    as (a2 & Hrun & Hcan & _ & Hd).
  exists a2. split; [|split; assumption].
  unfold _load_reminders_core, try. unfold bind at 1.
  unfold json_load at 1. unfold bind at 1. cbn [gets]. rewrite Hf. cbn [ret].
  unfold bind at 1. rewrite Hdec.
  unfold bind at 1. cbn [modify].
  unfold bind in Hrun. unfold bind.
  destruct (_sort_reminders (with_list decoded a1)) as [[[]|e] a3]; [|discriminate].
  rewrite Hrun. reflexivity.
Qed.

(** X11.  Save followed by Open of the same file gives the list back: when
    the records are valid, in canonical order, and have the creation and
    due dates that the handlers give them, no due date before the year
    1000, the list after Open has the same records in the same order, equal
    in all six fields; the file is the current one, no dialog was opened,
    and the new state is again of that kind. *)
Theorem save_then_open_restores_the_list (clock : nat -> datetime) (a : App)
    (f : string) :
  String.eqb f "" = false ->
  find_file f (disk a) <> Denied ->
  ui_state a ->
  Forall (fun r => 1000 <= year (due_date r)) (reminders_list a) ->
  exists a1 a2,
    _save_reminders (Some f) a = (Ret tt, a1) /\
    _load_reminders_core clock f a1 = (Ret tt, a2) /\
    Forall2 same_fields (reminders_list a) (reminders_list a2) /\
    current_filename a2 = f /\
    dialogs a2 = dialogs a /\
    ui_state a2.
Proof.
  intros Hname Hfile [Hui Hsorted] Hyears.
  set (a1 := with_filename f
               (with_disk ((f, Doc (encode (reminders_list a))) :: disk a) a)).
  assert (Hsave' : _save_reminders (Some f) a = (Ret tt, a1)).
  { rewrite (save_run a (Some f)). cbv zeta. rewrite Hname.
    destruct (find_file f (disk a)); try reflexivity. congruence. }
  assert (Hparsed : Forall (fun r => valid_datetime (due_date r) = true /\
                                     1000 <= year (due_date r) /\
                                     truthy (creation_date r) = true)
                           (reminders_list a)).
  { rewrite Forall_forall in *. intros r Hr.
    destruct (Hui r Hr) as (_ & Hc & s & Hs).
    split; [apply (strptime_valid s _ Hs) | split; [now apply Hyears | exact Hc]]. }
  assert (Hminute : Forall (fun r => to_minute (due_date r) = due_date r)
                           (reminders_list a)).
  { eapply Forall_impl; [|exact Hui]. intros r (_ & _ & s & Hs).
    apply (strptime_valid s _ Hs). }
  pose proof (decode_encode clock (reminders_list a) a1 Hparsed) as Hdec.
  set (l2 := reload (objects a1) (reminders_list a)) in *.
  assert (Hui2 : Forall ui_record l2).
  { rewrite Forall_forall in *. intros y Hy.
    destruct (reload_In _ _ _ Hy) as (r & o' & Hr & ->).
    apply ui_record_reloaded. now apply Hui. }
  assert (Hsorted2 : StronglySorted canonical_le l2) by now apply reload_sorted.
  destruct (load_steps_dialogs clock a1 _ f (encode (reminders_list a)) l2
              (find_file_written f _ _) Hdec (ui_records_valid _ Hui2))
    as (a2 & Hload & Hcan & Hd).
  assert (Hl2 : reminders_list a2 = l2)
    by (apply (canonical_sort_unique l2); [exact Hcan | now apply sorted_is_canonical]).
  exists a1, (with_filename f a2). split; [exact Hsave'|]. split; [exact Hload|].
  unfold ui_state.
  cbn [reminders_list current_filename dialogs with_filename]. rewrite Hl2.
  repeat split; auto.
  subst l2. generalize (objects a1). clear - Hminute.
    induction Hminute as [|r l Hr _ IH]; intros o; cbn [reload]; constructor; auto.
    unfold same_fields, reloaded. cbn. rewrite Hr. repeat split.
Qed.

Lemma save_then_open_restores_the_list_witness :
  exists a1 a2,
    _save_reminders (Some "new.json") app_example = (Ret tt, a1) /\
    _load_reminders_core clock_example "new.json" a1 = (Ret tt, a2) /\
    Forall2 same_fields [milk; dentist] (reminders_list a2) /\
    current_filename a2 = "new.json" /\
    dialogs a2 = dialogs app_example /\
    ui_state a2.
Proof.
  apply (save_then_open_restores_the_list clock_example app_example "new.json").
  - reflexivity.
  - discriminate.
  - split.
    + repeat constructor; exists "2025-01-01 09:00"; reflexivity.
    + repeat constructor.
  - repeat constructor; cbn; lia.
Defined.

(** ** What the commands keep *)










(** ** The tree after a refresh *)

Lemma set_tags_last (i : nat) (v : list pyval) (tags : list string) (t : list row) :
  Forall (fun r => (iid r < i)%nat) t ->
  set_tags i tags (t ++ [mkRow i v []]) = t ++ [mkRow i v tags].
Proof.
  intros Ht. unfold set_tags. rewrite map_app. cbn. rewrite Nat.eqb_refl. f_equal.
  induction Ht as [|r t Hr _ IH]; cbn; [reflexivity|].
  rewrite IH. apply Nat.lt_neq, Nat.eqb_neq in Hr. now rewrite Hr.
Qed.

Lemma refresh_rows (clock : nat -> datetime) (l : list Reminder) :
  forallb text_priority l = true ->
  forall (i : nat) (b : App),
    Forall (fun r => (iid r < i)%nat) (reminders_tree b) ->
    exists b',
      for_each (fun ir =>
        let i := fst ir in
        let reminder := snd ir in
        let status_icon := if truthy (is_completed reminder) then "✅" else "⏳" in
        let values := [PStr status_icon; task reminder;
                       PStr (strftime (due_date reminder)); priority reminder;
                       creation_date reminder; details reminder] in
        modify (fun a => with_tree (reminders_tree a ++ [mkRow i values []]) a) ;;;
        tags <-
          (if truthy (is_completed reminder) then ret ["completed"]
           else
             now <- datetime_now clock ;;
             ret (if datetime_ltb (due_date reminder) now
                  then ["pending"; "overdue"] else ["pending"])) ;;
        priority_tag <-
          match priority reminder with
          | PStr p => ret (lower p ++ "_priority")%string
          | _ => raise AttributeError
          end ;;
        modify (fun a => with_tree (set_tags i (tags ++ [priority_tag])
                                             (reminders_tree a)) a))
        (combine (seq i (List.length l)) l) b = (Ret tt, b') /\
      b' = with_now_calls (now_calls b + List.length (pending l))
             (with_tree (reminders_tree b ++ rows_of clock (now_calls b) i l) b).
Proof.
  induction l as [|r l IH]; intros Hp i b Ht.
  - eexists. split; [reflexivity|]. cbn. rewrite Nat.add_0_r, app_nil_r. now destruct b.
  - cbn [forallb] in Hp. apply andb_true_iff in Hp as [Hr Hp].
    unfold text_priority in Hr. destruct (priority r) as [| | |p| |] eqn:Hpr;
      try discriminate.
    cbn [List.length seq combine for_each fst snd rows_of pending filter].
    unfold priority_tag, row_values. rewrite Hpr.
    destruct (truthy (is_completed r)) eqn:Hc; cbn [negb].
    + edestruct (IH Hp (S i)) as (b' & Hrun & Hb'); cycle 1.
      * eexists. split.
        { unfold bind at 1. unfold bind, modify, ret.
          cbn [reminders_tree with_tree fst snd].
          rewrite (set_tags_last i _ _ _ Ht). exact Hrun. }
        rewrite Hb'. destruct b. cbn. rewrite <- app_assoc. reflexivity.
      * cbn [reminders_tree with_tree]. apply Forall_app. split.
        { eapply Forall_impl; [|exact Ht]. cbn. lia. }
        constructor; [cbn; lia | constructor].
    + edestruct (IH Hp (S i)) as (b' & Hrun & Hb'); cycle 1.
      * eexists. split.
        { unfold bind at 1. unfold bind, modify, ret, datetime_now.
          cbn [reminders_tree with_tree with_now_calls now_calls fst snd].
          rewrite (set_tags_last i _ _ _ Ht). exact Hrun. }
        rewrite Hb'. destruct b. cbn. rewrite <- app_assoc, Nat.add_succ_r. reflexivity.
      * cbn [reminders_tree with_tree with_now_calls]. apply Forall_app. split.
        { eapply Forall_impl; [|exact Ht]. cbn. lia. }
        constructor; [cbn; lia | constructor].
Qed.

Lemma length_with_suffix (s t : string) :
  String.length (s ++ t) = (String.length s + String.length t)%nat.
Proof. induction s as [|c s IH]; cbn; [reflexivity | now rewrite IH]. Qed.

Lemma priority_tag_is_no_status (r : Reminder) :
  text_priority r = true ->
  priority_tag r <> "completed" /\ priority_tag r <> "pending" /\
  priority_tag r <> "overdue".
Proof.
  unfold text_priority, priority_tag. destruct (priority r) as [| | |p| |]; try discriminate.
  intros _.
  assert (Hlen : forall t, (lower p ++ "_priority")%string = t ->
                           (9 <= String.length t)%nat).
  { intros t <-. rewrite length_with_suffix. cbn. lia. }
  repeat split; intros H.
  - destruct (lower p) as [|c q] eqn:Hq; [discriminate|].
    apply (f_equal String.length) in H. rewrite length_with_suffix in H. cbn in H. lia.
  - apply Hlen in H. cbn in H. lia.
  - apply Hlen in H. cbn in H. lia.
Qed.

Lemma rows_of_spec (clock : nat -> datetime) (l : list Reminder) :
  forallb text_priority l = true ->
  forall n i,
    map iid (rows_of clock n i l) = seq i (List.length l) /\
    Forall2 (fun r row =>
               values row = row_values r /\
               (In "completed" (tags row) <-> truthy (is_completed r) = true) /\
               (In "overdue" (tags row) ->
                truthy (is_completed r) = false /\
                exists k, (n <= k < n + List.length (pending l))%nat /\
                          datetime_ltb (due_date r) (clock k) = true))
            l (rows_of clock n i l).
Proof.
  induction l as [|r l IH]; intros Hp n i; [split; constructor|].
  cbn [forallb] in Hp. apply andb_true_iff in Hp as [Hr Hp].
  destruct (priority_tag_is_no_status r Hr) as (Hc & Hpe & Ho).
  cbn [rows_of pending filter List.length seq].
  destruct (truthy (is_completed r)) eqn:Hcompl; cbn [negb map iid List.length].
  - destruct (IH Hp n (S i)) as [Hiid Hall]. split; [now rewrite Hiid|].
    constructor; [|exact Hall]. cbn [values tags]. rewrite Hcompl.
    split; [reflexivity|]. split.
    + split; [intros _; reflexivity | intros _; now left].
    + intros [H | [H | []]]; [discriminate | now destruct Ho].
  - destruct (IH Hp (S n) (S i)) as [Hiid Hall]. split; [now rewrite Hiid|].
    constructor.
    + cbn [values tags]. rewrite Hcompl. split; [reflexivity|]. split.
      * split; [|discriminate].
        destruct (datetime_ltb (due_date r) (clock n)); cbn;
          intros H; decompose [or] H; try discriminate; try contradiction;
          now destruct Hc.
      * destruct (datetime_ltb (due_date r) (clock n)) eqn:Hlt; cbn;
          intros H; decompose [or] H; try discriminate; try contradiction;
          try (now destruct Ho).
        split; [reflexivity|]. exists n. split; [|exact Hlt].
        split; [apply Nat.le_refl | apply Nat.lt_add_pos_r, Nat.lt_0_succ].
    + eapply Forall2_impl; [|exact Hall]. cbn. intros x row (Hv & Hcm & Hov).
      split; [exact Hv|]. split; [exact Hcm|].
      intros H. destruct (Hov H) as (Hx & k & Hk & Hlt).
      split; [exact Hx|]. exists k. split; [unfold pending in *; lia | exact Hlt].
Qed.

(** X13.  When every priority is a string, [_refresh_reminders_tree]
    returns with one row per record, in the order of the list: the row of
    the record at index [i] has the iid [i] and shows that record's values.
    A row is tagged "completed" exactly when its record is completed, and
    "overdue" only when its record is not completed and due before a
    reading of the clock taken during the refresh; the clock is read once
    per record that is not completed. *)
Theorem refresh_shows_the_list (clock : nat -> datetime) (a : App) :
  forallb text_priority (reminders_list a) = true ->
  let l := reminders_list a in
  let rows := rows_of clock (now_calls a) 0 l in
  _refresh_reminders_tree clock a
  = (Ret tt, with_now_calls (now_calls a + List.length (pending l))
               (with_tree rows a)) /\
  map iid rows = seq 0 (List.length l) /\
  Forall2 (fun r row =>
             values row = row_values r /\
             (In "completed" (tags row) <-> truthy (is_completed r) = true) /\
             (In "overdue" (tags row) ->
              truthy (is_completed r) = false /\
              exists k, (now_calls a <= k < now_calls a + List.length (pending l))%nat /\
                        datetime_ltb (due_date r) (clock k) = true))
          l rows.
Proof.
  intros Hp l rows. split; [|apply (rows_of_spec clock l Hp)].
  destruct (refresh_rows clock l Hp 0%nat (with_tree [] a)) as (b' & Hrun & Hb').
  { constructor. }
  etransitivity; [exact Hrun|]. rewrite Hb'. now destruct a.
Qed.

Lemma refresh_shows_the_list_witness :
  let rows := rows_of clock_example 0 0 [milk; dentist] in
  _refresh_reminders_tree clock_example app_example
  = (Ret tt, with_now_calls 2 (with_tree rows app_example)) /\
  map iid rows = [0; 1]%nat /\
  Forall2 (fun r row =>
             values row = row_values r /\
             (In "completed" (tags row) <-> truthy (is_completed r) = true) /\
             (In "overdue" (tags row) ->
              truthy (is_completed r) = false /\
              exists k, (0 <= k < 2)%nat /\
                        datetime_ltb (due_date r) (clock_example k) = true))
          [milk; dentist] rows.
Proof.
  apply (refresh_shows_the_list clock_example app_example). reflexivity.
Defined.

(** ** Toggling twice *)

Lemma nth_remove_at {A} (i : nat) (l : list A) (x : A) :
  nth_error l i = Some x -> Permutation l (x :: remove_at i l).
Proof.
  revert i. induction l as [|y l IH]; intros [|i]; cbn; try discriminate.
  - now intros [= ->].
  - intros H. rewrite perm_swap. now rewrite <- (IH i H).
Qed.

Lemma update_at_perm {A} (i : nat) (f : A -> A) (l : list A) (x : A) :
  nth_error l i = Some x -> Permutation (update_at i f l) (f x :: remove_at i l).
Proof.
  revert i. induction l as [|y l IH]; intros [|i]; cbn; try discriminate.
  - now intros [= ->].
  - intros H. rewrite perm_swap. now rewrite <- (IH i H).
Qed.

Lemma toggle_toggle (r : Reminder) : valid_reminder r = true -> toggle (toggle r) = r.
Proof.
  intros Hv. pose proof (valid_completed r Hv) as Hc. unfold completed in Hc.
  unfold toggle. destruct r as [o t p d c cd due]. cbn in *.
  destruct c as [| b | | | |]; try discriminate.
  unfold set_is_completed. cbn. now rewrite negb_involutive.
Qed.

Lemma all_valid_In (l : list Reminder) (r : Reminder) :
  all_valid l -> In r l -> valid_reminder r = true.
Proof. unfold all_valid. rewrite Forall_forall. auto. Qed.

(** X14.  Toggling a record of a valid list and then toggling it again,
    wherever the first toggle has moved it, gives back the records the list
    had, each with the fields it had, in canonical order.  (The record may
    end behind records of equal keys that it stood before.) *)
Theorem toggle_twice_restores_the_records (clock : nat -> datetime) (a : App)
    (i : nat) (sel : list nat) (r : Reminder) :
  forallb valid_reminder (reminders_list a) = true ->
  nth_error (reminders_list a) i = Some r ->
  exists a1,
    _toggle_complete_selected clock (i :: sel) a = (Ret tt, a1) /\
    In (toggle r) (reminders_list a1) /\
    forall j sel',
      nth_error (reminders_list a1) j = Some (toggle r) ->
      exists a2,
        _toggle_complete_selected clock (j :: sel') a1 = (Ret tt, a2) /\
        Permutation (reminders_list a) (reminders_list a2) /\
        StronglySorted canonical_le (reminders_list a2).
Proof.
  intros Hv Hr. apply all_valid_forallb in Hv.
  assert (Hi : (i < List.length (reminders_list a))%nat)
    by (apply nth_error_Some; congruence).
  rewrite (toggle_steps clock a i sel Hi).
  destruct (sort_and_refresh clock
              (with_list (update_at i toggle (reminders_list a)) a))
    as (a1 & Hrun1 & (Hperm1 & _) & Hv1 & _).
  { apply update_at_Forall; [apply valid_toggle | exact Hv]. }
  cbn [reminders_list with_list] in Hperm1.
  exists a1. split; [exact Hrun1|]. split.
  { apply (Permutation_in _ Hperm1). now apply update_at_In. }
  intros j sel' Hj.
  assert (Hjlt : (j < List.length (reminders_list a1))%nat)
    by (apply nth_error_Some; congruence).
  rewrite (toggle_steps clock a1 j sel' Hjlt).
  destruct (sort_and_refresh clock
              (with_list (update_at j toggle (reminders_list a1)) a1))
    as (a2 & Hrun2 & (Hperm2 & Hsorted2 & _) & _).
  { apply update_at_Forall; [apply valid_toggle | exact Hv1]. }
  cbn [reminders_list with_list] in Hperm2.
  exists a2. split; [exact Hrun2|]. split; [|exact Hsorted2].
  rewrite <- Hperm2, (update_at_perm j toggle _ _ Hj).
  rewrite (toggle_toggle r) by (apply (all_valid_In _ _ Hv), (nth_error_In _ _ Hr)).
  rewrite (nth_remove_at i _ r Hr). apply perm_skip.
  apply (Permutation_cons_inv (a := toggle r)).
  rewrite <- (update_at_perm i toggle _ _ Hr), Hperm1.
  now apply nth_remove_at.
Qed.

Lemma toggle_twice_restores_the_records_witness :
  exists a1,
    _toggle_complete_selected clock_example [0%nat] app_example = (Ret tt, a1) /\
    In (toggle milk) (reminders_list a1) /\
    forall j sel',
      nth_error (reminders_list a1) j = Some (toggle milk) ->
      exists a2,
        _toggle_complete_selected clock_example (j :: sel') a1 = (Ret tt, a2) /\
        Permutation [milk; dentist] (reminders_list a2) /\
        StronglySorted canonical_le (reminders_list a2).
Proof.
  apply (toggle_twice_restores_the_records clock_example app_example 0 [] milk);
    reflexivity.
Defined.

(** ** Where Add puts the new record *)

Lemma placed_perm (x : Reminder) (l : list Reminder) :
  Permutation (l ++ [x]) (placed x l).
Proof.
  induction l as [|y l IH]; cbn; [reflexivity|].
  destruct (canonical_leb y x).
  - now apply perm_skip.
  - symmetry. apply (Permutation_cons_append (y :: l) x).
Qed.

Lemma sorted_all_above (x y : Reminder) (l : list Reminder) :
  StronglySorted canonical_le (y :: l) -> canonical_leb y x = false ->
  Forall (fun z => canonical_leb z x = false) (y :: l).
Proof.
  intros Hs Hyx. apply Forall_forall. intros z Hz.
  destruct (canonical_leb z x) eqn:Hzx; [|reflexivity].
  rewrite <- Hyx. symmetry.
  apply (canonical_leb_trans y z x); [|exact Hzx].
  exact (sorted_head_le y l z Hs Hz).
Qed.

Lemma placed_split (x : Reminder) (l : list Reminder) :
  StronglySorted canonical_le l ->
  exists before after,
    l = before ++ after /\
    placed x l = before ++ x :: after /\
    Forall (fun y => canonical_le y x) before /\
    Forall (fun y => canonical_leb y x = false) after.
Proof.
  induction l as [|y l IH]; intros Hs.
  - exists [], []. repeat split; constructor.
  - cbn [placed]. destruct (canonical_leb y x) eqn:Hyx.
    + destruct IH as (before & after & -> & Hp & Hb & Ha); [now inversion Hs|].
      exists (y :: before), after. rewrite Hp. repeat split; auto.
    + exists [], (y :: l). repeat split; auto.
      now apply sorted_all_above.
Qed.

Lemma placed_sort (x : Reminder) (l : list Reminder) :
  StronglySorted canonical_le l -> canonical_sort_of (l ++ [x]) (placed x l).
Proof.
  intros Hs. split; [apply placed_perm|]. split.
  - induction l as [|y l IH]; cbn [placed]; [repeat constructor|].
    destruct (canonical_leb y x) eqn:Hyx.
    + constructor; [apply IH; now inversion Hs|].
      apply (Permutation_Forall (placed_perm x l)).
      apply Forall_app. split; [now inversion Hs | now constructor].
    + constructor; [exact Hs|].
      pose proof (sorted_all_above x y l Hs Hyx) as Hall.
      apply Forall_forall. intros z Hz. rewrite Forall_forall in Hall.
      apply canonical_leb_total. now apply Hall.
  - intros r. induction l as [|y l IH]; [reflexivity|].
    cbn [placed]. destruct (canonical_leb y x) eqn:Hyx.
    + cbn [filter app]. rewrite IH by now inversion Hs. reflexivity.
    + rewrite filter_app.
      change (filter (same_keys r) (x :: y :: l))
        with (if same_keys r x then x :: filter (same_keys r) (y :: l)
              else filter (same_keys r) (y :: l)).
      change (filter (same_keys r) [x]) with (if same_keys r x then [x] else []).
      destruct (same_keys r x) eqn:Hrx; [|now rewrite app_nil_r].
      pose proof (sorted_all_above x y l Hs Hyx) as Hall.
      assert (Hnone : filter (same_keys r) (y :: l) = []).
      { apply (proj1 (Forall_forall _ _)) with (x := y) in Hall as Hy; [|now left].
        clear Hyx Hs IH. induction (y :: l) as [|z t IHt]; [reflexivity|].
        cbn [filter]. inversion Hall; subst.
        destruct (same_keys r z) eqn:Hrz; [|now apply IHt].
        rewrite (same_keys_not_below r z x Hrz) in Hrx by assumption.
        discriminate. }
      rewrite Hnone. reflexivity.
Qed.

(** X15.  Add on a valid list in canonical order leaves the records of the
    list where they stood and puts the new record between them: behind all
    records that are not greater in the canonical order, so also behind the
    records of equal keys, and before all records that are greater. *)
Theorem add_puts_the_record_in_its_place (clock : nat -> datetime) (a : App)
    (task_entry due_date_entry priority_var details_text : string) (due : datetime) :
  forallb valid_reminder (reminders_list a) = true ->
  StronglySorted canonical_le (reminders_list a) ->
  String.eqb (strip task_entry) "" = false ->
  strptime (strip due_date_entry) = Some due ->
  In priority_var PRIORITY_LEVELS ->
  let new := new_reminder clock a (strip task_entry) priority_var
                          (strip details_text) due in
  exists a' before after,
    _add_reminder_from_ui clock task_entry due_date_entry priority_var details_text a
    = (Ret tt, a') /\
    reminders_list a = before ++ after /\
    reminders_list a' = before ++ new :: after /\
    Forall (fun y => canonical_le y new) before /\
    Forall (fun y => canonical_leb y new = false) after.
Proof.
  intros Hv Hs Htask Hdue Hp new. apply all_valid_forallb in Hv.
  apply String.eqb_neq in Htask.
  rewrite (add_steps clock a _ _ _ _ due Htask Hdue). fold new.
  destruct (sort_refresh_clear clock
              (with_list (reminders_list a ++ [new])
                 (with_now_calls (S (now_calls a)) (with_objects (S (objects a)) a))))
    as (a' & Hrun & Hcan & _).
  { cbn [reminders_list with_list]. apply Forall_app. split; [exact Hv|].
    constructor; [|constructor]. now apply valid_new_reminder. }
  cbn [reminders_list with_list with_now_calls with_objects] in Hcan.
  replace (reminders_list (with_now_calls (S (now_calls a))
                             (with_objects (S (objects a)) a)))
    with (reminders_list a) in Hcan by now destruct a.
  pose proof (canonical_sort_unique _ _ _ Hcan (placed_sort new _ Hs)) as Hl.
  destruct (placed_split new _ Hs) as (before & after & Hb & Hpl & Hle & Hgt).
  exists a', before, after. rewrite Hl. auto.
Qed.

Lemma add_puts_the_record_in_its_place_witness :
  let new := new_reminder clock_example app_example "Water plants" "Medium" ""
                          (mkDatetime 2025 1 1 9 0 0 0) in
  exists a' before after,
    _add_reminder_from_ui clock_example " Water plants " "2025-01-01 09:00"
                          "Medium" "" app_example
    = (Ret tt, a') /\
    reminders_list app_example = before ++ after /\
    reminders_list a' = before ++ new :: after /\
    Forall (fun y => canonical_le y new) before /\
    Forall (fun y => canonical_leb y new = false) after.
Proof.
  apply (add_puts_the_record_in_its_place clock_example app_example
           " Water plants " "2025-01-01 09:00" "Medium" ""
           (mkDatetime 2025 1 1 9 0 0 0));
    try reflexivity.
  - repeat constructor.
  - right. left. reflexivity.
Defined.

(** ** A due date that is not a text *)

(** X16.  An element whose "due_date_str" is not a string (a number, a
    boolean, [null], an array or an object) still decodes: [from_dict]
    returns a record with the element's task and priority and a reading of
    the clock as its due date, and the "Date Type Error" warning is the one
    dialog it opens. *)
Theorem due_date_of_another_type_is_replaced (clock : nat -> datetime) (a : App)
    (items : list (string * pyval)) (t v p : pyval) :
  lookup "task" items = Some t ->
  lookup "due_date_str" items = Some v ->
  lookup "priority" items = Some p ->
  (forall s, v <> PStr s) ->
  exists r a',
    from_dict clock (PDict items) a = (Ret r, a') /\
    task r = t /\ priority r = p /\
    due_now clock a a' r /\
    dialogs a' = dialogs a ++ [showwarning "Date Type Error"] /\
    reminders_list a' = reminders_list a.
Proof.
  intros Ht Hv Hp Hns.
  rewrite (from_dict_steps clock a items t v p Ht Hv Hp).
  rewrite (init_not_str clock a t p _ _ _ v Hns).
  destruct (truthy (default PNone (lookup "creation_date" items)));
    eexists; eexists; (split; [reflexivity|]); cbn;
    (repeat split; try reflexivity).
  - exists (now_calls a). cbn. split; [lia | reflexivity].
  - exists (S (now_calls a)). cbn. split; [lia | reflexivity].
Qed.

Lemma due_date_of_another_type_is_replaced_witness :
  exists r a',
    from_dict clock_example
      (PDict [("task", PStr "Tax"); ("due_date_str", PInt 20250601);
              ("priority", PStr "High")]) app_example = (Ret r, a') /\
    task r = PStr "Tax" /\ priority r = PStr "High" /\
    due_now clock_example app_example a' r /\
    dialogs a' = dialogs app_example ++ [showwarning "Date Type Error"] /\
    reminders_list a' = reminders_list app_example.
Proof.
  apply (due_date_of_another_type_is_replaced clock_example app_example
           [("task", PStr "Tax"); ("due_date_str", PInt 20250601);
            ("priority", PStr "High")] (PStr "Tax") (PInt 20250601) (PStr "High"));
    try reflexivity.
  intros s H. discriminate H.
Defined.

(** ** Load for Edit, then Update *)

Section DropSpace.
Variables (one : ascii -> bool) (two : ascii -> ascii -> bool)
          (three : ascii -> ascii -> ascii -> bool).

Lemma drop_space_none (l : list ascii) :
  space_ahead one two three l = false -> drop_space one two three l = l.
Proof.
  destruct l as [|a [|b [|c r]]]; cbn; try reflexivity; intros H.
  - destruct (one a); [discriminate H | reflexivity].
  - destruct (one a); [discriminate H|].
    destruct (two a b); [discriminate H | reflexivity].
  - destruct (one a); [discriminate H|]. destruct (two a b); [discriminate H|].
    destruct (three a b c); [discriminate H | reflexivity].
Qed.

Lemma drop_space_bounded (n : nat) (l : list ascii) :
  (List.length l <= n)%nat ->
  space_ahead one two three (drop_space one two three l) = false /\
  exists p, l = p ++ drop_space one two three l.
Proof.
  revert l. induction n as [|n IH]; intros l Hl.
  - destruct l; [|cbn in Hl; lia]. split; [reflexivity | now exists []].
  - destruct l as [|a r1]; [split; [reflexivity | now exists []]|].
    cbn [drop_space]. cbn [List.length] in Hl.
    destruct (one a) eqn:H1.
    { destruct (IH r1) as [Hc [p Hp]]; [lia|]. split; [exact Hc|].
      exists (a :: p). cbn. now f_equal. }
    destruct r1 as [|b r2].
    { split; [cbn; now rewrite H1 | now exists []]. }
    cbn [List.length] in Hl. destruct (two a b) eqn:H2.
    { destruct (IH r2) as [Hc [p Hp]]; [lia|]. split; [exact Hc|].
      exists (a :: b :: p). cbn. now do 2 f_equal. }
    destruct r2 as [|c r3].
    { split; [cbn; now rewrite H1, H2 | now exists []]. }
    cbn [List.length] in Hl. destruct (three a b c) eqn:H3.
    { destruct (IH r3) as [Hc [p Hp]]; [lia|]. split; [exact Hc|].
      exists (a :: b :: c :: p). cbn. now do 3 f_equal. }
    split; [cbn; now rewrite H1, H2, H3 | now exists []].
Qed.

Lemma drop_space_clean (l : list ascii) :
  space_ahead one two three (drop_space one two three l) = false.
Proof. apply (drop_space_bounded (List.length l) l (Nat.le_refl _)). Qed.

Lemma drop_space_suffix (l : list ascii) :
  exists p, l = p ++ drop_space one two three l.
Proof. apply (drop_space_bounded (List.length l) l (Nat.le_refl _)). Qed.

Lemma space_ahead_app (w x : list ascii) :
  space_ahead one two three (w ++ x) = false -> space_ahead one two three w = false.
Proof.
  destruct w as [|a [|b [|c r]]]; cbn; try reflexivity.
  - intros H. destruct (one a); [destruct x; discriminate H | reflexivity].
  - intros H. destruct (one a); [discriminate H|].
    destruct (two a b); [discriminate H | reflexivity].
  - auto.
Qed.

End DropSpace.

(** What [strip] leaves neither begins nor ends with white space. *)
Lemma stripped_ends (l : list ascii) :
  let w := rev (lstrip_back (rev (lstrip l))) in
  space_ahead is_space is_space2 is_space3 w = false /\
  space_ahead is_space (fun y x => is_space2 x y) (fun z y x => is_space3 x y z)
              (rev w) = false.
Proof.
  cbn zeta. split.
  - destruct (drop_space_suffix is_space (fun y x => is_space2 x y)
                (fun z y x => is_space3 x y z) (rev (lstrip l))) as [p Hp].
    fold lstrip_back in Hp.
    apply (f_equal (@rev ascii)) in Hp. rewrite rev_involutive, rev_app_distr in Hp.
    pose proof (drop_space_clean is_space is_space2 is_space3 l) as Hh.
    fold lstrip in Hh. rewrite Hp in Hh.
    now apply space_ahead_app in Hh.
  - rewrite rev_involutive. apply drop_space_clean.
Qed.

Lemma strip_fix_list (w : list ascii) :
  space_ahead is_space is_space2 is_space3 w = false ->
  space_ahead is_space (fun y x => is_space2 x y) (fun z y x => is_space3 x y z)
              (rev w) = false ->
  rev (lstrip_back (rev (lstrip w))) = w.
Proof.
  intros Hw Hr. unfold lstrip, lstrip_back.
  rewrite (drop_space_none _ _ _ w Hw), (drop_space_none _ _ _ (rev w) Hr).
  apply rev_involutive.
Qed.

Lemma strip_strip (s : string) : strip (strip s) = strip s.
Proof.
  unfold strip at 1 2. rewrite list_ascii_of_string_of_list_ascii.
  destruct (stripped_ends (list_ascii_of_string s)) as [Hw Hr].
  unfold strip. now rewrite strip_fix_list.
Qed.

Lemma list_ascii_of_string_app (s t : string) :
  list_ascii_of_string (s ++ t)%string = list_ascii_of_string s ++ list_ascii_of_string t.
Proof. induction s as [|c s IH]; cbn; [reflexivity | now rewrite IH]. Qed.

(** A newline behind a text completes no white-space character of two or
    three bytes. *)
Lemma space_ahead_newline (w : list ascii) :
  w <> [] ->
  space_ahead is_space is_space2 is_space3 w = false ->
  space_ahead is_space is_space2 is_space3 (w ++ [ascii_of_nat 10]) = false.
Proof.
  intros Hne. destruct w as [|a [|b [|c r]]]; [congruence| | |]; cbn.
  - rewrite orb_false_r. intros ->. unfold is_space2.
    now rewrite andb_false_r.
  - rewrite orb_false_r. intros H. apply orb_false_iff in H as [-> ->].
    unfold is_space3. cbn.
    now rewrite !andb_false_r.
  - auto.
Qed.

Lemma strip_newline (s : string) : strip (strip s ++ newline)%string = strip s.
Proof.
  unfold strip at 1 2. rewrite list_ascii_of_string_app.
  rewrite list_ascii_of_string_of_list_ascii.
  destruct (stripped_ends (list_ascii_of_string s)) as [Hw Hr]. unfold strip.
  set (w := rev (lstrip_back (rev (lstrip (list_ascii_of_string s))))) in *.
  f_equal. change (list_ascii_of_string newline) with [ascii_of_nat 10].
  clearbody w. destruct w as [|c v]; [reflexivity|].
  assert (Hnl : lstrip ((c :: v) ++ [ascii_of_nat 10]) = (c :: v) ++ [ascii_of_nat 10]).
  { apply drop_space_none. apply space_ahead_newline; [discriminate | exact Hw]. }
  rewrite Hnl, rev_app_distr.
  change (lstrip_back (rev [ascii_of_nat 10] ++ rev (c :: v)))
    with (lstrip_back (rev (c :: v))).
  unfold lstrip_back. rewrite (drop_space_none _ _ _ _ Hr). apply rev_involutive.
Qed.

Lemma digit_char_ahead (k : Z) (r : list ascii) :
  0 <= k <= 9 ->
  space_ahead is_space is_space2 is_space3 (digit_char k :: r) = false /\
  space_ahead is_space (fun y x => is_space2 x y) (fun z y x => is_space3 x y z)
              (digit_char k :: r) = false.
Proof.
  intros Hk. pose proof (code_digit_char k Hk) as Hc.
  assert (H1 : is_space (digit_char k) = false).
  { unfold is_space. rewrite Hc.
    destruct (Z.leb_spec 9 (48 + k)), (Z.leb_spec (48 + k) 13),
             (Z.leb_spec 28 (48 + k)), (Z.leb_spec (48 + k) 32);
      try reflexivity; lia. }
  assert (Hne : forall n, n < 48 \/ 57 < n -> (code (digit_char k) =? n) = false)
    by (intros n Hn; rewrite Hc; apply Z.eqb_neq; lia).
  assert (Hrange : (128 <=? code (digit_char k)) = false)
    by (rewrite Hc; apply Z.leb_gt; lia).
  split.
  - destruct r as [|b [|c r]]; cbn; rewrite H1; unfold is_space2, is_space3;
      rewrite ?(Hne 194), ?(Hne 225), ?(Hne 226), ?(Hne 227) by lia; reflexivity.
  - destruct r as [|b [|c r]]; cbn; rewrite H1; unfold is_space2, is_space3;
      rewrite ?(Hne 133), ?(Hne 160), ?(Hne 128), ?(Hne 159), ?(Hne 168),
              ?(Hne 169), ?(Hne 175), ?Hrange by lia;
      cbn; rewrite ?andb_false_r; reflexivity.
Qed.

Lemma strip_strftime (d : datetime) :
  valid_datetime d = true -> strip (strftime d) = strftime d.
Proof.
  intros Hv. unfold valid_datetime in Hv. rewrite !andb_true_iff in Hv.
  repeat match goal with H : _ /\ _ |- _ => destruct H end.
  repeat match goal with H : (_ <=? _) = true |- _ => apply Z.leb_le in H end.
  unfold strip, strftime. rewrite list_ascii_of_string_of_list_ascii. f_equal.
  unfold year_digits.
  destruct (Z.ltb_spec (year d) 10); [|destruct (Z.ltb_spec (year d) 100);
    [|destruct (Z.ltb_spec (year d) 1000)]];
    (apply strip_fix_list;
     [ cbn [app two_digits four_digits];
       apply digit_char_ahead; Z.to_euclidean_division_equations; lia
     | cbn [app two_digits four_digits rev];
       apply digit_char_ahead; Z.to_euclidean_division_equations; lia ]).
Qed.

Lemma update_at_fix {A} (i : nat) (f : A -> A) (l : list A) (x : A) :
  nth_error l i = Some x -> f x = x -> update_at i f l = l.
Proof.
  revert i. induction l as [|y l IH]; intros [|i]; cbn; try discriminate.
  - intros [= ->] ->. reflexivity.
  - intros H Hf. now rewrite (IH i H Hf).
Qed.

Lemma valid_priority_level (r : Reminder) :
  valid_reminder r = true -> exists p, priority r = PStr p /\ In p PRIORITY_LEVELS.
Proof.
  unfold valid_reminder. rewrite andb_true_iff. intros [_ H].
  destruct (priority r) as [| | | p | |]; try discriminate.
  exists p. split; [reflexivity|].
  apply existsb_exists in H as (q & Hq & Heq). apply String.eqb_eq in Heq. now subst.
Qed.

(** X17.  Load for Edit followed at once by Update changes no record: for
    a record whose task and details are stripped texts, as Add and Update
    store them, and whose due date was parsed and lies in the year 1000 or
    later, the entries that Load for Edit fills pass every check of Update,
    and after Update the list holds the same records with the same fields in
    the same places; no dialog is opened. *)
Theorem load_for_edit_then_update_changes_nothing (clock : nat -> datetime) (a : App)
    (i : nat) (sel : list nat) (r : Reminder) (t0 d0 s : string) :
  forallb valid_reminder (reminders_list a) = true ->
  StronglySorted canonical_le (reminders_list a) ->
  nth_error (reminders_list a) i = Some r ->
  task r = PStr (strip t0) -> String.eqb (strip t0) "" = false ->
  details r = PStr (strip d0) ->
  strptime s = Some (due_date r) ->
  1000 <= year (due_date r) ->
  exists task_entry due_date_entry priority_var details_text a',
    loaded_entries r = Some (task_entry, due_date_entry, priority_var, details_text) /\
    _load_selected_for_editing (i :: sel) a = (Ret tt, a) /\
    _update_selected_reminder clock (i :: sel) task_entry due_date_entry
                              priority_var details_text a = (Ret tt, a') /\
    reminders_list a' = reminders_list a /\
    dialogs a' = dialogs a.
Proof.
  intros Hv Hs Hr Ht Hne Hd Hdue Hyear. apply all_valid_forallb in Hv.
  assert (Hi : (i < List.length (reminders_list a))%nat)
    by (apply nth_error_Some; congruence).
  destruct (valid_priority_level r (all_valid_In _ _ Hv (nth_error_In _ _ Hr)))
    as (p & Hp & Hin).
  destruct (strptime_valid s _ Hdue) as [Hvd Hmin].
  exists (strip t0), (strftime (due_date r)), p, (strip d0 ++ newline)%string.
  assert (Hparse : strptime (strip (strftime (due_date r))) = Some (due_date r)).
  { rewrite (strip_strftime _ Hvd), (strptime_strftime _ Hvd Hyear).
    now rewrite Hmin. }
  assert (Hsame : edit (strip (strip t0)) p (strip (strip d0 ++ newline)%string)
                       (due_date r) r = r).
  { rewrite strip_strip, strip_newline. unfold edit.
    destruct r as [o t pr d c cd due]. cbn in *. now subst. }
  assert (Hne' : strip (strip t0) <> "").
  { rewrite strip_strip. now apply String.eqb_neq. }
  destruct (sort_refresh_clear clock a Hv) as (a' & Hrun & Hcan & _ & Hdlg).
  exists a'. split; [|split; [|split; [|split]]].
  - unfold loaded_entries. now rewrite Ht, Hp, Hd.
  - unfold _load_selected_for_editing, _get_selected_reminder_object, bind, gets, ret.
    now destruct (i <? List.length (reminders_list a))%nat.
  - rewrite (update_steps clock a i sel _ _ _ _ (due_date r) Hi Hne' Hparse).
    rewrite (update_at_fix i _ _ r Hr Hsame), with_list_same. exact Hrun.
  - symmetry. apply (canonical_sort_unique (reminders_list a)); [|exact Hcan].
    now apply sorted_is_canonical.
  - exact Hdlg.
Qed.

Lemma load_for_edit_then_update_changes_nothing_witness :
  exists task_entry due_date_entry priority_var details_text a',
    loaded_entries dentist
    = Some (task_entry, due_date_entry, priority_var, details_text) /\
    _load_selected_for_editing [1%nat] app_example = (Ret tt, app_example) /\
    _update_selected_reminder clock_example [1%nat] task_entry due_date_entry
                              priority_var details_text app_example = (Ret tt, a') /\
    reminders_list a' = reminders_list app_example /\
    dialogs a' = dialogs app_example.
Proof.
  apply (load_for_edit_then_update_changes_nothing clock_example app_example 1 []
           dentist " Call dentist" "" "2025-01-01 09:00");
    try reflexivity.
  - repeat constructor.
  - cbn. lia.
Defined.

(** * The card game *)

Lemma deck_cards (rank suit : string) :
  In (rank, suit) create_deck <-> In rank ranks /\ In suit suits.
Proof.
  unfold create_deck. rewrite in_flat_map. split.
  - intros (s & Hs & Hin). apply in_map_iff in Hin as (r & [= <- <-] & Hr). auto.
  - intros [Hr Hs]. exists suit. split; [exact Hs|].
    apply in_map_iff. now exists rank.
Qed.

Lemma deck_distinct : NoDup create_deck.
Proof.
  assert (H : nodup card_eq_dec create_deck = create_deck) by (vm_compute; reflexivity).
  rewrite <- H. apply NoDup_nodup.
Qed.

(** X18.  The deck holds every pair of one of the thirteen ranks and one
    of the four suits exactly once.  [card_value] looks at the rank only:
    for a listed rank it returns the position of the rank in the list the
    deck is built from, plus two, so that cards compare as their ranks are
    listed; for any other rank it raises [KeyError]. *)
Theorem deck_and_values_agree :
  NoDup create_deck /\ List.length create_deck = 52%nat /\
  (forall rank suit, In (rank, suit) create_deck <-> In rank ranks /\ In suit suits) /\
  (forall rank suit,
      In rank ranks ->
      exists k, nth_error ranks k = Some rank /\
                card_value (rank, suit) = Ret (Z.of_nat k + 2)) /\
  (forall rank suit,
      ~ In rank ranks -> card_value (rank, suit) = Raise (KeyError (PStr rank))).
Proof.
  split; [exact deck_distinct|]. split; [reflexivity|].
  split; [exact deck_cards|]. split.
  - intros rank suit Hr. cbn in Hr.
    repeat (destruct Hr as [<- | Hr];
            [match goal with
             | |- exists k, nth_error ranks k = Some ?r /\ _ =>
                 let rec go k :=
                   first [ (exists k; split; reflexivity) | go (S k) ] in
                 go 0%nat
             end|]).
    destruct Hr.
  - intros rank suit Hr. unfold card_value, rank_values. cbn [find fst snd].
    repeat match goal with
           | |- context [String.eqb rank ?k] =>
               destruct (String.eqb_spec rank k) as [-> | _];
               [exfalso; apply Hr; cbn; auto 20|]
           end.
    reflexivity.
Qed.

Lemma deck_and_values_agree_witness :
  In ("Queen", "Clubs") create_deck /\
  card_value ("Queen", "Clubs") = Ret 12 /\
  card_value ("Joker", "Clubs") = Raise (KeyError (PStr "Joker")).
Proof.
  destruct deck_and_values_agree as (_ & _ & Hin & Hval & Hno).
  split; [|split].
  - apply Hin. cbn. auto 20.
  - destruct (Hval "Queen" "Clubs") as (k & Hk & Hv); [cbn; auto 20|].
    rewrite Hv. do 14 (destruct k as [|k]; try discriminate Hk; try reflexivity).
  - apply Hno. cbn. intuition discriminate.
Defined.

Lemma last_two {A} (l : list A) :
  (2 <= List.length l)%nat -> exists rest x y, l = rest ++ [x; y].
Proof.
  intros Hl. destruct (rev l) as [|y [|x r]] eqn:Hrev.
  - apply (f_equal (@List.length A)) in Hrev. rewrite length_rev in Hrev.
    cbn in Hrev. lia.
  - apply (f_equal (@List.length A)) in Hrev. rewrite length_rev in Hrev.
    cbn in Hrev. lia.
  - exists (rev r), x, y. apply (f_equal (@rev A)) in Hrev.
    rewrite rev_involutive in Hrev. rewrite Hrev. cbn.
    now rewrite <- app_assoc.
Qed.

Lemma pop_last (rest : list card) (c : card) : pop (rest ++ [c]) = Some (c, rest).
Proof. unfold pop. rewrite rev_app_distr. cbn. now rewrite rev_involutive. Qed.

Lemma deck_values (c : card) :
  In c create_deck -> exists v, card_value c = Ret v.
Proof.
  destruct c as [rank suit]. intros Hc. apply deck_cards in Hc as [Hr _].
  cbn in Hr.
  repeat (destruct Hr as [<- | Hr]; [eexists; reflexivity|]).
  destruct Hr.
Qed.

Lemma deck_same_value (c1 c2 : card) (v : Z) :
  In c1 create_deck -> In c2 create_deck ->
  card_value c1 = Ret v -> card_value c2 = Ret v -> fst c1 = fst c2.
Proof.
  destruct c1 as [r1 s1], c2 as [r2 s2]. intros H1 H2.
  apply deck_cards in H1 as [H1 _]. apply deck_cards in H2 as [H2 _].
  cbn in H1, H2. cbn [fst].
  repeat (destruct H1 as [<- | H1]); try contradiction;
    repeat (destruct H2 as [<- | H2]); try contradiction;
    cbn; congruence.
Qed.

(** X19.  However the deck is shuffled, [play_high_card] ends normally
    after three lines: the draw of player 1, who gets the last card of the
    shuffled deck, the draw of player 2, who gets the card before it, and
    the verdict.  The two cards are different cards of the deck, both have a
    value, the higher value wins, and the game is a tie exactly when the
    two cards have the same rank. *)
Theorem high_card_always_gives_a_verdict (shuffle : list card -> list card) :
  Permutation create_deck (shuffle create_deck) ->
  exists rest c1 c2 v1 v2 verdict,
    shuffle create_deck = rest ++ [c2; c1] /\
    play_high_card shuffle = ([draws "1" c1; draws "2" c2; verdict], None) /\
    In c1 create_deck /\ In c2 create_deck /\ c1 <> c2 /\
    card_value c1 = Ret v1 /\ card_value c2 = Ret v2 /\
    verdict = (if v1 >? v2 then "Player 1 wins!"
               else if v2 >? v1 then "Player 2 wins!" else "It's a tie!") /\
    (verdict = "It's a tie!" <-> fst c1 = fst c2).
Proof.
  intros Hperm.
  destruct (last_two (shuffle create_deck)) as (rest & c2 & c1 & Hd).
  { rewrite <- (Permutation_length Hperm). cbn. lia. }
  assert (Hin1 : In c1 create_deck).
  { apply (Permutation_in _ (Permutation_sym Hperm)). rewrite Hd.
    apply in_or_app. right. cbn. auto. }
  assert (Hin2 : In c2 create_deck).
  { apply (Permutation_in _ (Permutation_sym Hperm)). rewrite Hd.
    apply in_or_app. right. cbn. auto. }
  assert (Hne : c1 <> c2).
  { pose proof (Permutation_NoDup Hperm deck_distinct) as Hnd. rewrite Hd in Hnd.
    apply NoDup_app_remove_l in Hnd. inversion Hnd as [|? ? Hnot _]; subst.
    intros ->. apply Hnot. now left. }
  destruct (deck_values c1 Hin1) as [v1 Hv1].
  destruct (deck_values c2 Hin2) as [v2 Hv2].
  exists rest, c1, c2, v1, v2,
    (if v1 >? v2 then "Player 1 wins!"
     else if v2 >? v1 then "Player 2 wins!" else "It's a tie!").
  split; [exact Hd|]. split.
  { unfold play_high_card. rewrite Hd.
    change (rest ++ [c2; c1]) with (rest ++ [c2] ++ [c1]). rewrite app_assoc.
    rewrite pop_last, pop_last. unfold value_gt. rewrite Hv1, Hv2.
    destruct (v1 >? v2); [reflexivity|]. destruct (v2 >? v1); reflexivity. }
  repeat (split; [assumption|]). split; [reflexivity|].
  split.
  - intros Htie. apply (deck_same_value c1 c2 v1 Hin1 Hin2 Hv1).
    destruct (Z.gtb_spec v1 v2); [discriminate Htie|].
    destruct (Z.gtb_spec v2 v1); [discriminate Htie|].
    now replace v1 with v2 by lia.
  - intros Hrank. destruct c1 as [r1 s1], c2 as [r2 s2]. cbn in Hrank. subst r2.
    cbn in Hv1, Hv2. rewrite Hv1 in Hv2. injection Hv2 as <-.
    now rewrite Z.gtb_ltb, Z.ltb_irrefl.
Qed.

Lemma high_card_always_gives_a_verdict_witness :
  exists rest c1 c2 v1 v2 verdict,
    shuffle_example create_deck = rest ++ [c2; c1] /\
    play_high_card shuffle_example = ([draws "1" c1; draws "2" c2; verdict], None) /\
    In c1 create_deck /\ In c2 create_deck /\ c1 <> c2 /\
    card_value c1 = Ret v1 /\ card_value c2 = Ret v2 /\
    verdict = (if v1 >? v2 then "Player 1 wins!"
               else if v2 >? v1 then "Player 2 wins!" else "It's a tie!") /\
    (verdict = "It's a tie!" <-> fst c1 = fst c2).
Proof.
  apply (high_card_always_gives_a_verdict shuffle_example).
  apply Permutation_rev.
Defined.

(** * What the commands leave alone *)

Ltac frame :=
  repeat (keeps_step ||
          unfold handle, _load_reminders_on_startup, _load_reminders_core, decode,
            iterate, json_load, json_dump, from_dict, getitem, dict_get, Reminder_init,
            _add_reminder_from_ui, _add_reminder_object, _update_selected_reminder,
            _delete_selected_reminder, _delete_all_reminders,
            _clear_all_fields_and_list, _toggle_complete_selected,
            _load_selected_for_editing, _get_selected_reminder_object,
            _clear_input_fields, _set_due_date_to_now, _save_reminders, _show_about,
            _sort_reminders, _refresh_reminders_tree).

Lemma handle_keeps_disk (clock : nat -> datetime) (h : handler) :
  writes_files h = false -> keeps disk (handle clock h).
Proof. destruct h; cbn [writes_files]; intros H; try discriminate H; frame. Qed.

Lemma handle_keeps_filename (clock : nat -> datetime) (h : handler) :
  names_file h = false -> keeps current_filename (handle clock h).
Proof. destruct h; cbn [names_file]; intros H; try discriminate H; frame. Qed.

Lemma handle_keeps_list (clock : nat -> datetime) (h : handler) :
  changes_records h = false -> keeps reminders_list (handle clock h).
Proof. destruct h; cbn [changes_records]; intros H; try discriminate H; frame. Qed.

Lemma handle_keeps_tree (clock : nat -> datetime) (h : handler) :
  changes_records h = false -> keeps reminders_tree (handle clock h).
Proof. destruct h; cbn [changes_records]; intros H; try discriminate H; frame. Qed.

(** X20.  Whether a command returns or raises: only Save writes a file;
    only Save, Open, start-up and New change the current file name; and Load
    for Edit, Clear Fields, Now, Save and About change neither the list nor
    the tree. *)
Theorem commands_leave_the_rest_alone (clock : nat -> datetime) (h : handler)
    (a : App) :
  let a' := snd (handle clock h a) in
  (writes_files h = false -> disk a' = disk a) /\
  (names_file h = false -> current_filename a' = current_filename a) /\
  (changes_records h = false ->
   reminders_list a' = reminders_list a /\ reminders_tree a' = reminders_tree a).
Proof.
  cbn zeta. split; [|split].
  - intros H. now apply handle_keeps_disk.
  - intros H. now apply handle_keeps_filename.
  - intros H. split; [now apply handle_keeps_list | now apply handle_keeps_tree].
Qed.

Lemma commands_leave_the_rest_alone_witness :
  disk (snd (handle clock_example (DeleteSelected [0%nat] true) app_example))
  = disk app_example /\
  current_filename (snd (handle clock_example (DeleteSelected [0%nat] true) app_example))
  = current_filename app_example.
Proof.
  destruct (commands_leave_the_rest_alone clock_example
              (DeleteSelected [0%nat] true) app_example) as (Hd & Hf & _).
  split; [apply Hd | apply Hf]; reflexivity.
Defined.

(** ** Open and start-up never raise *)

Lemma json_load_keeps_filename (filename : string) :
  keeps current_filename (json_load filename).
Proof. frame. Qed.

Lemma decode_keeps_filename (clock : nat -> datetime) (data : pyval) :
  keeps current_filename (decode clock data).
Proof. frame. Qed.

Lemma sort_keeps_filename : keeps current_filename _sort_reminders.
Proof. frame. Qed.

Lemma refresh_keeps_filename (clock : nat -> datetime) :
  keeps current_filename (_refresh_reminders_tree clock).
Proof. frame. Qed.

Lemma last_snoc {A} (l : list A) (x d : A) : last (l ++ [x]) d = x.
Proof. apply last_last. Qed.

Lemma open_returns (clock : nat -> datetime) (filename : string) (a : App) :
  exists a',
    _load_reminders_core clock filename a = (Ret tt, a') /\
    (current_filename a' = filename \/
     current_filename a' = current_filename a /\
     last (dialogs a') (showinfo "") = showerror "Load Error").
Proof.
  unfold _load_reminders_core, try.
  set (report := fun e : exn => match e with
                                 | FileNotFoundError => messagebox (showerror "Load Error")
                                 | JSONDecodeError => messagebox (showerror "Load Error")
                                 | _ => messagebox (showerror "Load Error")
                                 end).
  assert (Hh : forall e b, current_filename b = current_filename a ->
                 exists a', report e b = (Ret tt, a') /\
                   (current_filename a' = filename \/
                    current_filename a' = current_filename a /\
                    last (dialogs a') (showinfo "") = showerror "Load Error")).
  { intros e b Hb. exists (with_dialogs (dialogs b ++ [showerror "Load Error"]) b).
    split; [now destruct e|]. right. split; [exact Hb|]. cbn. apply last_snoc. }
  unfold bind at 1.
  pose proof (json_load_keeps_filename filename a) as H1.
  destruct (json_load filename a) as [[doc|e] a1]; cbn [snd] in H1; [|now apply Hh].
  unfold bind at 1.
  pose proof (decode_keeps_filename clock doc a1) as H2.
  destruct (decode clock doc a1) as [[l|e] a2]; cbn [snd] in H2;
    [|apply Hh; congruence].
  unfold bind at 1. unfold modify at 1. cbn iota beta.
  unfold bind at 1.
  pose proof (sort_keeps_filename (with_list l a2)) as H3.
  destruct (_sort_reminders (with_list l a2)) as [[[]|e] a3]; cbn [snd] in H3;
    [|apply Hh; rewrite H3; cbn; congruence].
  unfold bind at 1.
  pose proof (refresh_keeps_filename clock a3) as H4.
  destruct (_refresh_reminders_tree clock a3) as [[[]|e] a4]; cbn [snd] in H4;
    [|apply Hh; rewrite H4, H3; cbn; congruence].
  unfold modify. eexists. split; [reflexivity|]. left. reflexivity.
Qed.

(** X21.  Open and start-up never raise, whatever the file holds and
    whatever the list held.  After Open the file is the current one, or the
    current file name is what it was and the dialog opened last is "Load
    Error"; after start-up the current file is the default file or the one
    it was. *)
Theorem open_and_startup_always_return (clock : nat -> datetime)
    (filename : string) (a : App) :
  (exists a',
      _load_reminders_core clock filename a = (Ret tt, a') /\
      (current_filename a' = filename \/
       current_filename a' = current_filename a /\
       last (dialogs a') (showinfo "") = showerror "Load Error")) /\
  (exists a',
      _load_reminders_on_startup clock a = (Ret tt, a') /\
      (current_filename a' = DEFAULT_FILENAME \/
       current_filename a' = current_filename a)).
Proof.
  split; [apply open_returns|].
  unfold _load_reminders_on_startup, try, bind, gets, raise.
  destruct (find_file DEFAULT_FILENAME (disk a)) eqn:Hf;
    try (destruct (open_returns clock DEFAULT_FILENAME a) as (a' & -> & [H | [H _]]);
         exists a'; split; auto).
  - exists a. split; [reflexivity | now right].
  - eexists. split; [reflexivity | now right].
Qed.

(** * Where the specification and the code part *)

(** ** Insertion order, and flags that are not booleans *)

(** C1, as the claim words it, fails twice.  Insertion order: "A" is added
    before "B" with the same three keys and stands first; after "A" is
    toggled twice, all keys are again equal and "B" stands first.  Canonical
    order after a load: a document whose [is_completed] is the number -1
    loads without any dialog, and the record that counts as completed
    stands before the one that does not. *)
Lemma insertion_order_is_not_retained :
  (exists a2 a4,
      session clock_example [add_A; add_B] app_empty = (Ret tt, a2) /\
      map task (reminders_list a2) = [PStr "A"; PStr "B"] /\
      session clock_example [ToggleComplete [0%nat]; ToggleComplete [1%nat]] a2
      = (Ret tt, a4) /\
      map task (reminders_list a4) = [PStr "B"; PStr "A"] /\
      map oid (reminders_list a4) = [1%nat; 0%nat] /\
      map (fun r => (is_completed r, due_date r, priority r)) (reminders_list a4)
      = [(PBool false, mkDatetime 2025 1 1 9 0 0 0, PStr "High");
         (PBool false, mkDatetime 2025 1 1 9 0 0 0, PStr "High")]) /\
  (exists a',
      _load_reminders_core clock_example "flags.json" app_flag = (Ret tt, a') /\
      dialogs a' = [] /\
      map task (reminders_list a') = [PStr "done early"; PStr "open"] /\
      map (fun r => truthy (is_completed r)) (reminders_list a') = [true; false] /\
      ~ StronglySorted canonical_le (reminders_list a')).
Proof.
  split.
  - eexists. eexists. split; [vm_compute; reflexivity|].
    split; [reflexivity|]. split; [vm_compute; reflexivity|].
    repeat split.
  - eexists. split; [vm_compute; reflexivity|].
    split; [reflexivity|]. split; [reflexivity|]. split; [reflexivity|].
    cbn [reminders_list]. intros Hs. inversion Hs as [|x l _ Hall]; subst.
    inversion Hall as [|y l' Hle _]; subst. discriminate Hle.
Qed.

(** ** A due date before the year 1000 *)

(** C2.  The due-date text ["0999-01-01 10:00"] is in DATE_FORMAT and
    parses, to the due date of [old_bill]; [to_dict] writes that due date
    as ["999-01-01 10:00"]; and [decode] of the encoded record opens the
    "Date Format Error" warning and returns a record whose due date is the
    reading of the clock, not the one that was encoded. *)
Theorem round_trip_loses_a_due_date_before_1000 :
  strptime "0999-01-01 10:00" = Some (due_date old_bill) /\
  encode [old_bill]
  = PList [PDict [("task", PStr "Old bill"); ("due_date_str", PStr "999-01-01 10:00");
                  ("priority", PStr "High"); ("details", PStr "");
                  ("is_completed", PBool false);
                  ("creation_date", PStr "2024-12-31 08:00")]] /\
  exists r' a',
    decode clock_example (encode [old_bill]) app_example = (Ret [r'], a') /\
    dialogs a' = [showwarning "Date Format Error"] /\
    due_date r' = clock_example 0 /\
    due_date r' <> due_date old_bill.
Proof.
  split; [reflexivity|]. split; [reflexivity|].
  eexists. eexists. split; [vm_compute; reflexivity|].
  split; [reflexivity|]. split; [reflexivity|]. discriminate.
Qed.

(** C9.  For the year 999 [strftime] gives a text of three year digits,
    which [strptime] rejects, although the padded text of the same moment
    parses: [from_dict] on what [to_dict] wrote takes the fallback branch,
    with its warning and the clock as due date. *)
Theorem encoded_due_date_before_1000_does_not_parse :
  strftime (mkDatetime 999 1 1 10 0 0 0) = "999-01-01 10:00" /\
  strptime "999-01-01 10:00" = None /\
  strptime "0999-01-01 10:00" = Some (mkDatetime 999 1 1 10 0 0 0) /\
  exists r' a',
    from_dict clock_example (to_dict old_bill) app_example = (Ret r', a') /\
    dialogs a' = dialogs app_example ++ [showwarning "Date Format Error"] /\
    due_now clock_example app_example a' r'.
Proof.
  split; [reflexivity|]. split; [reflexivity|]. split; [reflexivity|].
  eexists. eexists. split; [vm_compute; reflexivity|].
  split; [reflexivity|]. exists 0%nat. split; [cbn; lia | reflexivity].
Qed.

(** ** Text beyond ASCII *)

(** [strip] and [strptime] on characters of more than one byte: no-break and
    ideographic spaces are white space, at both ends and between date and
    time, and the digits of other scripts are digits where the format has
    [\d]. *)
Lemma text_beyond_ascii :
  strip no_break_spaces = "" /\
  strip ("　é " ++ no_break_spaces) = "é" /\
  strptime fullwidth_year = Some (mkDatetime 2025 1 1 9 0 0 0) /\
  strptime ("2025-01-01" ++ no_break_spaces ++ "09:00") = Some (mkDatetime 2025 1 1 9 0 0 0) /\
  strptime "2025-０1-01 09:00" = None /\
  strptime ("2025-01-01 09:00" ++ no_break_spaces) = None.
Proof. repeat split; vm_compute; reflexivity. Qed.
